(** * Agon MOS firmware upgrade utility (src/main.c): a shallow embedding

    The C program is embedded as pure functions over an explicit machine
    state.  Every call of the program into its environment (printf, the MOS
    file API, the flash special-function registers, the bulk copy
    primitive, crc32, di, reset) appends one event to a trace, so that
    ordering properties can be read off the trace, and transforms an
    abstract hardware state through the operations of the [Hardware]
    class, so that the same program text runs on a fault-free device and on
    a device with injected faults. *)

From Stdlib Require Import ZArith String Ascii List Lia Bool FMapPositive.
Import ListNotations.
Open Scope Z_scope.

(** ** Machine integers

    The Zilog compiler's UINT8, UINT24 and UINT32 are unsigned and wrap. *)

Definition wrap8 (z : Z) : Z := Z.land z (Z.ones 8).
Definition wrap24 (z : Z) : Z := Z.land z (Z.ones 24).
Definition wrap32 (z : Z) : Z := Z.land z (Z.ones 32).

(** ** Device constants

    flash.h is not part of the sources at hand; its macros are taken as
    parameters of the development. *)

Record Board : Type := {
  PAGESIZE : Z;
  FLASHPAGES : Z;
  FLASHSTART : Z;
  FLASHSIZE : Z;
  BUFFER1 : Z;
  BUFFER2 : Z;
  BLOCKSIZE : Z
}.

(** [enum states{firmware,recover,systemreset}] *)
Inductive states : Type := firmware | recover | systemreset.

Definition states_eqb (a b : states) : bool :=
  match a, b with
  | firmware, firmware | recover, recover | systemreset, systemreset => true
  | _, _ => false
  end.

(** ** Observable events *)

(** The special-function registers the program touches. *)
Inductive sfr : Type :=
  FLASH_PROT | FLASH_FDIV | FLASH_PAGE | FLASH_PGCTL | UART0_LSR | UART0_THR.

(** A printf argument: [%s] or a number ([%d], [%03d], [%08lx]). *)
Inductive parg : Type := PStr (s : string) | PNum (z : Z).

Inductive event : Type :=
| EPrintf (fmt : string) (args : list parg)
| EFopen (name : string) (handle : Z)
| EFread (ptr : Z) (got : Z)
| EFclose
| EGetch (c : Z)
| ECrc32 (addr len : Z) (result : Z)
| EMemcpy (dst src len : Z)
| EDi
| EKeyUnlock
| EKeyLock
| EWrite (r : sfr) (v : Z)
| ERead (r : sfr) (v : Z)
| EDelay (ms : Z)
| ECompare (st : states) (crcresult crcexpected : Z)
| EReset.


(** How a run of [main] ends. *)
Inductive outcome : Type :=
| Returned (code : Z)   (* [return 0] *)
| DeviceReset           (* [reset()] was called: the device restarts *)
| Halted                (* [while(1);] after a failed recovery *)
| AwaitKey              (* blocked in [getch()], keyboard input exhausted *)
| OutOfFuel.            (* the model's iteration bound was too small *)

(** ** The hardware interface

    What the program needs from the machine: byte reads (for crc32), the
    loader's store into RAM (mos_fread), the bulk copy primitive, the
    flash key register sequences, special-function register writes, and
    the number of busy polls an erase or a UART transmit takes (the
    operation is assumed to complete eventually, as the source does). *)

Class Hardware (HW : Type) : Type := {
  peek : HW -> Z -> Z;
  load_bytes : HW -> Z -> list Z -> HW;
  copy_bytes : HW -> Z -> Z -> Z -> HW;
  key_unlock : HW -> HW;
  key_lock : HW -> HW;
  sfr_write : HW -> sfr -> Z -> HW;
  erase_polls : HW -> nat;
  uart_polls : HW -> nat
}.

(** ** A state-and-trace monad for the program's statements *)

Definition prog (HW A : Type) : Type := HW -> A * HW * list event.

Definition ret {HW A} (a : A) : prog HW A := fun h => (a, h, []).

Definition bind {HW A B} (m : prog HW A) (k : A -> prog HW B) : prog HW B :=
  fun h =>
    let '(a, h1, t1) := m h in
    let '(b, h2, t2) := k a h1 in
    (b, h2, t1 ++ t2).

Declare Scope prog_scope.
Delimit Scope prog_scope with prog.
Notation "x <- m ;; k" := (bind m (fun x => k))
  (at level 61, m at next level, right associativity) : prog_scope.
Notation "m ;;; k" := (bind m (fun _ => k))
  (at level 61, right associativity) : prog_scope.

Definition emit {HW} (e : event) : prog HW unit := fun h => (tt, h, [e]).

Definition update {HW} (f : HW -> HW) (e : event) : prog HW unit :=
  fun h => (tt, f h, [e]).

Definition result_of {HW A} (r : A * HW * list event) : A := fst (fst r).
Definition hw_of {HW A} (r : A * HW * list event) : HW := snd (fst r).
Definition trace_of {HW A} (r : A * HW * list event) : list event := snd r.

(** The two bytes that end the confirmation loop: 'y' and 'n'. *)
Definition is_answer (b : Z) : bool := (b =? 121) || (b =? 110).

Definition other_key (b : Z) : Prop := b <> 121 /\ b <> 110.

Definition is_byte (b : Z) : Prop := 0 <= b < 256.

Section Program.

Context {HW : Type} `{Hardware HW}.

(** The board's constants, the checksum engine and the checksum parser are
    external to main.c. *)
Variable cfg : Board.
Variable crc32_bytes : list Z -> Z.
Variable strtoll : string -> Z * Z.

Local Open Scope prog_scope.

(** *** Primitives *)

Definition printf (fmt : string) (args : list parg) : prog HW unit :=
  emit (EPrintf fmt args).

(** The [n] bytes from [addr] on, in the 24-bit address space. *)
Fixpoint read_bytes (h : HW) (n : nat) (addr : Z) : list Z :=
  match n with
  | O => []
  | S n' => peek h (wrap24 addr) :: read_bytes h n' (addr + 1)
  end.

Definition read_range (h : HW) (addr len : Z) : list Z :=
  read_bytes h (Z.to_nat len) addr.

(** [crc32((char* )addr, len)] *)
Definition crc32 (addr len : Z) : prog HW Z :=
  fun h =>
    let r := wrap32 (crc32_bytes (read_range h addr len)) in
    (r, h, [ECrc32 addr len r]).

(** [fastmemcpy(dst, src, len)] *)
Definition fastmemcpy (dst src len : Z) : prog HW unit :=
  update (fun h => copy_bytes h dst src len) (EMemcpy dst src len).

Definition enableFlashKeyRegister : prog HW unit := update key_unlock EKeyUnlock.
Definition lockFlashKeyRegister : prog HW unit := update key_lock EKeyLock.

Definition set_sfr (r : sfr) (v : Z) : prog HW unit :=
  update (fun h => sfr_write h r (wrap8 v)) (EWrite r (wrap8 v)).

Definition delayms (ms : Z) : prog HW unit := emit (EDelay ms).
Definition di : prog HW unit := emit EDi.

(** [do value = FLASH_PGCTL; while(value & 0x02);] with [n] busy reads.
    The device says how many reads find the erase bit set; an event
    records the tested bit of the value read (2 or 0), not the other
    bits of the register. *)
Fixpoint wait_erase (n : nat) : prog HW unit :=
  match n with
  | O => emit (ERead FLASH_PGCTL 0)
  | S n' => emit (ERead FLASH_PGCTL 2) ;;; wait_erase n'
  end.

(** [while((UART0_LSR & 0x40) == 0);] with [n] reads that find it clear.
    As above, an event records the tested bit (0 or 0x40) only. *)
Fixpoint wait_uart (n : nat) : prog HW unit :=
  match n with
  | O => emit (ERead UART0_LSR 64)
  | S n' => emit (ERead UART0_LSR 0) ;;; wait_uart n'
  end.

(** [int putch(int c)] *)
Definition putch (c : Z) : prog HW Z :=
  (fun h => wait_uart (uart_polls h) h) ;;;
  set_sfr UART0_THR c ;;;
  ret c.

(** *** The file loader (main.c lines 78-83)

    [while((got = mos_fread(file, ptr, BLOCKSIZE)) > 0) { ptr += got;
    size += got; printf(...); }].  [rest] is what is left of the file;
    mos_fread hands over at most BLOCKSIZE bytes of it and stores them at
    [ptr].  The loop has no other exit than [got = 0]. *)
Fixpoint load_file (fuel : nat) (rest : list Z) (ptr size : Z)
  : prog HW (option (Z * Z)) :=
  match fuel with
  | O => ret None
  | S fuel' =>
      let chunk := firstn (Z.to_nat (BLOCKSIZE cfg)) rest in
      let got := Z.of_nat (List.length chunk) in
      update (fun h => load_bytes h ptr chunk) (EFread ptr got) ;;;
      if 0 <? got then
        printf "\rFile size    : %d byte(s)" [PNum (wrap24 (size + got))] ;;;
        load_file fuel' (skipn (Z.to_nat (BLOCKSIZE cfg)) rest)
                  (wrap24 (ptr + got)) (wrap24 (size + got))
      else ret (Some (ptr, size))
  end.

(** *** The confirmation loop (main.c line 106)

    [while((response != 'y') && (response != 'n')) response = getch();]
    over the bytes the keyboard will deliver.  The result is the final
    [response] and the unread input, or [None] when getch blocks for ever. *)
Definition key_y : Z := 121.
Definition key_n : Z := 110.

Fixpoint get_response (kbd : list Z) (response : Z) {struct kbd}
  : prog HW (option (Z * list Z)) :=
  if negb (response =? key_y) && negb (response =? key_n) then
    match kbd with
    | [] => ret None
    | c :: kbd' => emit (EGetch c) ;;; get_response kbd' (wrap8 c)
    end
  else ret (Some (response, kbd)).

(** [response = 0;] then the loop. *)
Definition ask (kbd : list Z) : prog HW (option (Z * list Z)) :=
  get_response kbd 0.

(** *** The erase loop (main.c lines 153-163)

    [n] counts the iterations left of
    [for(counter = 0; counter < FLASHPAGES; counter++)]. *)
Fixpoint erase_pages (n : nat) (counter : Z) : prog HW unit :=
  match n with
  | O => ret tt
  | S n' =>
      set_sfr FLASH_PAGE counter ;;;
      set_sfr FLASH_PGCTL 2 ;;;
      (fun h => wait_erase (erase_polls h) h) ;;;
      erase_pages n' (wrap24 (counter + 1))
  end.

(** *** The page count (main.c lines 168-174) *)
Definition page_count (size : Z) : Z :=
  if size mod PAGESIZE cfg =? 0 then size / PAGESIZE cfg
  else wrap24 (size / PAGESIZE cfg + 1).

Definition last_page_bytes (size : Z) : Z :=
  if size mod PAGESIZE cfg =? 0 then PAGESIZE cfg
  else size mod PAGESIZE cfg.

(** *** The write loop (main.c lines 177-190)

    [n] counts the iterations left of
    [for(counter = 0; counter < pagemax; counter++)]; the result is the
    final [addressto] and [addressfrom]. *)
Fixpoint write_pages (n : nat) (counter pagemax lastpagebytes : Z)
         (addressto addressfrom : Z) : prog HW (Z * Z) :=
  match n with
  | O => ret (addressto, addressfrom)
  | S n' =>
      printf "\rWriting flash page %03d/%03d"
             [PNum (wrap24 (counter + 1)); PNum pagemax] ;;;
      (if counter =? wrap24 (pagemax - 1)
       then fastmemcpy addressto addressfrom lastpagebytes
       else fastmemcpy addressto addressfrom (PAGESIZE cfg)) ;;;
      write_pages n' (wrap24 (counter + 1)) pagemax lastpagebytes
                  (wrap24 (addressto + PAGESIZE cfg))
                  (wrap24 (addressfrom + PAGESIZE cfg))
  end.

(** *** The reset sequence (main.c lines 134-143) *)
Fixpoint countdown (n : nat) : prog HW unit :=
  match n with
  | O => ret tt
  | S n' =>
      printf "\rReset in %ds" [PNum (Z.of_nat n)] ;;;
      delayms 1000 ;;;
      countdown n'
  end.

Definition reset_sequence : prog HW unit :=
  printf "\r\n" [] ;;;
  countdown 5 ;;;
  putch 12 ;;;
  delayms 500 ;;;
  emit EReset.

(** *** The programming loop (main.c lines 120-220)

    The variables of [main] that are live at the head of [while(1)]. *)
Record locals : Type := {
  crcexpected : Z;
  crcbackup : Z;
  size : Z;
  addressto : Z;
  addressfrom : Z;
  state : states
}.

(** Lines 147-151: unprotect. *)
Definition unprotect : prog HW unit :=
  printf "\r\nErasing flash... " [] ;;;
  enableFlashKeyRegister ;;;
  set_sfr FLASH_PROT 0 ;;;
  enableFlashKeyRegister ;;;
  set_sfr FLASH_FDIV 95.

(** Lines 147-191 for a source address and a length: unprotect, erase,
    write, lock.  [addressto] is whatever the variable holds on entry. *)
Definition erase_and_write (sz to from : Z) : prog HW (Z * Z) :=
  unprotect ;;;
  erase_pages (Z.to_nat (FLASHPAGES cfg)) 0 ;;;
  printf "\r\nWriting new firmware...\r\n" [] ;;;
  a <- write_pages (Z.to_nat (page_count sz)) 0 (page_count sz)
                   (last_page_bytes sz) to from ;;
  lockFlashKeyRegister ;;;
  printf "\r\n" [] ;;;
  ret a.

Definition msg_verify : string := "Verifying flash checksum... ".
Definition msg_ok : string := "- OK\r\n".
Definition msg_attempt : string :=
  "\r\nError occured during flash write\r\nAttempting to flash backup firmware...\r\n".
Definition msg_failed : string :=
  "\r\nError occured during flash write\r\nBackup recovery failed\r\n".

Definition with_state (l : locals) (expected : Z) (st : states) : locals :=
  {| crcexpected := expected; crcbackup := crcbackup l;
     size := size l; addressto := addressto l;
     addressfrom := addressfrom l; state := st |}.

(** Lines 194-219: verify, then choose the next state.  [ECompare] records
    the operands of [crcresult == crcexpected] at line 200. *)
Definition verify (l : locals) : prog HW (locals + outcome) :=
  printf msg_verify [] ;;;
  crcresult <- crc32 (FLASHSTART cfg) (size l) ;;
  let expected :=
    if states_eqb (state l) recover then crcbackup l else crcexpected l in
  emit (ECompare (state l) crcresult expected) ;;;
  if crcresult =? expected then
    printf msg_ok [] ;;;
    ret (inl (with_state l expected systemreset))
  else
    match state l with
    | firmware =>
        printf msg_attempt [] ;;;
        ret (inl (with_state l expected recover))
    | recover =>
        printf msg_failed [] ;;;
        ret (inr Halted)
    | systemreset =>
        ret (inl (with_state l expected recover))
    end.

(** One turn of [while(1)]: the first switch picks the source (and, for
    [recover], the length); [addressto] is not assigned in the loop. *)
Definition iteration (l : locals) : prog HW (locals + outcome) :=
  match state l with
  | systemreset => reset_sequence ;;; ret (inr DeviceReset)
  | st =>
      let from := match st with firmware => BUFFER1 cfg | _ => BUFFER2 cfg end in
      let sz := match st with recover => FLASHSIZE cfg | _ => size l end in
      a <- erase_and_write sz (addressto l) from ;;
      verify {| crcexpected := crcexpected l; crcbackup := crcbackup l;
                size := sz; addressto := fst a; addressfrom := snd a;
                state := st |}
  end.

Fixpoint main_loop (fuel : nat) (l : locals) : prog HW outcome :=
  match fuel with
  | O => ret OutOfFuel
  | S fuel' =>
      r <- iteration l ;;
      match r with
      | inl l' => main_loop fuel' l'
      | inr o => ret o
      end
  end.

(** The checksum that verification computes on hardware state [h]. *)
Definition flash_crc (sz : Z) (h : HW) : Z :=
  wrap32 (crc32_bytes (read_range h (FLASHSTART cfg) sz)).

(** The events of lines 195-200. *)
Definition verify_trace (st : states) (sz c e : Z) : list event :=
  [EPrintf msg_verify []; ECrc32 (FLASHSTART cfg) sz c; ECompare st c e].

(** What the comparison at line 200 is made against. *)
Definition expected_of (l : locals) : Z :=
  if states_eqb (state l) recover then crcbackup l else crcexpected l.

(** The source and the length that the first switch selects. *)
Definition pass_source (st : states) : Z :=
  match st with firmware => BUFFER1 cfg | _ => BUFFER2 cfg end.

Definition pass_size (l : locals) : Z :=
  match state l with recover => FLASHSIZE cfg | _ => size l end.

(** The variables after the pass of a turn, before its verification. *)
Definition after_pass (l : locals) (h : HW) : locals :=
  let r := erase_and_write (pass_size l) (addressto l) (pass_source (state l)) h in
  {| crcexpected := crcexpected l; crcbackup := crcbackup l;
     size := pass_size l; addressto := fst (result_of r);
     addressfrom := snd (result_of r); state := state l |}.

(** *** The courses a session can take

    The first pass writes the candidate from the address [addressto]
    holds; the second, if there is one, writes the backup from the address
    the first pass left in [addressto]. *)
Definition pass1 (l : locals) (h : HW) : Z * Z * HW * list event :=
  erase_and_write (size l) (addressto l) (BUFFER1 cfg) h.

Definition crc1 (l : locals) (h : HW) : Z :=
  flash_crc (size l) (hw_of (pass1 l h)).

Definition pass2 (l : locals) (h : HW) : Z * Z * HW * list event :=
  erase_and_write (FLASHSIZE cfg) (fst (result_of (pass1 l h))) (BUFFER2 cfg)
                  (hw_of (pass1 l h)).

Definition crc2 (l : locals) (h : HW) : Z :=
  flash_crc (FLASHSIZE cfg) (hw_of (pass2 l h)).

Definition session (l : locals) (h : HW) : outcome * HW * list event :=
  let t1 := trace_of (pass1 l h)
            ++ verify_trace firmware (size l) (crc1 l h) (crcexpected l) in
  if crc1 l h =? crcexpected l then
    let r := reset_sequence (hw_of (pass1 l h)) in
    (DeviceReset, hw_of r, t1 ++ [EPrintf msg_ok []] ++ trace_of r)
  else
    let t2 := t1 ++ [EPrintf msg_attempt []] ++ trace_of (pass2 l h)
              ++ verify_trace recover (FLASHSIZE cfg) (crc2 l h) (crcbackup l) in
    if crc2 l h =? crcbackup l then
      let r := reset_sequence (hw_of (pass2 l h)) in
      (DeviceReset, hw_of r, t2 ++ [EPrintf msg_ok []] ++ trace_of r)
    else
      (Halted, hw_of (pass2 l h), t2 ++ [EPrintf msg_failed []]).

(** *** Backup capture

    The hardware after line 110, the checksum line 111 computes on it, and
    the variables with which the loop is entered. *)
Definition captured (h : HW) : HW :=
  copy_bytes h (BUFFER2 cfg) 0 (FLASHSIZE cfg).

Definition backup_crc (h : HW) : Z :=
  wrap32 (crc32_bytes (read_range (captured h) 0 (FLASHSIZE cfg))).

Definition entry_locals (crcexp sz : Z) (h : HW) : locals :=
  {| crcexpected := crcexp; crcbackup := backup_crc h; size := sz;
     addressto := FLASHSTART cfg; addressfrom := BUFFER1 cfg;
     state := firmware |}.

Definition capture_trace (h : HW) : list event :=
  [EPrintf "\r\nBacking up existing firmware... " [];
   EMemcpy (BUFFER2 cfg) 0 (FLASHSIZE cfg);
   ECrc32 0 (FLASHSIZE cfg) (backup_crc h);
   EDi].

(** Lines 109-119: backup capture, [di()], initial assignments. *)
Definition backup_and_enter (fuel : nat) (crcexp sz : Z) : prog HW outcome :=
  printf "\r\nBacking up existing firmware... " [] ;;;
  fastmemcpy (BUFFER2 cfg) 0 (FLASHSIZE cfg) ;;;
  crcb <- crc32 0 (FLASHSIZE cfg) ;;
  di ;;;
  main_loop fuel {| crcexpected := crcexp; crcbackup := crcb; size := sz;
                    addressto := FLASHSTART cfg; addressfrom := BUFFER1 cfg;
                    state := firmware |}.

(** *** [main]

    [argv] is the argument vector ([argc] its length), [fs] the files that
    mos_fopen can open (it returns 0 for the others), [kbd] the bytes
    that getch will deliver.  [fuel] bounds the turns of [while(1)]. *)
Definition dquote : string := String (ascii_of_nat 34) EmptyString.

Definition msg_usage : string := "Usage: FLASH <filename> <crc32>\n\r\r\n".
Definition msg_open : string :=
  "Error opening " ++ dquote ++ "%s" ++ dquote ++ "\n\r".
Definition msg_format : string := "Incorrect crc32 format\n\r".
Definition msg_large : string := "Too large for 128KB flash - aborting\r\n".
Definition msg_mismatch : string := "\n\rMismatch - aborting\n\r".
Definition msg_abort : string := "\n\rUser abort\n\r".
Definition msg_prompt : string := "Erase and program flash (y/n)? ".

(** The hardware once the loader has stored the whole file, and the
    value of [size] it leaves. *)
Definition staged (content : list Z) (h : HW) : HW :=
  hw_of (load_file (S (List.length content)) content (BUFFER1 cfg) 0 h).

Definition loaded_size (content : list Z) : Z :=
  wrap24 (Z.of_nat (List.length content)).

(** The checksum of the staged image, as line 93 computes it. *)
Definition staged_crc_of (sz : Z) (h : HW) : Z :=
  wrap32 (crc32_bytes (read_range h (BUFFER1 cfg) sz)).

(** Lines 86-101, after the file has been read: the size test and the
    checksum test.  [inr (crcexpected, size)] means that both passed. *)
Definition check_image (crcexp sz : Z) : prog HW (outcome + Z * Z) :=
  printf "\rFile size    : %d byte(s)\n\r" [PNum sz] ;;;
  if FLASHSIZE cfg <? sz then
    printf msg_large [] ;;;
    ret (inl (Returned 0))
  else
    printf "Testing CRC32: 0x%08lx\n\r" [PNum crcexp] ;;;
    crcresult <- crc32 (BUFFER1 cfg) sz ;;
    printf "CRC32 result : 0x%08lx\n\r" [PNum crcresult] ;;;
    if negb (crcexp =? crcresult) then
      printf msg_mismatch [] ;;;
      ret (inl (Returned 0))
    else
      printf "\n\rOK\n\r\n\r" [] ;;;
      ret (inr (crcexp, sz)).

(** Lines 50-101: everything up to the prompt. *)
Definition gate (argv : list string) (fs : string -> option (list Z))
  : prog HW (outcome + Z * Z) :=
  printf "Agon MOS firmware upgrade utility v1.3\n\r\n\r" [] ;;;
  match argv with
  | [_; filename; crcarg] =>
      match fs filename with
      | None =>
          emit (EFopen filename 0) ;;;
          printf msg_open [PStr filename] ;;;
          ret (inl (Returned 0))
      | Some content =>
          emit (EFopen filename 1) ;;;
          let crcexp := wrap32 (fst (strtoll crcarg)) in
          if negb (snd (strtoll crcarg) =? 0) then
            printf msg_format [] ;;;
            ret (inl (Returned 0))
          else
            printf "Loading file : %s\n\r" [PStr filename] ;;;
            printf "File size    : %d byte(s)" [PNum 0] ;;;
            r <- load_file (S (List.length content)) content (BUFFER1 cfg) 0 ;;
            match r with
            | None => ret (inl OutOfFuel)
            | Some (_, sz) =>
                emit EFclose ;;;
                check_image crcexp sz
            end
      end
  | _ =>
      printf msg_usage [] ;;;
      printf "       <filename> - e.g. firmware.bin\r\n" [] ;;;
      printf "       <crc32> - 4byte HEX CRC32 checksum\r\n" [] ;;;
      ret (inl (Returned 0))
  end.


(** The image is staged and has passed the size test: three arguments, a
    file that opens, a checksum text that parses, and a [size] (the
    file's length as the 24-bit variable holds it) that is at most
    FLASHSIZE. *)
Definition image_staged (argv : list string) (fs : string -> option (list Z))
           (name c : string) (content : list Z) : Prop :=
  (exists a0, argv = [a0; name; c])
  /\ fs name = Some content
  /\ snd (strtoll c) = 0
  /\ loaded_size content <= FLASHSIZE cfg.


(** Lines 104-222: the prompt and what follows it. *)
Definition confirm_and_flash (fuel : nat) (kbd : list Z) (crcexp sz : Z)
  : prog HW outcome :=
  printf msg_prompt [] ;;;
  k <- ask kbd ;;
  match k with
  | None => ret AwaitKey
  | Some (response, _) =>
      if response =? key_y then
        backup_and_enter fuel crcexp sz
      else
        printf msg_abort [] ;;;
        ret (Returned 0)
  end.

Definition main (fuel : nat) (argv : list string)
           (fs : string -> option (list Z)) (kbd : list Z) : prog HW outcome :=
  g <- gate argv fs ;;
  match g with
  | inl o => ret o
  | inr (crcexp, sz) => confirm_and_flash fuel kbd crcexp sz
  end.

End Program.

Arguments main {HW _} cfg crc32_bytes strtoll fuel argv fs kbd _.

(** ** A fault-free device

    Memory is a finite map from 24-bit addresses to the bytes stored so
    far, over the contents [rom] the machine started with.  Writing 2 to
    FLASH_PGCTL erases the page selected by FLASH_PAGE: its bytes read
    0xFF afterwards.  Copies and loads store what they are given; write
    protection is not modelled (the device accepts every store). *)
Record ideal : Type := {
  cells : PositiveMap.t Z;
  rom : Z -> Z;
  page_sel : Z
}.

Definition key (a : Z) : positive := Z.to_pos (wrap24 a + 1).

Definition mem (h : ideal) (a : Z) : Z :=
  match PositiveMap.find (key a) (cells h) with
  | Some v => v
  | None => rom h (wrap24 a)
  end.

Definition poke (h : ideal) (a v : Z) : ideal :=
  {| cells := PositiveMap.add (key a) v (cells h);
     rom := rom h; page_sel := page_sel h |}.

(** Store a list of bytes at consecutive addresses. *)
Fixpoint store (h : ideal) (a : Z) (l : list Z) : ideal :=
  match l with
  | [] => h
  | v :: l' => store (poke h a v) (a + 1) l'
  end.

(** Store the same byte [n] times. *)
Fixpoint fill (h : ideal) (a : Z) (n : nat) (v : Z) : ideal :=
  match n with
  | O => h
  | S n' => fill (poke h a v) (a + 1) n' v
  end.

Fixpoint fetch (h : ideal) (n : nat) (a : Z) : list Z :=
  match n with
  | O => []
  | S n' => mem h a :: fetch h n' (a + 1)
  end.

Definition in_range (base len a : Z) : bool :=
  wrap24 (a - base) <? len.

Definition ideal_load (h : ideal) (ptr : Z) (chunk : list Z) : ideal :=
  store h ptr chunk.

(** The source bytes are read first, then stored. *)
Definition ideal_copy (h : ideal) (dst src len : Z) : ideal :=
  store h dst (fetch h (Z.to_nat len) src).

Definition ideal_erase (cfg : Board) (h : ideal) : ideal :=
  fill h (FLASHSTART cfg + page_sel h * PAGESIZE cfg)
       (Z.to_nat (PAGESIZE cfg)) 255.

Definition ideal_sfr_write (cfg : Board) (h : ideal) (r : sfr) (v : Z) : ideal :=
  match r with
  | FLASH_PAGE => {| cells := cells h; rom := rom h; page_sel := v |}
  | FLASH_PGCTL => if Z.testbit v 1 then ideal_erase cfg h else h
  | _ => h
  end.

Definition ideal_hw (cfg : Board) : Hardware ideal :=
  {| peek := mem;
     load_bytes := ideal_load;
     copy_bytes := ideal_copy;
     key_unlock := fun h => h;
     key_lock := fun h => h;
     sfr_write := ideal_sfr_write cfg;
     erase_polls := fun _ => 1%nat;
     uart_polls := fun _ => 0%nat |}.

(** A machine that has stored nothing yet. *)
Definition power_on (contents : Z -> Z) : ideal :=
  {| cells := PositiveMap.empty Z; rom := contents; page_sel := 0 |}.

(** ** A device with a transient programming fault

    The first [glitches] copies whose destination lies in the flash region
    store their first byte with bit 0 flipped; everything else behaves as
    on the fault-free device. *)
Record glitchy : Type := {
  base : ideal;
  glitches : nat
}.

Definition flip_first (h : ideal) (dst : Z) : ideal :=
  poke h dst (Z.lxor (mem h dst) 1).

Definition glitchy_copy (cfg : Board) (g : glitchy) (dst src len : Z) : glitchy :=
  match glitches g with
  | S n =>
      if in_range (FLASHSTART cfg) (FLASHSIZE cfg) dst && (0 <? len)
      then {| base := flip_first (ideal_copy (base g) dst src len) dst;
              glitches := n |}
      else {| base := ideal_copy (base g) dst src len; glitches := S n |}
  | O => {| base := ideal_copy (base g) dst src len; glitches := O |}
  end.

Definition glitchy_hw (cfg : Board) : Hardware glitchy :=
  {| peek := fun g => mem (base g);
     load_bytes := fun g ptr chunk =>
       {| base := ideal_load (base g) ptr chunk; glitches := glitches g |};
     copy_bytes := glitchy_copy cfg;
     key_unlock := fun g => g;
     key_lock := fun g => g;
     sfr_write := fun g r v =>
       {| base := ideal_sfr_write cfg (base g) r v; glitches := glitches g |};
     erase_polls := fun _ => 1%nat;
     uart_polls := fun _ => 0%nat |}.

(** ** Instances of the external functions

    Modelled from the spec: crc32.h and its implementation are not among
    the sources; the spec describes a pure function from a byte range to a
    32-bit value, and the program calls it crc32.  The standard reflected
    CRC-32 (polynomial 0xEDB88320) is used where a concrete checksum is
    needed; the theorems hold for every function. *)
Definition crc_shift (c : Z) : Z :=
  if Z.odd c then Z.lxor (Z.shiftr c 1) 3988292384 else Z.shiftr c 1.

Definition crc_byte (c b : Z) : Z :=
  crc_shift (crc_shift (crc_shift (crc_shift
    (crc_shift (crc_shift (crc_shift (crc_shift (Z.lxor c (wrap8 b))))))))).

Definition crc32_ieee (bytes : list Z) : Z :=
  Z.lxor (fold_left crc_byte bytes 4294967295) 4294967295.

(** Modelled from the spec: the checksum parser is not among the sources;
    the spec says the expected checksum arrives in hexadecimal text form.
    The second component is the value of [errno] after the call. *)
Definition hex_digit (c : ascii) : option Z :=
  let n := Z.of_nat (nat_of_ascii c) in
  if (48 <=? n) && (n <=? 57) then Some (n - 48)
  else if (65 <=? n) && (n <=? 70) then Some (n - 55)
  else if (97 <=? n) && (n <=? 102) then Some (n - 87)
  else None.

Fixpoint parse_hex (s : string) (acc : Z) : option Z :=
  match s with
  | EmptyString => Some acc
  | String c s' =>
      match hex_digit c with
      | Some d => parse_hex s' (16 * acc + d)
      | None => None
      end
  end.

Definition strtoll_hex (s : string) : Z * Z :=
  match s with
  | EmptyString => (0, 1)
  | _ => match parse_hex s 0 with
         | Some v => (v, 0)
         | None => (0, 1)
         end
  end.

(** Modelled from the spec: flash.h is not among the sources.  The
    program's own message speaks of a 128KB flash; the remaining values
    are those of an eZ80F92 board with 1KB pages and staging buffers in
    external RAM. *)
Definition agon : Board :=
  {| PAGESIZE := 1024; FLASHPAGES := 128; FLASHSTART := 0;
     FLASHSIZE := 131072; BUFFER1 := 327680; BUFFER2 := 458752;
     BLOCKSIZE := 16384 |}.

(** A small board with the same shape, for quick evaluation. *)
Definition tiny : Board :=
  {| PAGESIZE := 4; FLASHPAGES := 4; FLASHSTART := 0;
     FLASHSIZE := 16; BUFFER1 := 64; BUFFER2 := 128;
     BLOCKSIZE := 8 |}.

(** ** Reading traces *)

(** The bulk copies of a trace, as (destination, source, length). *)
Definition memcpys (t : list event) : list (Z * Z * Z) :=
  flat_map (fun e => match e with
                     | EMemcpy d s n => [(d, s, n)]
                     | _ => []
                     end) t.

(** The checksum comparisons of a trace. *)
Definition is_compare (e : event) : bool :=
  match e with ECompare _ _ _ => true | _ => false end.

Definition compares (t : list event) : list event := filter is_compare t.

(** Events that unlock, erase or program the flash, or write any of its
    registers; [EDi] disables the interrupts. *)
Definition is_flash_op (e : event) : bool :=
  match e with
  | EKeyUnlock | EKeyLock | EMemcpy _ _ _ => true
  | EWrite FLASH_PROT _ | EWrite FLASH_FDIV _
  | EWrite FLASH_PAGE _ | EWrite FLASH_PGCTL _ => true
  | _ => false
  end.

(** Checksum computations and comparisons. *)
Definition is_check (e : event) : bool :=
  match e with ECrc32 _ _ _ | ECompare _ _ _ => true | _ => false end.

Definition is_erase (e : event) : bool :=
  match e with EWrite FLASH_PGCTL _ => true | _ => false end.

Definition is_di (e : event) : bool :=
  match e with EDi => true | _ => false end.

Definition is_reset (e : event) : bool :=
  match e with EReset => true | _ => false end.

Definition total (l : list Z) : Z := fold_right Z.add 0 l.

(** What the reads from storage returned, and the number of bytes the
    loader stored: their sum. *)
Definition reads (t : list event) : list Z :=
  flat_map (fun e => match e with EFread _ got => [got] | _ => [] end) t.

Definition bytes_loaded (t : list event) : Z := total (reads t).

(** Events that touch neither the flash nor the interrupt state: output,
    file access, keyboard input and checksum computation. *)
Definition is_passive (e : event) : bool :=
  match e with
  | EPrintf _ _ | EFopen _ _ | EFread _ _ | EFclose | EGetch _
  | ECrc32 _ _ _ => true
  | _ => false
  end.

Definition passive (t : list event) : Prop :=
  Forall (fun e => is_passive e = true) t.

(** ** Well-formed boards

    Page size positive and a 24-bit value; the page number fits the 8-bit
    FLASH_PAGE register; the flash is made of its pages; the flash and both staging
    buffers lie inside the 24-bit address space; reads from storage make
    progress. *)
Definition board_ok (cfg : Board) : bool :=
  (0 <? PAGESIZE cfg) && (0 <=? FLASHPAGES cfg) && (FLASHPAGES cfg <=? 256)
  && (FLASHSIZE cfg =? FLASHPAGES cfg * PAGESIZE cfg)
  && (FLASHSIZE cfg <? 2 ^ 24)
  && (0 <=? FLASHSTART cfg) && (FLASHSTART cfg + FLASHSIZE cfg <=? 2 ^ 24)
  && (0 <=? BUFFER1 cfg) && (BUFFER1 cfg + FLASHSIZE cfg <=? 2 ^ 24)
  && (0 <=? BUFFER2 cfg) && (BUFFER2 cfg + FLASHSIZE cfg <=? 2 ^ 24)
  && (0 <? BLOCKSIZE cfg) && (PAGESIZE cfg <? 2 ^ 24).

(** The copies the write loop performs, as a list: the same recursion as
    [write_pages], without the machine. *)
Fixpoint write_plan (cfg : Board) (n : nat) (counter pagemax lastpagebytes : Z)
         (addressto addressfrom : Z) : list (Z * Z * Z) :=
  match n with
  | O => []
  | S n' =>
      (addressto, addressfrom,
       if counter =? wrap24 (pagemax - 1) then lastpagebytes else PAGESIZE cfg)
      :: write_plan cfg n' (wrap24 (counter + 1)) pagemax lastpagebytes
                    (wrap24 (addressto + PAGESIZE cfg))
                    (wrap24 (addressfrom + PAGESIZE cfg))
  end.

Definition copy_dst (c : Z * Z * Z) : Z := fst (fst c).
Definition copy_src (c : Z * Z * Z) : Z := snd (fst c).
Definition copy_len (c : Z * Z * Z) : Z := snd c.

(** The values the loop counter takes in [n] turns from [c]. *)
Fixpoint counters (n : nat) (c : Z) : list Z :=
  match n with
  | O => []
  | S n' => c :: counters n' (wrap24 (c + 1))
  end.

(** [addressto] and [addressfrom] after [n] turns of the write loop. *)
Fixpoint advance (cfg : Board) (n : nat) (a : Z) : Z :=
  match n with
  | O => a
  | S n' => advance cfg n' (wrap24 (a + PAGESIZE cfg))
  end.

(** The page-select and page-control writes of a trace. *)
Definition is_page_op (e : event) : bool :=
  match e with
  | EWrite FLASH_PAGE _ | EWrite FLASH_PGCTL _ => true
  | _ => false
  end.

Definition page_ops (t : list event) : list event := filter is_page_op t.

(** The page-select and erase-start writes for pages [0 .. n-1]. *)
Definition erase_all (n : nat) : list event :=
  flat_map (fun p => [EWrite FLASH_PAGE (Z.of_nat p); EWrite FLASH_PGCTL 2])
           (seq 0 n).

(** ** Example inputs *)

Definition bytes_of (s : string) : list Z :=
  map (fun c => Z.of_nat (nat_of_ascii c)) (list_ascii_of_string s).

(** The nine bytes "123456789"; their CRC-32 is 0xCBF43926. *)
Definition example_image : list Z := bytes_of "123456789".

Definition example_fs (content : list Z) : string -> option (list Z) :=
  fun name => if String.eqb name "firmware.bin" then Some content else None.

Definition example_argv (crc : string) : list string :=
  ["FLASH"%string; "firmware.bin"%string; crc].

(** A machine whose flash holds byte [7a+3] at offset [a]. *)
Definition old_firmware (cfg : Board) : ideal :=
  power_on (fun a => if a <? FLASHSIZE cfg then wrap8 (7 * a + 3) else 0).

(** The same machine, with one programming fault to come. *)
Definition glitch_once (h : ideal) : glitchy := {| base := h; glitches := 1 |}.

(** What a run is judged by: how it ended, its copies, its comparisons,
    and the first [n] bytes of the flash at the end. *)
Definition summary {HW : Type} `{Hardware HW} (cfg : Board) (n : Z)
           (r : outcome * HW * list event)
  : outcome * list (Z * Z * Z) * list event * list Z :=
  (result_of r, memcpys (trace_of r), compares (trace_of r),
   read_range (hw_of r) (FLASHSTART cfg) n).

(** The example image staged in the candidate buffer of the small board,
    and the variables with which its session enters the loop. *)
Definition example_staged : ideal :=
  ideal_load (old_firmware tiny) (BUFFER1 tiny) example_image.

Definition example_locals : locals :=
  {| crcexpected := 3421780262; crcbackup := 421477791; size := 9;
     addressto := FLASHSTART tiny; addressfrom := BUFFER1 tiny;
     state := firmware |}.

(** A file one byte longer than the flash. *)
Definition oversize_image (cfg : Board) : list Z :=
  repeat 170 (Z.to_nat (FLASHSIZE cfg + 1)).

(** The loader run on that file, on the board of the Agon. *)
Definition oversize_load : option (Z * Z) * ideal * list event :=
  load_file (H := ideal_hw agon) agon (S (List.length (oversize_image agon)))
            (oversize_image agon) (BUFFER1 agon) 0 (old_firmware agon).

(** ** Memory layout

    Two address ranges of FLASHSIZE bytes that do not meet. *)
Definition apart (cfg : Board) (a b : Z) : bool :=
  (a + FLASHSIZE cfg <=? b) || (b + FLASHSIZE cfg <=? a).

(** The flash and the two staging buffers lie apart from one another. *)
Definition buffers_apart (cfg : Board) : bool :=
  apart cfg (FLASHSTART cfg) (BUFFER1 cfg)
  && apart cfg (FLASHSTART cfg) (BUFFER2 cfg)
  && apart cfg (BUFFER1 cfg) (BUFFER2 cfg).

(** Calls into MOS: file access and keyboard input ([mos_fopen],
    [mos_fread], [mos_fclose], [getch]). *)
Definition is_mos_call (e : event) : bool :=
  match e with
  | EFopen _ _ | EFread _ _ | EFclose | EGetch _ => true
  | _ => false
  end.

(** A copy of the write loop, as an event. *)
Definition copy_event (w : Z * Z * Z) : event :=
  EMemcpy (copy_dst w) (copy_src w) (copy_len w).

(** The countdown of the reset sequence (main.c lines 136-140), from [n]
    down to 1. *)
Fixpoint countdown_events (n : nat) : list event :=
  match n with
  | O => []
  | S n' =>
      EPrintf "\rReset in %ds" [PNum (Z.of_nat n)] :: EDelay 1000
      :: countdown_events n'
  end.

(** A file of seventeen bytes: one more than the flash of the small
    board holds. *)
Definition long_image : list Z := bytes_of "12345678901234567".
(** ** Laws of the monad *)

Section Laws.

Context {HW : Type}.

Lemma bind_run {A B} (m : prog HW A) (k : A -> prog HW B) (h : HW) :
  bind m k h =
  (result_of (k (result_of (m h)) (hw_of (m h))),
   hw_of (k (result_of (m h)) (hw_of (m h))),
   trace_of (m h) ++ trace_of (k (result_of (m h)) (hw_of (m h)))).
Proof.
  unfold bind, result_of, hw_of, trace_of.
  destruct (m h) as [[a h1] t1]; simpl.
  destruct (k a h1) as [[b h2] t2]; reflexivity.
Qed.

Lemma trace_bind {A B} (m : prog HW A) (k : A -> prog HW B) (h : HW) :
  trace_of (bind m k h) =
  trace_of (m h) ++ trace_of (k (result_of (m h)) (hw_of (m h))).
Proof. rewrite bind_run; reflexivity. Qed.

Lemma result_bind {A B} (m : prog HW A) (k : A -> prog HW B) (h : HW) :
  result_of (bind m k h) = result_of (k (result_of (m h)) (hw_of (m h))).
Proof. rewrite bind_run; reflexivity. Qed.

Lemma hw_bind {A B} (m : prog HW A) (k : A -> prog HW B) (h : HW) :
  hw_of (bind m k h) = hw_of (k (result_of (m h)) (hw_of (m h))).
Proof. rewrite bind_run; reflexivity. Qed.

Lemma triple_eta {A} (r : A * HW * list event) :
  r = (result_of r, hw_of r, trace_of r).
Proof. destruct r as [[a h] t]; reflexivity. Qed.

End Laws.

Lemma memcpys_app (a b : list event) : memcpys (a ++ b) = memcpys a ++ memcpys b.
Proof. unfold memcpys; apply flat_map_app. Qed.

Lemma compares_app (a b : list event) :
  compares (a ++ b) = compares a ++ compares b.
Proof. unfold compares; apply filter_app. Qed.

Lemma total_app (a b : list Z) : total (a ++ b) = total a + total b.
Proof. induction a as [|x a IH]; simpl; [reflexivity | rewrite IH; lia]. Qed.

Lemma wrap24_mod (z : Z) : wrap24 z = z mod 2 ^ 24.
Proof. unfold wrap24. apply Z.land_ones. lia. Qed.

Lemma wrap8_mod (z : Z) : wrap8 z = z mod 2 ^ 8.
Proof. unfold wrap8. apply Z.land_ones. lia. Qed.

Lemma wrap32_mod (z : Z) : wrap32 z = z mod 2 ^ 32.
Proof. unfold wrap32. apply Z.land_ones. lia. Qed.

Lemma wrap24_small (z : Z) : 0 <= z < 2 ^ 24 -> wrap24 z = z.
Proof. intros Hz; rewrite wrap24_mod; apply Z.mod_small; exact Hz. Qed.

Lemma wrap8_small (z : Z) : 0 <= z < 2 ^ 8 -> wrap8 z = z.
Proof. intros Hz; rewrite wrap8_mod; apply Z.mod_small; exact Hz. Qed.

Lemma wrap24_range (z : Z) : 0 <= wrap24 z < 2 ^ 24.
Proof. rewrite wrap24_mod; apply Z.mod_pos_bound; reflexivity. Qed.

Lemma wrap32_idem (z : Z) : wrap32 (wrap32 z) = wrap32 z.
Proof. rewrite !wrap32_mod. apply Z.mod_mod. lia. Qed.

Lemma board_ok_inv (cfg : Board) :
  board_ok cfg = true ->
  0 < PAGESIZE cfg /\ 0 <= FLASHPAGES cfg <= 256 /\
  FLASHSIZE cfg = FLASHPAGES cfg * PAGESIZE cfg /\
  FLASHSIZE cfg < 2 ^ 24 /\
  0 <= FLASHSTART cfg /\ FLASHSTART cfg + FLASHSIZE cfg <= 2 ^ 24 /\
  0 <= BUFFER1 cfg /\ BUFFER1 cfg + FLASHSIZE cfg <= 2 ^ 24 /\
  0 <= BUFFER2 cfg /\ BUFFER2 cfg + FLASHSIZE cfg <= 2 ^ 24 /\
  0 < BLOCKSIZE cfg /\ PAGESIZE cfg < 2 ^ 24.
Proof.
  unfold board_ok; intros Hb.
  repeat (apply andb_prop in Hb; destruct Hb as [Hb ?]).
  repeat match goal with
         | H : (_ <? _) = true |- _ => apply Z.ltb_lt in H
         | H : (_ <=? _) = true |- _ => apply Z.leb_le in H
         | H : (_ =? _) = true |- _ => apply Z.eqb_eq in H
         end.
  repeat split; assumption.
Qed.

(** ** The page arithmetic *)

Section PageArithmetic.

Variable cfg : Board.
Hypothesis page_pos : 0 < PAGESIZE cfg.

Lemma page_count_ceil (sz : Z) :
  0 <= sz < 2 ^ 24 ->
  page_count cfg sz = (sz + PAGESIZE cfg - 1) / PAGESIZE cfg.
Proof.
  intros Hsz; unfold page_count.
  pose proof (Z.div_mod sz (PAGESIZE cfg) ltac:(lia)) as Hdm.
  pose proof (Z.mod_pos_bound sz (PAGESIZE cfg) page_pos) as Hm.
  assert (Hq : 0 <= sz / PAGESIZE cfg) by (apply Z.div_pos; lia).
  destruct (Z.eqb_spec (sz mod PAGESIZE cfg) 0) as [E|E].
  - apply Z.div_unique with (r := PAGESIZE cfg - 1); lia.
  - assert (Hp2 : 2 <= PAGESIZE cfg) by lia.
    assert (Hq2 : sz / PAGESIZE cfg + 1 < 2 ^ 24) by nia.
    rewrite wrap24_small by lia.
    apply Z.div_unique with (r := sz mod PAGESIZE cfg - 1); lia.
Qed.

Lemma page_count_range (sz : Z) :
  0 <= sz < 2 ^ 24 -> 0 <= page_count cfg sz < 2 ^ 24.
Proof.
  intros Hsz; unfold page_count.
  pose proof (Z.div_mod sz (PAGESIZE cfg) ltac:(lia)) as Hdm.
  pose proof (Z.mod_pos_bound sz (PAGESIZE cfg) page_pos) as Hm.
  assert (Hq : 0 <= sz / PAGESIZE cfg) by (apply Z.div_pos; lia).
  destruct (Z.eqb_spec (sz mod PAGESIZE cfg) 0) as [E|E].
  - split; [lia | nia].
  - apply wrap24_range.
Qed.

Lemma page_count_bytes (sz : Z) :
  0 <= sz < 2 ^ 24 ->
  sz = (page_count cfg sz - 1) * PAGESIZE cfg + last_page_bytes cfg sz
  \/ (sz = 0 /\ page_count cfg sz = 0).
Proof.
  intros Hsz; unfold page_count, last_page_bytes.
  pose proof (Z.div_mod sz (PAGESIZE cfg) ltac:(lia)) as Hdm.
  pose proof (Z.mod_pos_bound sz (PAGESIZE cfg) page_pos) as Hm.
  assert (Hq : 0 <= sz / PAGESIZE cfg) by (apply Z.div_pos; lia).
  destruct (Z.eqb_spec (sz mod PAGESIZE cfg) 0) as [E|E].
  - left; lia.
  - assert (Hp2 : 2 <= PAGESIZE cfg) by lia.
    assert (Hq2 : sz / PAGESIZE cfg + 1 < 2 ^ 24) by nia.
    rewrite wrap24_small by lia. left; lia.
Qed.

Lemma last_page_bytes_range (sz : Z) :
  0 < last_page_bytes cfg sz <= PAGESIZE cfg.
Proof.
  unfold last_page_bytes.
  pose proof (Z.mod_pos_bound sz (PAGESIZE cfg) page_pos) as Hm.
  destruct (Z.eqb_spec (sz mod PAGESIZE cfg) 0); lia.
Qed.

(** The plan, entry by entry, when nothing wraps. *)
Lemma write_plan_nth (pm lb : Z) :
  0 <= pm < 2 ^ 24 ->
  forall (n : nat) (c to from : Z) (i : nat),
    (i < n)%nat ->
    0 <= c -> c + Z.of_nat n <= pm ->
    0 <= to -> to + (Z.of_nat n - 1) * PAGESIZE cfg < 2 ^ 24 ->
    0 <= from -> from + (Z.of_nat n - 1) * PAGESIZE cfg < 2 ^ 24 ->
    nth i (write_plan cfg n c pm lb to from) (0, 0, 0) =
    (to + Z.of_nat i * PAGESIZE cfg, from + Z.of_nat i * PAGESIZE cfg,
     if c + Z.of_nat i =? pm - 1 then lb else PAGESIZE cfg).
Proof.
  intros Hpm; induction n as [|n IH]; intros c to from i Hi Hc Hcn Hto Hton Hfr Hfrn.
  - lia.
  - cbn [write_plan].
    assert (Hw : wrap24 (pm - 1) = pm - 1) by (apply wrap24_small; lia).
    destruct i as [|i].
    + cbn [nth]. rewrite Hw.
      replace (Z.of_nat 0) with 0 by reflexivity.
      rewrite !Z.mul_0_l, !Z.add_0_r. reflexivity.
    + cbn [nth].
      assert (Hn : (1 <= n)%nat) by lia.
      rewrite (wrap24_small (c + 1)) by lia.
      rewrite (wrap24_small (to + PAGESIZE cfg)) by nia.
      rewrite (wrap24_small (from + PAGESIZE cfg)) by nia.
      rewrite IH by (try lia; nia).
      rewrite Nat2Z.inj_succ.
      replace (c + Z.succ (Z.of_nat i)) with (c + 1 + Z.of_nat i) by lia.
      replace (to + Z.succ (Z.of_nat i) * PAGESIZE cfg)
        with (to + PAGESIZE cfg + Z.of_nat i * PAGESIZE cfg) by lia.
      replace (from + Z.succ (Z.of_nat i) * PAGESIZE cfg)
        with (from + PAGESIZE cfg + Z.of_nat i * PAGESIZE cfg) by lia.
      reflexivity.
Qed.

(** Destination and length of every entry, whatever the source. *)
Lemma write_plan_dst (pm lb : Z) :
  0 <= pm < 2 ^ 24 ->
  forall (n : nat) (c to from : Z) (w : Z * Z * Z),
    In w (write_plan cfg n c pm lb to from) ->
    0 <= c -> c + Z.of_nat n <= pm ->
    0 <= to -> to + (Z.of_nat n - 1) * PAGESIZE cfg < 2 ^ 24 ->
    exists i : nat,
      (i < n)%nat
      /\ copy_dst w = to + Z.of_nat i * PAGESIZE cfg
      /\ copy_len w = if c + Z.of_nat i =? pm - 1 then lb else PAGESIZE cfg.
Proof.
  intros Hpm; induction n as [|n IH]; intros c to from w Hin Hc Hcn Hto Hton.
  - destruct Hin.
  - cbn [write_plan] in Hin. destruct Hin as [<- | Hin].
    + exists 0%nat. unfold copy_dst, copy_len; cbn [fst snd].
      rewrite (wrap24_small (pm - 1)) by lia.
      replace (Z.of_nat 0) with 0 by reflexivity.
      rewrite Z.mul_0_l, !Z.add_0_r.
      split; [lia | split; reflexivity].
    + destruct n as [|n]; [destruct Hin|].
      rewrite (wrap24_small (c + 1)) in Hin by lia.
      rewrite (wrap24_small (to + PAGESIZE cfg)) in Hin by nia.
      apply IH in Hin; try lia; try nia.
      destruct Hin as (i & Hi & Hd & Hl).
      exists (S i). rewrite Hd, Hl, Nat2Z.inj_succ.
      replace (c + Z.succ (Z.of_nat i)) with (c + 1 + Z.of_nat i) by lia.
      split; [lia | split; [lia | reflexivity]].
Qed.

Lemma write_plan_length (n : nat) (c pm lb to from : Z) :
  List.length (write_plan cfg n c pm lb to from) = n.
Proof.
  revert c to from; induction n as [|n IH]; intros; cbn [write_plan List.length];
    [reflexivity | rewrite IH; reflexivity].
Qed.

Lemma write_plan_total (pm lb : Z) :
  0 <= pm < 2 ^ 24 ->
  forall (n : nat) (c to from : Z),
    0 <= c -> c + Z.of_nat n <= pm ->
    total (map copy_len (write_plan cfg n c pm lb to from)) =
    if (c + Z.of_nat n =? pm) && negb (Nat.eqb n 0)
    then (Z.of_nat n - 1) * PAGESIZE cfg + lb
    else Z.of_nat n * PAGESIZE cfg.
Proof.
  intros Hpm; induction n as [|n IH]; intros c to from Hc Hcn.
  - cbn. rewrite andb_false_r. reflexivity.
  - cbn [write_plan map total fold_right copy_len snd].
    fold (total (map copy_len
           (write_plan cfg n (wrap24 (c + 1)) pm lb
              (wrap24 (to + PAGESIZE cfg)) (wrap24 (from + PAGESIZE cfg))))).
    rewrite (wrap24_small (c + 1)) by lia.
    rewrite (wrap24_small (pm - 1)) by lia.
    rewrite IH by lia.
    replace (Nat.eqb (S n) 0) with false by reflexivity.
    rewrite andb_true_r.
    destruct n as [|n].
    + cbn [Nat.eqb negb]. rewrite andb_false_r.
      destruct (Z.eqb_spec c (pm - 1)), (Z.eqb_spec (c + Z.of_nat 1) pm); lia.
    + replace (Nat.eqb (S n) 0) with false by reflexivity.
      cbn [negb]. rewrite andb_true_r.
      destruct (Z.eqb_spec c (pm - 1)); [lia|].
      destruct (Z.eqb_spec (c + 1 + Z.of_nat (S n)) pm),
               (Z.eqb_spec (c + Z.of_nat (S (S n))) pm); lia.
Qed.

End PageArithmetic.

(** ** Traces of the program's loops

    A projection [f] maps every event to the list of what it contributes;
    [flat_map f] of a trace is then computed piece by piece. *)

Section Traces.

Context {HW : Type} `{Hardware HW}.
Variable cfg : Board.
Variable crc32_bytes : list Z -> Z.
Variable strtoll : string -> Z * Z.

Context {X : Type} (f : event -> list X).
Hypothesis f_read : forall r v, f (ERead r v) = [].
Hypothesis f_printf : forall s a, f (EPrintf s a) = [].

Lemma wait_erase_proj (n : nat) (h : HW) :
  flat_map f (trace_of (wait_erase n h)) = [].
Proof.
  revert h; induction n as [|n IH]; intros h; cbn [wait_erase].
  - cbn. rewrite f_read. reflexivity.
  - rewrite trace_bind, flat_map_app, IH. cbn. rewrite f_read. reflexivity.
Qed.

Lemma wait_erase_hw (n : nat) (h : HW) : hw_of (wait_erase n h) = h.
Proof.
  revert h; induction n as [|n IH]; intros h; cbn [wait_erase]; [reflexivity|].
  rewrite hw_bind. apply IH.
Qed.

Lemma wait_uart_proj (n : nat) (h : HW) :
  flat_map f (trace_of (wait_uart n h)) = [].
Proof.
  revert h; induction n as [|n IH]; intros h; cbn [wait_uart].
  - cbn. rewrite f_read. reflexivity.
  - rewrite trace_bind, flat_map_app, IH. cbn. rewrite f_read. reflexivity.
Qed.

Lemma erase_pages_proj (n : nat) (c : Z) (h : HW) :
  flat_map f (trace_of (erase_pages n c h)) =
  flat_map (fun c => f (EWrite FLASH_PAGE (wrap8 c)) ++ f (EWrite FLASH_PGCTL 2))
           (counters n c).
Proof.
  revert c h; induction n as [|n IH]; intros c h; cbn [erase_pages counters].
  - reflexivity.
  - rewrite !trace_bind, !flat_map_app, IH, wait_erase_proj.
    cbn. rewrite !app_nil_r, <- app_assoc. reflexivity.
Qed.

Lemma write_pages_proj (n : nat) (c pm lb to from : Z) (h : HW) :
  flat_map f (trace_of (write_pages cfg n c pm lb to from h)) =
  flat_map (fun w => f (EMemcpy (copy_dst w) (copy_src w) (copy_len w)))
           (write_plan cfg n c pm lb to from).
Proof.
  revert c to from h; induction n as [|n IH]; intros c to from h;
    cbn [write_pages write_plan].
  - reflexivity.
  - rewrite !trace_bind, !flat_map_app, IH.
    cbn [printf emit trace_of snd flat_map]. rewrite f_printf.
    cbn [flat_map copy_dst copy_src copy_len fst snd app].
    destruct (c =? wrap24 (pm - 1)); cbn; rewrite !app_nil_r; reflexivity.
Qed.

Lemma write_pages_result (n : nat) (c pm lb to from : Z) (h : HW) :
  result_of (write_pages cfg n c pm lb to from h) =
  (advance cfg n to, advance cfg n from).
Proof.
  revert c to from h; induction n as [|n IH]; intros c to from h;
    cbn [write_pages advance].
  - reflexivity.
  - rewrite !result_bind, IH. reflexivity.
Qed.

Lemma countdown_proj (n : nat) (h : HW) :
  flat_map f (trace_of (countdown n h)) = concat (repeat (f (EDelay 1000)) n).
Proof.
  revert h; induction n as [|n IH]; intros h; cbn [countdown].
  - reflexivity.
  - rewrite !trace_bind, !flat_map_app, IH.
    cbn [printf emit delayms trace_of snd flat_map]. rewrite f_printf.
    cbn. rewrite app_nil_r. reflexivity.
Qed.

(** The whole pass: unprotect, erase, write, lock. *)
Lemma erase_and_write_proj (sz to from : Z) (h : HW) :
  flat_map f (trace_of (erase_and_write cfg sz to from h)) =
  f EKeyUnlock ++ f (EWrite FLASH_PROT 0) ++
  f EKeyUnlock ++ f (EWrite FLASH_FDIV 95) ++
  flat_map (fun c => f (EWrite FLASH_PAGE (wrap8 c)) ++ f (EWrite FLASH_PGCTL 2))
           (counters (Z.to_nat (FLASHPAGES cfg)) 0) ++
  flat_map (fun w => f (EMemcpy (copy_dst w) (copy_src w) (copy_len w)))
           (write_plan cfg (Z.to_nat (page_count cfg sz)) 0 (page_count cfg sz)
                       (last_page_bytes cfg sz) to from) ++
  f EKeyLock.
Proof.
  unfold erase_and_write, unprotect.
  rewrite !trace_bind, !flat_map_app, erase_pages_proj, write_pages_proj.
  cbn [printf emit update enableFlashKeyRegister lockFlashKeyRegister set_sfr
       ret trace_of snd flat_map].
  rewrite !f_printf. cbn. rewrite !app_nil_r, <- !app_assoc. reflexivity.
Qed.

Lemma erase_and_write_result (sz to from : Z) (h : HW) :
  result_of (erase_and_write cfg sz to from h) =
  (advance cfg (Z.to_nat (page_count cfg sz)) to,
   advance cfg (Z.to_nat (page_count cfg sz)) from).
Proof.
  unfold erase_and_write.
  rewrite !result_bind, write_pages_result. reflexivity.
Qed.

Lemma reset_sequence_proj (h : HW) :
  flat_map f (trace_of (reset_sequence h)) =
  concat (repeat (f (EDelay 1000)) 5) ++
  f (EWrite UART0_THR 12) ++ f (EDelay 500) ++ f EReset.
Proof.
  unfold reset_sequence, putch.
  rewrite !trace_bind, !flat_map_app, countdown_proj, wait_uart_proj.
  cbn [printf emit update delayms set_sfr ret trace_of snd flat_map].
  rewrite !f_printf. cbn. rewrite !app_nil_r. reflexivity.
Qed.

End Traces.

(** ** The programming loop, turn by turn *)

Section Session.

Context {HW : Type} `{Hardware HW}.
Variable cfg : Board.
Variable crc32_bytes : list Z -> Z.

Lemma verify_match (l : locals) (h : HW) :
  flash_crc cfg crc32_bytes (size l) h = expected_of l ->
  verify cfg crc32_bytes l h =
  (inl (with_state l (expected_of l) systemreset), h,
   verify_trace cfg (state l) (size l)
                (flash_crc cfg crc32_bytes (size l) h) (expected_of l)
   ++ [EPrintf msg_ok []]).
Proof.
  intros E. unfold verify, bind, printf, emit, crc32, ret.
  fold (flash_crc cfg crc32_bytes (size l) h). fold (expected_of l).
  apply Z.eqb_eq in E. rewrite E. reflexivity.
Qed.

Lemma verify_differ_firmware (l : locals) (h : HW) :
  state l = firmware ->
  flash_crc cfg crc32_bytes (size l) h <> crcexpected l ->
  verify cfg crc32_bytes l h =
  (inl (with_state l (crcexpected l) recover), h,
   verify_trace cfg firmware (size l)
                (flash_crc cfg crc32_bytes (size l) h) (crcexpected l)
   ++ [EPrintf msg_attempt []]).
Proof.
  intros St E. unfold verify, bind, printf, emit, crc32, ret.
  fold (flash_crc cfg crc32_bytes (size l) h). rewrite St. cbn [states_eqb].
  apply Z.eqb_neq in E. rewrite E. reflexivity.
Qed.

Lemma verify_differ_recover (l : locals) (h : HW) :
  state l = recover ->
  flash_crc cfg crc32_bytes (size l) h <> crcbackup l ->
  verify cfg crc32_bytes l h =
  (inr Halted, h,
   verify_trace cfg recover (size l)
                (flash_crc cfg crc32_bytes (size l) h) (crcbackup l)
   ++ [EPrintf msg_failed []]).
Proof.
  intros St E. unfold verify, bind, printf, emit, crc32, ret.
  fold (flash_crc cfg crc32_bytes (size l) h). rewrite St. cbn [states_eqb].
  apply Z.eqb_neq in E. rewrite E. reflexivity.
Qed.

(** A turn in state [firmware] or [recover] is a pass followed by the
    verification of what the pass left in the flash. *)
Lemma iteration_pass (l : locals) (h : HW) :
  state l <> systemreset ->
  iteration cfg crc32_bytes l h =
  bind (erase_and_write cfg (pass_size cfg l) (addressto l)
                        (pass_source cfg (state l)))
       (fun _ => verify cfg crc32_bytes (after_pass cfg l h)) h.
Proof.
  intros St. unfold iteration.
  destruct (state l) eqn:E; try congruence;
    rewrite !bind_run; unfold after_pass, pass_size, pass_source;
    rewrite E; reflexivity.
Qed.

Lemma iteration_reset (l : locals) (h : HW) :
  state l = systemreset ->
  iteration cfg crc32_bytes l h =
  (inr DeviceReset, hw_of (reset_sequence h), trace_of (reset_sequence h)).
Proof.
  intros St. unfold iteration. rewrite St, bind_run.
  cbn. rewrite app_nil_r. reflexivity.
Qed.

(** The loop runs one of the three courses of [session], in at most three
    turns. *)
Lemma main_loop_session (fuel : nat) (l : locals) (h : HW) :
  state l = firmware ->
  (3 <= fuel)%nat ->
  main_loop cfg crc32_bytes fuel l h = session cfg crc32_bytes l h.
Proof.
  intros St Hfuel.
  destruct fuel as [|[|[|fuel]]]; try lia.
  unfold session.
  cbn [main_loop].
  rewrite bind_run, iteration_pass by congruence.
  rewrite bind_run.
  assert (P1 : erase_and_write cfg (pass_size cfg l) (addressto l)
                 (pass_source cfg (state l)) h = pass1 cfg l h)
    by (unfold pass1, pass_size, pass_source; rewrite St; reflexivity).
  rewrite P1.
  assert (S1 : size (after_pass cfg l h) = size l)
    by (unfold after_pass, pass_size; rewrite St; reflexivity).
  assert (St1 : state (after_pass cfg l h) = firmware) by exact St.
  destruct (Z.eqb_spec (crc1 cfg crc32_bytes l h) (crcexpected l)) as [E1|E1].
  - (* the candidate verifies *)
    rewrite verify_match
      by (unfold expected_of; rewrite St1, S1; exact E1).
    cbn [result_of hw_of trace_of fst snd].
    rewrite bind_run, iteration_reset by reflexivity.
    cbn [result_of hw_of trace_of fst snd ret].
    unfold expected_of. rewrite St1, S1. cbn [states_eqb].
    change (crcexpected (after_pass cfg l h)) with (crcexpected l).
    fold (crc1 cfg crc32_bytes l h).
    rewrite app_nil_r, <- !app_assoc. reflexivity.
  - (* the candidate does not verify: second turn *)
    rewrite verify_differ_firmware
      by (try exact St1; rewrite S1; exact E1).
    cbn [result_of hw_of trace_of fst snd].
    rewrite S1.
    change (crcexpected (after_pass cfg l h)) with (crcexpected l).
    fold (crc1 cfg crc32_bytes l h).
    set (l2 := with_state (after_pass cfg l h) (crcexpected l) recover).
    rewrite bind_run, iteration_pass by (subst l2; cbn; congruence).
    rewrite bind_run.
    assert (P2 : erase_and_write cfg (pass_size cfg l2) (addressto l2)
                   (pass_source cfg (state l2)) (hw_of (pass1 cfg l h))
                 = pass2 cfg l h).
    { unfold pass2, pass_size, pass_source. subst l2. cbn.
      unfold pass_size, pass_source. rewrite St. reflexivity. }
    rewrite P2.
    set (l3 := after_pass cfg l2 (hw_of (pass1 cfg l h))).
    assert (S3 : size l3 = FLASHSIZE cfg) by reflexivity.
    assert (St3 : state l3 = recover) by reflexivity.
    assert (B3 : crcbackup l3 = crcbackup l) by reflexivity.
    destruct (Z.eqb_spec (crc2 cfg crc32_bytes l h) (crcbackup l)) as [E2|E2].
    + rewrite verify_match
        by (unfold expected_of; rewrite St3, S3, B3; exact E2).
      cbn [result_of hw_of trace_of fst snd].
      rewrite bind_run, iteration_reset by reflexivity.
      cbn [result_of hw_of trace_of fst snd ret].
      unfold expected_of. rewrite St3, S3, B3. cbn [states_eqb].
      fold (crc2 cfg crc32_bytes l h).
      rewrite app_nil_r, <- !app_assoc. reflexivity.
    + rewrite verify_differ_recover
        by (try exact St3; rewrite S3, B3; exact E2).
      cbn [result_of hw_of trace_of fst snd ret].
      rewrite S3, B3. fold (crc2 cfg crc32_bytes l h).
      rewrite <- !app_assoc. reflexivity.
Qed.

Lemma backup_and_enter_run (fuel : nat) (crcexp sz : Z) (h : HW) :
  backup_and_enter cfg crc32_bytes fuel crcexp sz h =
  (result_of (main_loop cfg crc32_bytes fuel
                (entry_locals cfg crc32_bytes crcexp sz h) (captured cfg h)),
   hw_of (main_loop cfg crc32_bytes fuel
                (entry_locals cfg crc32_bytes crcexp sz h) (captured cfg h)),
   capture_trace cfg crc32_bytes h ++
   trace_of (main_loop cfg crc32_bytes fuel
                (entry_locals cfg crc32_bytes crcexp sz h) (captured cfg h))).
Proof.
  unfold backup_and_enter.
  rewrite !bind_run. reflexivity.
Qed.

End Session.

(** ** Filters as projections *)

Lemma filter_flat_map {A} (p : A -> bool) (l : list A) :
  filter p l = flat_map (fun e => if p e then [e] else []) l.
Proof.
  induction l as [|x l IH]; cbn; [reflexivity|].
  rewrite IH. destruct (p x); reflexivity.
Qed.

Lemma flat_map_nil {A B} (l : list A) (g : A -> list B) :
  (forall x, g x = []) -> flat_map g l = [].
Proof.
  intros Hg; induction l as [|x l IH]; cbn; [reflexivity|].
  rewrite Hg, IH. reflexivity.
Qed.

Lemma concat_repeat_nil {B} (n : nat) : concat (repeat (@nil B) n) = [].
Proof. induction n; cbn; auto. Qed.

Section PassFilters.

Context {HW : Type} `{Hardware HW}.
Variable cfg : Board.

(** A filter that drops register reads and printf sees nothing of a pass
    but what it keeps of the register writes, key operations and copies. *)
Lemma filter_pass (p : event -> bool) (sz to from : Z) (h : HW) :
  (forall r v, p (ERead r v) = false) ->
  (forall s a, p (EPrintf s a) = false) ->
  p EKeyUnlock = false -> p EKeyLock = false ->
  (forall r v, p (EWrite r v) = false) ->
  (forall d s n, p (EMemcpy d s n) = false) ->
  filter p (trace_of (erase_and_write cfg sz to from h)) = [].
Proof.
  intros Hr Hp Hu Hl Hw Hm.
  rewrite filter_flat_map, erase_and_write_proj
    by (intros; rewrite ?Hr, ?Hp; reflexivity).
  rewrite Hu, Hl, !Hw. cbn [app].
  rewrite !flat_map_nil; [reflexivity | |].
  - intros w. rewrite Hm. reflexivity.
  - intros c. rewrite !Hw. reflexivity.
Qed.

Lemma compares_pass (sz to from : Z) (h : HW) :
  compares (trace_of (erase_and_write cfg sz to from h)) = [].
Proof. apply filter_pass; reflexivity. Qed.

Lemma resets_pass (sz to from : Z) (h : HW) :
  filter is_reset (trace_of (erase_and_write cfg sz to from h)) = [].
Proof. apply filter_pass; reflexivity. Qed.

Lemma filter_reset_sequence (p : event -> bool) (h : HW) :
  (forall r v, p (ERead r v) = false) ->
  (forall s a, p (EPrintf s a) = false) ->
  p (EWrite UART0_THR 12) = false ->
  (forall ms, p (EDelay ms) = false) ->
  filter p (trace_of (reset_sequence h)) = if p EReset then [EReset] else [].
Proof.
  intros Hr Hp Hw Hd.
  rewrite filter_flat_map, reset_sequence_proj
    by (intros; rewrite ?Hr, ?Hp; reflexivity).
  rewrite Hw, !Hd, concat_repeat_nil. reflexivity.
Qed.

End PassFilters.

(** ** Terminal states of the programming state machine *)

Section Terminal.

Context {HW : Type} `{Hardware HW}.
Variable cfg : Board.
Variable crc32_bytes : list Z -> Z.

Lemma session_compares (l : locals) (h : HW) :
  compares (trace_of (session cfg crc32_bytes l h)) =
  if crc1 cfg crc32_bytes l h =? crcexpected l then
    [ECompare firmware (crc1 cfg crc32_bytes l h) (crcexpected l)]
  else
    [ECompare firmware (crc1 cfg crc32_bytes l h) (crcexpected l);
     ECompare recover (crc2 cfg crc32_bytes l h) (crcbackup l)].
Proof.
  unfold session, pass1, pass2.
  destruct (_ =? crcexpected l); [|destruct (_ =? crcbackup l)];
    cbn [trace_of snd]; unfold compares;
    rewrite !filter_app, !filter_pass, ?filter_reset_sequence by reflexivity;
    reflexivity.
Qed.

Lemma session_resets (l : locals) (h : HW) :
  result_of (session cfg crc32_bytes l h) = Halted ->
  filter is_reset (trace_of (session cfg crc32_bytes l h)) = [].
Proof.
  unfold session, pass1, pass2.
  destruct (_ =? crcexpected l); [|destruct (_ =? crcbackup l)];
    cbn [result_of trace_of fst snd]; try discriminate.
  intros _.
  rewrite !filter_app, !filter_pass by reflexivity. reflexivity.
Qed.

(** C2.  From the initial state [firmware] (WriteCandidate) the loop ends,
    within three turns, in [DeviceReset] or in [Halted] and in nothing
    else.  It ends in [Halted] exactly when the trace holds two
    comparisons, the candidate's and then the backup's, and both differ.
    A halted run has not called reset and has not returned. *)
Theorem terminal_states_reset_or_halt
        (fuel : nat) (l : locals) (h : HW) :
  state l = firmware ->
  (3 <= fuel)%nat ->
  let r := main_loop cfg crc32_bytes fuel l h in
  (result_of r = DeviceReset \/ result_of r = Halted)
  /\ (result_of r = Halted <->
      exists c1 c2,
        compares (trace_of r) =
          [ECompare firmware c1 (crcexpected l);
           ECompare recover c2 (crcbackup l)]
        /\ c1 <> crcexpected l /\ c2 <> crcbackup l)
  /\ (result_of r = Halted ->
      filter is_reset (trace_of r) = []
      /\ forall code, result_of r <> Returned code).
Proof.
  intros St Hfuel r. subst r.
  rewrite main_loop_session by assumption.
  pose proof (session_compares l h) as Hc.
  pose proof (session_resets l h) as Hr.
  split; [|split].
  - unfold session.
    destruct (_ =? crcexpected l); [|destruct (_ =? crcbackup l)]; cbn; auto.
  - rewrite Hc. unfold session.
    destruct (Z.eqb_spec (crc1 cfg crc32_bytes l h) (crcexpected l)) as [E1|E1];
      [|destruct (Z.eqb_spec (crc2 cfg crc32_bytes l h) (crcbackup l)) as [E2|E2]];
      cbn [result_of fst]; split; intros Hyp; try discriminate; try reflexivity.
    + destruct Hyp as (c1 & c2 & Hl & _); discriminate.
    + destruct Hyp as (c1 & c2 & Hl & _ & Hne).
      injection Hl as _ Hc2. congruence.
    + exists (crc1 cfg crc32_bytes l h), (crc2 cfg crc32_bytes l h). auto.
  - intros Hh. split; [apply Hr; exact Hh | intros code; rewrite Hh; discriminate].
Qed.

End Terminal.

(** ** The page-write pass *)

Section PagePlan.

Context {HW : Type} `{Hardware HW}.
Variable cfg : Board.

Lemma flat_map_triple (l : list (Z * Z * Z)) :
  flat_map (fun w => [(copy_dst w, copy_src w, copy_len w)]) l = l.
Proof.
  induction l as [|[[d s] n] l IH]; cbn; [reflexivity | rewrite IH; reflexivity].
Qed.

Lemma memcpys_pass (sz to from : Z) (h : HW) :
  memcpys (trace_of (erase_and_write cfg sz to from h)) =
  write_plan cfg (Z.to_nat (page_count cfg sz)) 0 (page_count cfg sz)
             (last_page_bytes cfg sz) to from.
Proof.
  unfold memcpys. rewrite erase_and_write_proj by reflexivity.
  cbn [app]. rewrite flat_map_nil by reflexivity.
  cbn [app]. rewrite app_nil_r. apply flat_map_triple.
Qed.

(** C3.  For an image of at most the device's capacity, the pass performs
    ceil(length / PAGESIZE) copies; copy [i] goes from [from + i*PAGESIZE]
    to [to + i*PAGESIZE], so both addresses grow strictly, by PAGESIZE a
    step; every copy is a full page except the last, which is
    [length mod PAGESIZE] bytes when that is not zero; the lengths add up
    to the image length. *)
Theorem page_writes_cover_image (sz to from : Z) (h : HW) :
  board_ok cfg = true ->
  0 <= sz <= FLASHSIZE cfg ->
  0 <= to -> to + FLASHSIZE cfg <= 2 ^ 24 ->
  0 <= from -> from + FLASHSIZE cfg <= 2 ^ 24 ->
  let ws := memcpys (trace_of (erase_and_write cfg sz to from h)) in
  let n := List.length ws in
  Z.of_nat n = (sz + PAGESIZE cfg - 1) / PAGESIZE cfg
  /\ (forall i, (i < n)%nat ->
        nth i ws (0, 0, 0) =
        (to + Z.of_nat i * PAGESIZE cfg, from + Z.of_nat i * PAGESIZE cfg,
         if Nat.eqb (S i) n
         then (if sz mod PAGESIZE cfg =? 0 then PAGESIZE cfg
               else sz mod PAGESIZE cfg)
         else PAGESIZE cfg))
  /\ (forall i j, (i < j)%nat -> (j < n)%nat ->
        copy_dst (nth i ws (0, 0, 0)) < copy_dst (nth j ws (0, 0, 0))
        /\ copy_src (nth i ws (0, 0, 0)) < copy_src (nth j ws (0, 0, 0)))
  /\ total (map copy_len ws) = sz.
Proof.
  intros Hb Hsz Hto Hto' Hfr Hfr' ws n.
  destruct (board_ok_inv cfg Hb) as (Hp & _ & _ & Hfs & _).
  assert (Hsz24 : 0 <= sz < 2 ^ 24) by lia.
  pose proof (page_count_range cfg Hp sz Hsz24) as Hpc.
  pose proof (page_count_bytes cfg Hp sz Hsz24) as Hbytes.
  pose proof (last_page_bytes_range cfg Hp sz) as Hlast.
  assert (Hws : ws = write_plan cfg (Z.to_nat (page_count cfg sz)) 0
                       (page_count cfg sz) (last_page_bytes cfg sz) to from)
    by apply memcpys_pass.
  assert (Hn : n = Z.to_nat (page_count cfg sz))
    by (subst n; rewrite Hws; apply write_plan_length).
  assert (HnZ : Z.of_nat n = page_count cfg sz) by lia.
  assert (Hnth : forall i, (i < n)%nat ->
            nth i ws (0, 0, 0) =
            (to + Z.of_nat i * PAGESIZE cfg, from + Z.of_nat i * PAGESIZE cfg,
             if 0 + Z.of_nat i =? page_count cfg sz - 1
             then last_page_bytes cfg sz else PAGESIZE cfg)).
  { intros i Hi. rewrite Hws.
    apply write_plan_nth; try lia; rewrite <- Hn; nia. }
  split; [|split; [|split]].
  - rewrite HnZ. apply page_count_ceil; assumption.
  - intros i Hi. rewrite (Hnth i Hi). f_equal.
    unfold last_page_bytes.
    destruct (Nat.eqb_spec (S i) n), (Z.eqb_spec (0 + Z.of_nat i) (page_count cfg sz - 1));
      try reflexivity; lia.
  - intros i j Hij Hj.
    rewrite (Hnth i) by lia. rewrite (Hnth j) by lia.
    unfold copy_dst, copy_src; cbn [fst snd]. nia.
  - rewrite Hws, write_plan_total by lia.
    rewrite <- Hn, HnZ.
    replace (0 + page_count cfg sz =? page_count cfg sz) with true
      by (symmetry; apply Z.eqb_eq; lia).
    destruct (Nat.eqb_spec n 0); cbn [negb andb]; lia.
Qed.

End PagePlan.

(** ** The loader *)

Section Loader.

Context {HW : Type} `{Hardware HW}.
Variable cfg : Board.
Hypothesis block_pos : 0 < BLOCKSIZE cfg.

Lemma wrap24_add_l (a b : Z) : wrap24 (wrap24 a + b) = wrap24 (a + b).
Proof. rewrite !wrap24_mod. apply Zplus_mod_idemp_l. Qed.

Lemma reads_app (a b : list event) : reads (a ++ b) = reads a ++ reads b.
Proof. unfold reads; apply flat_map_app. Qed.

(** With enough fuel the loop ends, and it ends by a read that returns
    nothing: every earlier read returned between 1 and BLOCKSIZE bytes, and
    together they returned the whole file. *)
Lemma load_file_facts (fuel : nat) :
  forall (rest : list Z) (ptr size : Z) (h : HW),
    (List.length rest < fuel)%nat ->
    let r := load_file cfg fuel rest ptr size h in
    (exists ptr',
        result_of r =
        Some (ptr', match rest with
                    | [] => size
                    | _ => wrap24 (size + Z.of_nat (List.length rest))
                    end))
    /\ (exists gs, reads (trace_of r) = gs ++ [0]
                   /\ Forall (fun g => 0 < g <= BLOCKSIZE cfg) gs
                   /\ total gs = Z.of_nat (List.length rest))
    /\ Forall (fun e => is_passive e = true) (trace_of r).
Proof.
  induction fuel as [|fuel IH]; intros rest ptr size h Hlen; [lia|].
  cbn [load_file].
  set (B := Z.to_nat (BLOCKSIZE cfg)).
  assert (HB : (0 < B)%nat) by (subst B; lia).
  destruct rest as [|x rest].
  - (* end of file: the read returns nothing *)
    rewrite firstn_nil. cbn.
    split; [eexists; reflexivity|].
    split; [|repeat constructor].
    exists []. repeat split; constructor.
  - set (chunk := firstn B (x :: rest)).
    set (rest' := skipn B (x :: rest)).
    assert (Hsplit : x :: rest = chunk ++ rest') by (symmetry; apply firstn_skipn).
    assert (Hchunk : (0 < List.length chunk <= B)%nat).
    { subst chunk. rewrite length_firstn. cbn [List.length]. lia. }
    assert (Hlens : List.length (x :: rest)
                    = (List.length chunk + List.length rest')%nat)
      by (rewrite Hsplit at 1; apply length_app).
    assert (Hrest' : (List.length rest' < fuel)%nat)
      by (cbn [List.length] in Hlens, Hlen; lia).
    rewrite bind_run.
    cbn [update result_of hw_of trace_of fst snd].
    replace (0 <? Z.of_nat (List.length chunk)) with true
      by (symmetry; apply Z.ltb_lt; lia).
    rewrite bind_run.
    cbn [printf emit result_of hw_of trace_of fst snd].
    specialize (IH rest' (wrap24 (ptr + Z.of_nat (List.length chunk)))
                   (wrap24 (size + Z.of_nat (List.length chunk)))
                   (load_bytes h ptr chunk) Hrest').
    cbv zeta in IH. destruct IH as ((ptr' & Hres) & (gs & Hg & Hall & Htot) & Hpass).
    split; [|split].
    + exists ptr'. rewrite Hres. f_equal. f_equal.
      destruct rest' as [|y rest'].
      * rewrite Hlens. cbn [List.length]. rewrite Nat.add_0_r. reflexivity.
      * rewrite wrap24_add_l. f_equal. rewrite Hlens. lia.
    + exists (Z.of_nat (List.length chunk) :: gs).
      rewrite !reads_app, Hg.
      split; [reflexivity|]. split.
      * constructor; [subst B; lia | exact Hall].
      * change (total (Z.of_nat (List.length chunk) :: gs))
          with (Z.of_nat (List.length chunk) + total gs).
        rewrite Htot, Hlens. lia.
    + cbn. repeat constructor. exact Hpass.
Qed.

End Loader.

(** ** Before the flash is touched: the gate and the prompt *)

Section Preflight.

Context {HW : Type} `{Hardware HW}.
Variable cfg : Board.
Variable crc32_bytes : list Z -> Z.
Variable strtoll : string -> Z * Z.

Lemma passive_app (a b : list event) : passive a -> passive b -> passive (a ++ b).
Proof. intros Ha Hb; apply Forall_app; split; assumption. Qed.

Lemma passive_filter (p : event -> bool) (t : list event) :
  (forall e, is_passive e = true -> p e = false) ->
  passive t -> filter p t = [].
Proof.
  intros Hp Ht; induction Ht as [|e t He _ IH]; cbn; [reflexivity|].
  rewrite (Hp e He). exact IH.
Qed.

Lemma load_file_passive (fuel : nat) :
  forall (rest : list Z) (ptr size : Z) (h : HW),
    passive (trace_of (load_file cfg fuel rest ptr size h)).
Proof.
  induction fuel as [|fuel IH]; intros rest ptr size h; cbn [load_file].
  - constructor.
  - rewrite bind_run. cbn [update result_of hw_of trace_of fst snd].
    destruct (0 <? _).
    + rewrite bind_run. cbn [printf emit result_of hw_of trace_of fst snd].
      repeat constructor. apply IH.
    + repeat constructor.
Qed.

Lemma check_image_passive (crcexp sz : Z) (h : HW) :
  passive (trace_of (check_image cfg crc32_bytes crcexp sz h))
  /\ hw_of (check_image cfg crc32_bytes crcexp sz h) = h.
Proof.
  unfold check_image, bind, printf, emit, crc32, ret.
  destruct (FLASHSIZE cfg <? sz); [split; [repeat constructor | reflexivity]|].
  destruct (negb _); split; try reflexivity; repeat constructor.
Qed.

(** The gate emits passive events only, and leaves the hardware as it
    found it or as the loader left it. *)
Lemma gate_passive (argv : list string) (fs : string -> option (list Z)) (h : HW) :
  passive (trace_of (gate cfg crc32_bytes strtoll argv fs h))
  /\ (hw_of (gate cfg crc32_bytes strtoll argv fs h) = h
      \/ exists content,
           hw_of (gate cfg crc32_bytes strtoll argv fs h) = staged cfg content h).
Proof.
  unfold gate. rewrite bind_run.
  cbn [printf emit result_of hw_of trace_of fst snd].
  destruct argv as [|a0 [|name [|c [|x argv]]]];
    try (split; [repeat constructor | left; reflexivity]).
  destruct (fs name) as [content|];
    [|split; [repeat constructor | left; reflexivity]].
  rewrite bind_run. cbn [emit result_of hw_of trace_of fst snd].
  destruct (negb _); [split; [repeat constructor | left; reflexivity]|].
  rewrite !bind_run. cbn [printf emit result_of hw_of trace_of fst snd].
  fold (staged cfg content h).
  pose proof (load_file_passive (S (List.length content)) content
                                (BUFFER1 cfg) 0 h) as Hload.
  destruct (result_of (load_file cfg _ content (BUFFER1 cfg) 0 h)) as [[ptr sz]|].
  - rewrite bind_run. cbn [emit result_of hw_of trace_of fst snd].
    destruct (check_image_passive (wrap32 (fst (strtoll c))) sz
                                  (staged cfg content h)) as [Hp Hh].
    split.
    + repeat constructor. apply passive_app; [exact Hload|].
      repeat constructor. exact Hp.
    + right. exists content. exact Hh.
  - split.
    + repeat constructor. apply passive_app; [exact Hload | constructor].
    + right. exists content. reflexivity.
Qed.

(** What the confirmation loop does with its input. *)
Lemma get_response_answer (kbd : list Z) (response : Z) (h : HW) :
  is_answer response = true ->
  get_response kbd response h = (Some (response, kbd), h, []).
Proof.
  unfold is_answer, key_y, key_n. intros Hr.
  destruct kbd; cbn [get_response]; unfold key_y, key_n;
    destruct (response =? 121), (response =? 110); try discriminate; reflexivity.
Qed.

Lemma get_response_found (pre : list Z) (c : Z) (rest : list Z) :
  Forall (fun b => is_answer (wrap8 b) = false) pre ->
  is_answer (wrap8 c) = true ->
  forall (response : Z) (h : HW),
    is_answer response = false ->
    get_response (pre ++ c :: rest) response h =
    (Some (wrap8 c, rest), h, map EGetch (pre ++ [c])).
Proof.
  intros Hpre Hc. induction Hpre as [|b pre Hb _ IH]; intros response h Hr;
    cbn [app get_response]; unfold is_answer in Hr;
    apply orb_false_iff in Hr; destruct Hr as [Hy Hn];
    unfold key_y, key_n; rewrite Hy, Hn; cbn [negb andb];
    rewrite bind_run; cbn [emit result_of hw_of trace_of fst snd].
  - rewrite get_response_answer by exact Hc. reflexivity.
  - rewrite IH by exact Hb. reflexivity.
Qed.

Lemma get_response_exhausted (kbd : list Z) :
  Forall (fun b => is_answer (wrap8 b) = false) kbd ->
  forall (response : Z) (h : HW),
    is_answer response = false ->
    get_response kbd response h = (None, h, map EGetch kbd).
Proof.
  induction 1 as [|b kbd Hb _ IH]; intros response h Hr;
    cbn [get_response]; unfold is_answer in Hr;
    apply orb_false_iff in Hr; destruct Hr as [Hy Hn];
    unfold key_y, key_n; rewrite Hy, Hn; cbn [negb andb].
  - reflexivity.
  - rewrite bind_run; cbn [emit result_of hw_of trace_of fst snd].
    rewrite IH by exact Hb. reflexivity.
Qed.

(** Every input either holds a first answer or none at all. *)
Lemma first_answer (kbd : list Z) :
  Forall (fun b => is_answer (wrap8 b) = false) kbd
  \/ exists pre c rest,
       kbd = pre ++ c :: rest
       /\ Forall (fun b => is_answer (wrap8 b) = false) pre
       /\ is_answer (wrap8 c) = true.
Proof.
  induction kbd as [|b kbd IH].
  - left; constructor.
  - destruct (is_answer (wrap8 b)) eqn:Eb.
    + right. exists [], b, kbd. repeat split; [constructor | exact Eb].
    + destruct IH as [IH | (pre & c & rest & -> & Hpre & Hc)].
      * left; constructor; assumption.
      * right. exists (b :: pre), c, rest.
        repeat split; [constructor; assumption | exact Hc].
Qed.

Lemma passive_getch (l : list Z) : passive (map EGetch l).
Proof. induction l; constructor; [reflexivity | assumption]. Qed.

Lemma other_keys_skip (l : list Z) :
  Forall is_byte l -> Forall other_key l ->
  Forall (fun b => is_answer (wrap8 b) = false) l.
Proof.
  intros Hb Ho. rewrite Forall_forall in *. intros b Hin.
  specialize (Hb b Hin). specialize (Ho b Hin).
  unfold is_byte in Hb. rewrite wrap8_small by (change (2 ^ 8) with 256; lia).
  unfold is_answer, other_key in *.
  destruct (Z.eqb_spec b 121), (Z.eqb_spec b 110); try reflexivity; lia.
Qed.

(** C7.  The prompt is printed once; then bytes are read one at a time.
    A byte other than 'y' (121) and 'n' (110) is dropped and the next one
    is read, so upper-case 'Y' and 'N' are not answers.  If the input
    holds no 'y' or 'n', all of it is read and the program waits for
    more.  Otherwise the bytes up to and including the first 'y' or 'n'
    are read and the rest is left unread; after 'n' the program prints
    the abort message and returns; after 'y' it goes on to the backup and
    the programming loop. *)
Theorem prompt_accepts_y_or_n
        (fuel : nat) (kbd : list Z) (crcexp sz : Z) (h : HW) :
  Forall is_byte kbd ->
  let r := confirm_and_flash cfg crc32_bytes fuel kbd crcexp sz h in
  let flash := backup_and_enter cfg crc32_bytes fuel crcexp sz h in
  (Forall other_key kbd ->
     r = (AwaitKey, h, EPrintf msg_prompt [] :: map EGetch kbd))
  /\ (forall pre c rest,
        kbd = pre ++ c :: rest -> Forall other_key pre ->
        (c = key_y \/ c = key_n ->
           result_of (ask (pre ++ c :: rest) h) = Some (c, rest))
        /\ (c = key_n ->
             r = (Returned 0, h,
                  EPrintf msg_prompt [] :: map EGetch (pre ++ [c])
                  ++ [EPrintf msg_abort []]))
        /\ (c = key_y ->
             r = (result_of flash, hw_of flash,
                  EPrintf msg_prompt [] :: map EGetch (pre ++ [c])
                  ++ trace_of flash))).
Proof.
  intros Hbytes r flash. subst r flash. split.
  - intros Hother.
    unfold confirm_and_flash, ask. rewrite !bind_run.
    rewrite get_response_exhausted
      by (try reflexivity; apply other_keys_skip; assumption).
    cbn [result_of hw_of trace_of fst snd printf emit ret app].
    rewrite app_nil_r. reflexivity.
  - intros pre c rest -> Hpre.
    apply Forall_app in Hbytes. destruct Hbytes as [Hb1 Hb2].
    assert (Hc8 : wrap8 c = c).
    { apply wrap8_small. inversion Hb2 as [|? ? Hc _]; subst.
      unfold is_byte in Hc. change (2 ^ 8) with 256. lia. }
    assert (Hfound : forall h' : HW, is_answer c = true ->
              get_response (pre ++ c :: rest) 0 h' =
              (Some (c, rest), h', map EGetch (pre ++ [c]))).
    { intros h' Hans.
      rewrite (get_response_found pre c rest);
        [rewrite Hc8; reflexivity | apply other_keys_skip; assumption
        | rewrite Hc8; exact Hans | reflexivity]. }
    split; [|split].
    + intros [-> | ->]; unfold ask; rewrite Hfound; reflexivity.
    + intros ->. unfold confirm_and_flash, ask. rewrite !bind_run.
      rewrite Hfound by reflexivity. reflexivity.
    + intros ->. unfold confirm_and_flash, ask. rewrite !bind_run.
      rewrite Hfound by reflexivity.
      cbn [result_of hw_of trace_of fst snd printf emit].
      replace (key_y =? key_y) with true by reflexivity.
      reflexivity.
Qed.

(** The trace of [main] is a passive prefix, followed by nothing or by the
    trace of the backup capture and the programming loop. *)
Lemma main_shape (fuel : nat) (argv : list string)
      (fs : string -> option (list Z)) (kbd : list Z) (h : HW) :
  exists pre post,
    trace_of (main cfg crc32_bytes strtoll fuel argv fs kbd h) = pre ++ post
    /\ passive pre
    /\ (post = []
        \/ exists crcexp sz h',
             post = trace_of (backup_and_enter cfg crc32_bytes fuel crcexp sz h')).
Proof.
  unfold main. rewrite bind_run. cbn [trace_of snd].
  destruct (gate_passive argv fs h) as [Hg _].
  destruct (result_of (gate cfg crc32_bytes strtoll argv fs h)) as [o|[crcexp sz]].
  - exists (trace_of (gate cfg crc32_bytes strtoll argv fs h)), [].
    split; [reflexivity | split; [exact Hg | left; reflexivity]].
  - set (h1 := hw_of (gate cfg crc32_bytes strtoll argv fs h)).
    unfold confirm_and_flash, ask. rewrite !bind_run.
    cbn [printf emit result_of hw_of trace_of fst snd].
    destruct (first_answer kbd) as [Hno | (p & c & rest & -> & Hp & Hc)].
    + rewrite get_response_exhausted by (try reflexivity; exact Hno).
      cbn [result_of hw_of trace_of fst snd ret].
      eexists; exists [].
      split; [rewrite !app_nil_r; reflexivity | split; [|left; reflexivity]].
      apply passive_app; [exact Hg|]. constructor; [reflexivity|].
      apply passive_getch.
    + rewrite get_response_found by (try reflexivity; assumption).
      cbn [result_of hw_of trace_of fst snd].
      destruct (wrap8 c =? key_y).
      * exists (trace_of (gate cfg crc32_bytes strtoll argv fs h)
                ++ EPrintf msg_prompt [] :: map EGetch (p ++ [c])).
        eexists.
        split; [rewrite <- app_assoc; cbn [app]; reflexivity|].
        split; [|right; exists crcexp, sz, h1; reflexivity].
        apply passive_app; [exact Hg|]. constructor; [reflexivity|].
        apply passive_getch.
      * rewrite bind_run. cbn [printf emit result_of hw_of trace_of fst snd ret].
        eexists; exists [].
        split; [rewrite !app_nil_r; reflexivity | split; [|left; reflexivity]].
        apply passive_app; [exact Hg|]. constructor; [reflexivity|].
        apply passive_app; [apply passive_getch | repeat constructor].
Qed.

End Preflight.

(** ** Order of the backup capture *)

Section Ordering.

Context {HW : Type} `{Hardware HW}.
Variable cfg : Board.
Variable crc32_bytes : list Z -> Z.
Variable strtoll : string -> Z * Z.

Lemma split_after_passive (pre : list event) :
  passive pre ->
  forall (post t1 : list event) (e : event) (t2 : list event),
    pre ++ post = t1 ++ e :: t2 ->
    is_passive e = false ->
    exists q, t1 = pre ++ q /\ post = q ++ e :: t2.
Proof.
  induction 1 as [|x pre Hx _ IH]; intros post t1 e t2 Heq He.
  - exists t1. split; [reflexivity | exact Heq].
  - destruct t1 as [|y t1]; cbn [app] in Heq; injection Heq as Hxy Heq.
    + subst x. congruence.
    + subst y. destruct (IH post t1 e t2 Heq He) as (q & -> & ->).
      exists q. split; reflexivity.
Qed.

(** C4.  In every run of [main], whatever the arguments, the file, the
    keys and the device: an erase start (a write to FLASH_PGCTL) or the
    call of [di()] is preceded by the copy of FLASHSIZE bytes from the
    start of the flash into the backup buffer and, after that copy, by
    the computation of the checksum of those FLASHSIZE bytes. *)
Theorem backup_precedes_erase_and_di
        (fuel : nat) (argv : list string) (fs : string -> option (list Z))
        (kbd : list Z) (h : HW) (t1 : list event) (e : event) (t2 : list event) :
  FLASHSTART cfg = 0 ->
  trace_of (main cfg crc32_bytes strtoll fuel argv fs kbd h) = t1 ++ e :: t2 ->
  is_erase e = true \/ is_di e = true ->
  exists a b c crcb,
    t1 = a ++ EMemcpy (BUFFER2 cfg) (FLASHSTART cfg) (FLASHSIZE cfg)
           :: b ++ ECrc32 (FLASHSTART cfg) (FLASHSIZE cfg) crcb :: c.
Proof.
  intros Hstart Htrace Hcrit.
  assert (He : is_passive e = false)
    by (destruct Hcrit as [Hc|Hc]; destruct e as [| | | | | | | | | |[] ?| | | |];
        cbn in Hc |- *; congruence).
  destruct (main_shape cfg crc32_bytes strtoll fuel argv fs kbd h)
    as (pre & post & Hshape & Hpre & Hpost).
  rewrite Hshape in Htrace.
  destruct (split_after_passive pre Hpre post t1 e t2 Htrace He) as (q & -> & Hq).
  destruct Hpost as [-> | (crcexp & sz & h' & ->)].
  - destruct q; discriminate.
  - rewrite backup_and_enter_run in Hq. cbn [trace_of snd] in Hq.
    unfold capture_trace in Hq. rewrite Hstart.
    destruct q as [|x1 [|x2 [|x3 q]]]; cbn [app] in Hq.
    + injection Hq as <- _. destruct Hcrit; discriminate.
    + injection Hq as _ <- _. destruct Hcrit; discriminate.
    + injection Hq as _ _ <- _. destruct Hcrit; discriminate.
    + injection Hq as <- <- <- _.
      exists (pre ++ [EPrintf "\r\nBacking up existing firmware... " []]), [], q,
             (backup_crc cfg crc32_bytes h').
      rewrite <- app_assoc. reflexivity.
Qed.

(** ** Verification *)

Lemma iteration_keeps_backup (l : locals) (h : HW) (l' : locals) :
  result_of (iteration cfg crc32_bytes l h) = inl l' ->
  crcbackup l' = crcbackup l.
Proof.
  destruct (states_eqb (state l) systemreset) eqn:St.
  - destruct (state l) eqn:E; try discriminate.
    rewrite iteration_reset by exact E. discriminate.
  - rewrite iteration_pass by (intros E; rewrite E in St; discriminate).
    rewrite result_bind.
    unfold verify, bind, printf, emit, crc32, ret, result_of.
    cbn [fst snd].
    destruct (_ =? _).
    + intros [= <-]. reflexivity.
    + change (state (after_pass cfg l h)) with (state l).
      destruct (state l); intros [= <-]; reflexivity.
Qed.

Lemma checks_pass (sz to from : Z) (h : HW) :
  filter is_check (trace_of (erase_and_write cfg sz to from h)) = [].
Proof. apply filter_pass; reflexivity. Qed.

Lemma session_checks (l : locals) (h : HW) :
  filter is_check (trace_of (session cfg crc32_bytes l h)) =
  ECrc32 (FLASHSTART cfg) (size l) (crc1 cfg crc32_bytes l h)
  :: ECompare firmware (crc1 cfg crc32_bytes l h) (crcexpected l)
  :: (if crc1 cfg crc32_bytes l h =? crcexpected l then []
      else [ECrc32 (FLASHSTART cfg) (FLASHSIZE cfg) (crc2 cfg crc32_bytes l h);
            ECompare recover (crc2 cfg crc32_bytes l h) (crcbackup l)]).
Proof.
  unfold session, pass1, pass2.
  destruct (_ =? crcexpected l); [|destruct (_ =? crcbackup l)];
    cbn [trace_of snd];
    rewrite !filter_app, !filter_pass, ?filter_reset_sequence by reflexivity;
    reflexivity.
Qed.

(** The checksum computations and comparisons of a session, in order:
    the backup checksum at capture; after the candidate pass, the
    checksum of the flash from its start over the candidate's length,
    computed on the hardware as that pass left it and compared with the
    expected checksum the session was given; and, if these differ, after
    the backup pass, the checksum of FLASHSIZE bytes from the start of
    the flash, computed on the hardware as the backup pass left it and
    compared with the checksum taken at capture.  No turn of the loop
    changes [crcbackup]. *)
Theorem verification_recomputes_checksum
        (fuel : nat) (crcexp sz : Z) (h : HW) :
  (3 <= fuel)%nat ->
  let p1 := erase_and_write cfg sz (FLASHSTART cfg) (BUFFER1 cfg) (captured cfg h) in
  let c1 := wrap32 (crc32_bytes (read_range (hw_of p1) (FLASHSTART cfg) sz)) in
  let p2 := erase_and_write cfg (FLASHSIZE cfg) (fst (result_of p1)) (BUFFER2 cfg)
                            (hw_of p1) in
  let c2 := wrap32 (crc32_bytes
                      (read_range (hw_of p2) (FLASHSTART cfg) (FLASHSIZE cfg))) in
  let cb := wrap32 (crc32_bytes (read_range (captured cfg h) 0 (FLASHSIZE cfg))) in
  filter is_check (trace_of (backup_and_enter cfg crc32_bytes fuel crcexp sz h)) =
    ECrc32 0 (FLASHSIZE cfg) cb
    :: ECrc32 (FLASHSTART cfg) sz c1
    :: ECompare firmware c1 crcexp
    :: (if c1 =? crcexp then []
        else [ECrc32 (FLASHSTART cfg) (FLASHSIZE cfg) c2;
              ECompare recover c2 cb])
  /\ (forall (l : locals) (h' : HW) (l' : locals),
        result_of (iteration cfg crc32_bytes l h') = inl l' ->
        crcbackup l' = crcbackup l).
Proof.
  intros Hfuel p1 c1 p2 c2 cb. split.
  - rewrite backup_and_enter_run. cbn [trace_of snd].
    rewrite main_loop_session by (try reflexivity; exact Hfuel).
    rewrite filter_app, session_checks. reflexivity.
  - apply iteration_keeps_backup.
Qed.

End Ordering.

(** ** The memory of the fault-free device *)

Lemma key_eq (a b : Z) : key a = key b <-> wrap24 a = wrap24 b.
Proof.
  unfold key. pose proof (wrap24_range a). pose proof (wrap24_range b).
  split; intros E.
  - apply Z2Pos.inj in E; lia.
  - rewrite E. reflexivity.
Qed.

Lemma mem_poke (h : ideal) (a v b : Z) :
  mem (poke h a v) b = if wrap24 b =? wrap24 a then v else mem h b.
Proof.
  unfold mem, poke; cbn [cells rom].
  destruct (Z.eqb_spec (wrap24 b) (wrap24 a)) as [E|E].
  - apply key_eq in E. rewrite E, PositiveMap.gss. reflexivity.
  - rewrite PositiveMap.gso; [reflexivity|].
    intros K. apply key_eq in K. contradiction.
Qed.

Lemma wrap24_sub_zero (a b : Z) : wrap24 (b - a) = 0 <-> wrap24 b = wrap24 a.
Proof.
  rewrite !wrap24_mod. split; intros E.
  - apply Z.mod_divide in E; [|lia]. destruct E as [k Hk].
    replace b with (a + k * 2 ^ 24) by lia. apply Z_mod_plus_full.
  - rewrite Zminus_mod, E, Z.sub_diag. reflexivity.
Qed.

Lemma wrap24_pred (a b : Z) :
  wrap24 (b - (a + 1)) =
  if wrap24 (b - a) =? 0 then 2 ^ 24 - 1 else wrap24 (b - a) - 1.
Proof.
  pose proof (wrap24_range (b - a)) as Hr.
  replace (b - (a + 1)) with (b - a - 1) by lia.
  assert (E : wrap24 (b - a - 1) = (wrap24 (b - a) - 1) mod 2 ^ 24).
  { rewrite (wrap24_mod (b - a - 1)), <- Zminus_mod_idemp_l.
    rewrite <- (wrap24_mod (b - a)). reflexivity. }
  rewrite E.
  destruct (Z.eqb_spec (wrap24 (b - a)) 0) as [E0|E0].
  - rewrite E0. reflexivity.
  - apply Z.mod_small. lia.
Qed.

(** The store of a byte leaves the page register alone. *)
Lemma page_sel_fill (n : nat) : forall (h : ideal) (a v : Z),
  page_sel (fill h a n v) = page_sel h.
Proof.
  induction n as [|n IH]; intros h a v; cbn [fill]; [reflexivity|].
  rewrite IH. reflexivity.
Qed.

Lemma page_sel_store (l : list Z) : forall (h : ideal) (a : Z),
  page_sel (store h a l) = page_sel h.
Proof.
  induction l as [|v l IH]; intros h a; cbn [store]; [reflexivity|].
  rewrite IH. reflexivity.
Qed.

(** What a fill changes and what it leaves. *)
Lemma mem_fill (n : nat) : forall (h : ideal) (a v b : Z),
  Z.of_nat n <= 2 ^ 24 ->
  mem (fill h a n v) b = if in_range a (Z.of_nat n) b then v else mem h b.
Proof.
  unfold in_range.
  induction n as [|n IH]; intros h a v b Hn; cbn [fill].
  - pose proof (wrap24_range (b - a)).
    replace (wrap24 (b - a) <? Z.of_nat 0) with false
      by (symmetry; apply Z.ltb_ge; lia).
    reflexivity.
  - rewrite IH by lia. rewrite wrap24_pred, mem_poke.
    pose proof (wrap24_range (b - a)) as Hr.
    pose proof (wrap24_sub_zero a b) as Hz.
    destruct (Z.eqb_spec (wrap24 (b - a)) 0) as [E|E].
    + replace (2 ^ 24 - 1 <? Z.of_nat n) with false
        by (symmetry; apply Z.ltb_ge; lia).
      replace (wrap24 b =? wrap24 a) with true
        by (symmetry; apply Z.eqb_eq; apply Hz; exact E).
      replace (wrap24 (b - a) <? Z.of_nat (S n)) with true
        by (symmetry; apply Z.ltb_lt; lia).
      reflexivity.
    + replace (wrap24 b =? wrap24 a) with false
        by (symmetry; apply Z.eqb_neq; intros K; apply E, Hz; exact K).
      destruct (Z.ltb_spec (wrap24 (b - a) - 1) (Z.of_nat n)),
               (Z.ltb_spec (wrap24 (b - a)) (Z.of_nat (S n)));
        try reflexivity; lia.
Qed.

(** A store leaves every address outside its range as it was. *)
Lemma mem_store_outside (l : list Z) : forall (h : ideal) (a b : Z),
  Z.of_nat (List.length l) <= 2 ^ 24 ->
  in_range a (Z.of_nat (List.length l)) b = false ->
  mem (store h a l) b = mem h b.
Proof.
  unfold in_range.
  induction l as [|v l IH]; intros h a b Hn Hout; cbn [store]; [reflexivity|].
  cbn [List.length] in Hn, Hout.
  apply Z.ltb_ge in Hout.
  pose proof (wrap24_range (b - a)) as Hr.
  pose proof (wrap24_sub_zero a b) as Hz.
  rewrite IH.
  - rewrite mem_poke.
    replace (wrap24 b =? wrap24 a) with false; [reflexivity|].
    symmetry; apply Z.eqb_neq; intros K. apply Hz in K. lia.
  - lia.
  - rewrite wrap24_pred. apply Z.ltb_ge.
    destruct (Z.eqb_spec (wrap24 (b - a)) 0); lia.
Qed.

Lemma fetch_length (n : nat) : forall (h : ideal) (a : Z),
  List.length (fetch h n a) = n.
Proof.
  induction n as [|n IH]; intros h a; cbn [fetch List.length];
    [reflexivity | rewrite IH; reflexivity].
Qed.

Lemma mem_copy_outside (h : ideal) (dst src len b : Z) :
  0 <= len <= 2 ^ 24 ->
  in_range dst len b = false ->
  mem (ideal_copy h dst src len) b = mem h b.
Proof.
  intros Hlen Hout. unfold ideal_copy.
  apply mem_store_outside; rewrite fetch_length, Z2Nat.id by lia;
    [lia | exact Hout].
Qed.

(** ** A pass on the fault-free device *)

Section IdealPass.

Variable cfg : Board.
Hypothesis cfg_ok : board_ok cfg = true.

Lemma ideal_erase_pages (n : nat) :
  forall (c : Z) (h : ideal) (b : Z),
    0 <= c -> c + Z.of_nat n <= 256 ->
    mem h b = 255
    \/ (exists p, c <= p < c + Z.of_nat n
                  /\ in_range (FLASHSTART cfg + p * PAGESIZE cfg)
                              (PAGESIZE cfg) b = true) ->
    mem (hw_of (erase_pages (H := ideal_hw cfg) n c h)) b = 255.
Proof.
  destruct (board_ok_inv cfg cfg_ok)
    as (Hp & _ & _ & _ & _ & _ & _ & _ & _ & _ & _ & Hp24).
  induction n as [|n IH]; intros c h b Hc Hcn Hb.
  - destruct Hb as [Hb | (p & Hp' & _)]; [exact Hb | lia].
  - cbn [erase_pages]. rewrite !hw_bind. rewrite wait_erase_hw.
    cbn [set_sfr update hw_of result_of fst snd sfr_write ideal_hw].
    rewrite (wrap8_small c) by (change (2 ^ 8) with 256; lia).
    rewrite (wrap24_small (c + 1)) by lia.
    change (wrap8 2) with 2.
    cbn [ideal_sfr_write Z.testbit Pos.testbit Z.to_N N.pred Pos.pred_N].
    change (Z.testbit 2 1) with true. cbv iota.
    apply IH; try lia.
    unfold ideal_erase; cbn [page_sel cells rom].
    destruct (in_range (FLASHSTART cfg + c * PAGESIZE cfg) (PAGESIZE cfg) b) eqn:Ein.
    + left. rewrite mem_fill, Z2Nat.id, Ein by (rewrite ?Z2Nat.id; lia).
      reflexivity.
    + destruct Hb as [Hb | (p & Hp' & Hin)].
      * left. rewrite mem_fill, Z2Nat.id, Ein by (rewrite ?Z2Nat.id; lia).
        exact Hb.
      * right. exists p. split; [|exact Hin].
        assert (p <> c) by (intros ->; congruence). lia.
Qed.

(** Every byte of the flash lies in one of its pages. *)
Lemma flash_covered (off : Z) :
  0 <= off < FLASHSIZE cfg ->
  exists p, 0 <= p < 0 + Z.of_nat (Z.to_nat (FLASHPAGES cfg))
            /\ in_range (FLASHSTART cfg + p * PAGESIZE cfg) (PAGESIZE cfg)
                        (FLASHSTART cfg + off) = true.
Proof.
  destruct (board_ok_inv cfg cfg_ok) as (Hp & Hpages & Hfs & Hfs24 & _).
  intros Hoff. exists (off / PAGESIZE cfg).
  pose proof (Z.div_mod off (PAGESIZE cfg) ltac:(lia)) as Hdm.
  pose proof (Z.mod_pos_bound off (PAGESIZE cfg) Hp) as Hm.
  assert (Hq : 0 <= off / PAGESIZE cfg) by (apply Z.div_pos; lia).
  split.
  - rewrite Z2Nat.id by lia. split; [lia|].
    apply Z.div_lt_upper_bound; lia.
  - unfold in_range.
    replace (FLASHSTART cfg + off
             - (FLASHSTART cfg + off / PAGESIZE cfg * PAGESIZE cfg))
      with (off mod PAGESIZE cfg) by lia.
    rewrite wrap24_small by lia. apply Z.ltb_lt. lia.
Qed.

Lemma ideal_write_pages_outside (n : nat) (pm lb b : Z) :
  0 <= lb <= 2 ^ 24 ->
  forall (c to from : Z) (h : ideal),
    (forall w, In w (write_plan cfg n c pm lb to from) ->
               in_range (copy_dst w) (copy_len w) b = false) ->
    mem (hw_of (write_pages (H := ideal_hw cfg) cfg n c pm lb to from h)) b
    = mem h b.
Proof.
  destruct (board_ok_inv cfg cfg_ok)
    as (Hp & _ & _ & _ & _ & _ & _ & _ & _ & _ & _ & Hp24).
  intros Hlb. induction n as [|n IH]; intros c to from h Hout;
    cbn [write_pages]; [reflexivity|].
  rewrite !hw_bind.
  cbn [write_plan] in Hout.
  rewrite IH by (intros w Hw; apply Hout; right; exact Hw).
  specialize (Hout _ (or_introl eq_refl)).
  unfold copy_dst, copy_len in Hout; cbn [fst snd] in Hout.
  cbn [printf emit hw_of fst snd].
  destruct (c =? wrap24 (pm - 1));
    cbn [fastmemcpy update hw_of fst snd copy_bytes ideal_hw];
    apply mem_copy_outside; try exact Hout; lia.
Qed.

(** After a pass that writes [sz] bytes from the start of the flash, the
    flash reads 0xFF from offset [sz] on. *)
Lemma ideal_pass_tail (sz from : Z) (h : ideal) (off : Z) :
  0 <= sz <= FLASHSIZE cfg ->
  sz <= off < FLASHSIZE cfg ->
  mem (hw_of (erase_and_write (H := ideal_hw cfg) cfg sz (FLASHSTART cfg) from h))
      (FLASHSTART cfg + off) = 255.
Proof.
  destruct (board_ok_inv cfg cfg_ok)
    as (Hp & Hpages & Hfs & Hfs24 & Hst & Hst' & _ & _ & _ & _ & _ & Hp24).
  intros Hsz Hoff.
  assert (Hsz24 : 0 <= sz < 2 ^ 24) by lia.
  pose proof (page_count_range cfg Hp sz Hsz24) as Hpc.
  pose proof (page_count_bytes cfg Hp sz Hsz24) as Hbytes.
  pose proof (last_page_bytes_range cfg Hp sz) as Hlast.
  unfold erase_and_write, unprotect. rewrite !hw_bind.
  cbn [lockFlashKeyRegister printf emit update hw_of result_of fst snd
       key_lock ideal_hw ret].
  rewrite ideal_write_pages_outside.
  - apply ideal_erase_pages; [lia | rewrite Z2Nat.id; lia |].
    right. apply flash_covered. lia.
  - lia.
  - intros w Hw.
    destruct (Z.eq_dec (page_count cfg sz) 0) as [Hpc0|Hpc0];
      [rewrite Hpc0 in Hw; destruct Hw|].
    destruct Hbytes as [Hbytes | [_ Hz]]; [|contradiction].
    assert (Hpc1 : 1 <= page_count cfg sz) by lia.
    assert (Hn : Z.of_nat (Z.to_nat (page_count cfg sz)) = page_count cfg sz)
      by (apply Z2Nat.id; lia).
    destruct (write_plan_dst cfg Hp _ (last_page_bytes cfg sz) Hpc _ _ _ _ _ Hw)
      as (i & Hi & -> & ->); try lia.
    unfold in_range.
    replace (FLASHSTART cfg + off - (FLASHSTART cfg + Z.of_nat i * PAGESIZE cfg))
      with (off - Z.of_nat i * PAGESIZE cfg) by lia.
    apply Z.ltb_ge.
    assert (Hi' : Z.of_nat i <= page_count cfg sz - 1) by lia.
    assert (Hlo : Z.of_nat i * PAGESIZE cfg <= (page_count cfg sz - 1) * PAGESIZE cfg)
      by (apply Z.mul_le_mono_nonneg_r; lia).
    rewrite wrap24_small by lia.
    destruct (Z.eqb_spec (0 + Z.of_nat i) (page_count cfg sz - 1)) as [E|E].
    + replace (Z.of_nat i) with (page_count cfg sz - 1) by lia. lia.
    + assert (Hi2 : Z.of_nat i + 1 <= page_count cfg sz - 1) by lia.
      assert (Hlo2 : (Z.of_nat i + 1) * PAGESIZE cfg
                     <= (page_count cfg sz - 1) * PAGESIZE cfg)
        by (apply Z.mul_le_mono_nonneg_r; lia).
      lia.
Qed.

(** The reset sequence stores nothing. *)
Lemma countdown_hw {HW : Type} `{Hardware HW} (n : nat) (h : HW) :
  hw_of (countdown n h) = h.
Proof.
  revert h; induction n as [|n IH]; intros h; cbn [countdown]; [reflexivity|].
  rewrite !hw_bind. apply IH.
Qed.

Lemma wait_uart_hw {HW : Type} `{Hardware HW} (n : nat) (h : HW) :
  hw_of (wait_uart n h) = h.
Proof.
  revert h; induction n as [|n IH]; intros h; cbn [wait_uart]; [reflexivity|].
  rewrite hw_bind. apply IH.
Qed.

Lemma ideal_reset_sequence (h : ideal) :
  hw_of (reset_sequence (H := ideal_hw cfg) h) = h.
Proof.
  unfold reset_sequence, putch. rewrite !hw_bind.
  cbn [emit delayms ret hw_of fst snd].
  cbn [set_sfr update hw_of fst snd sfr_write ideal_hw ideal_sfr_write].
  rewrite (wait_uart_hw (H := ideal_hw cfg)). cbn [printf emit hw_of fst snd].
  rewrite (countdown_hw (H := ideal_hw cfg)). reflexivity.
Qed.

End IdealPass.

(** ** The gate, case by case *)

Section Gate.

Context {HW : Type} `{Hardware HW}.
Variable cfg : Board.
Variable crc32_bytes : list Z -> Z.
Variable strtoll : string -> Z * Z.

Lemma check_image_large (crcexp sz : Z) (h : HW) :
  FLASHSIZE cfg < sz ->
  check_image cfg crc32_bytes crcexp sz h =
  (inl (Returned 0), h,
   [EPrintf "\rFile size    : %d byte(s)\n\r" [PNum sz]; EPrintf msg_large []]).
Proof.
  intros Hsz. unfold check_image, bind, printf, emit, ret.
  apply Z.ltb_lt in Hsz. rewrite Hsz. reflexivity.
Qed.

Lemma check_image_mismatch (crcexp sz : Z) (h : HW) :
  sz <= FLASHSIZE cfg ->
  crcexp <> staged_crc_of cfg crc32_bytes sz h ->
  check_image cfg crc32_bytes crcexp sz h =
  (inl (Returned 0), h,
   [EPrintf "\rFile size    : %d byte(s)\n\r" [PNum sz];
    EPrintf "Testing CRC32: 0x%08lx\n\r" [PNum crcexp];
    ECrc32 (BUFFER1 cfg) sz (staged_crc_of cfg crc32_bytes sz h);
    EPrintf "CRC32 result : 0x%08lx\n\r" [PNum (staged_crc_of cfg crc32_bytes sz h)];
    EPrintf msg_mismatch []]).
Proof.
  intros Hsz Hcrc. unfold check_image, bind, printf, emit, crc32, ret.
  unfold staged_crc_of in *.
  replace (FLASHSIZE cfg <? sz) with false by (symmetry; apply Z.ltb_ge; lia).
  apply Z.eqb_neq in Hcrc. rewrite Hcrc. reflexivity.
Qed.

Lemma check_image_pass (crcexp sz : Z) (h : HW) :
  sz <= FLASHSIZE cfg ->
  crcexp = staged_crc_of cfg crc32_bytes sz h ->
  check_image cfg crc32_bytes crcexp sz h =
  (inr (crcexp, sz), h,
   [EPrintf "\rFile size    : %d byte(s)\n\r" [PNum sz];
    EPrintf "Testing CRC32: 0x%08lx\n\r" [PNum crcexp];
    ECrc32 (BUFFER1 cfg) sz (staged_crc_of cfg crc32_bytes sz h);
    EPrintf "CRC32 result : 0x%08lx\n\r" [PNum (staged_crc_of cfg crc32_bytes sz h)];
    EPrintf "\n\rOK\n\r\n\r" []]).
Proof.
  intros Hsz Hcrc. unfold check_image, bind, printf, emit, crc32, ret.
  unfold staged_crc_of in *.
  replace (FLASHSIZE cfg <? sz) with false by (symmetry; apply Z.ltb_ge; lia).
  apply Z.eqb_eq in Hcrc. rewrite Hcrc. reflexivity.
Qed.

(** With three arguments, a file that opens and a checksum that parses,
    the gate loads the whole file and then checks the image. *)
Lemma gate_loaded (a0 name c : string) (fs : string -> option (list Z))
      (content : list Z) (h : HW) :
  0 < BLOCKSIZE cfg ->
  fs name = Some content ->
  snd (strtoll c) = 0 ->
  let load := load_file cfg (S (List.length content)) content (BUFFER1 cfg) 0 h in
  let chk := check_image cfg crc32_bytes (wrap32 (fst (strtoll c)))
                         (loaded_size content) (staged cfg content h) in
  gate cfg crc32_bytes strtoll [a0; name; c] fs h =
  (result_of chk, hw_of chk,
   [EPrintf "Agon MOS firmware upgrade utility v1.3\n\r\n\r" [];
    EFopen name 1;
    EPrintf "Loading file : %s\n\r" [PStr name];
    EPrintf "File size    : %d byte(s)" [PNum 0]]
   ++ trace_of load ++ [EFclose] ++ trace_of chk).
Proof.
  intros HB Hfs Herr load chk. subst load chk.
  unfold gate. rewrite bind_run.
  cbn [printf emit result_of hw_of trace_of fst snd].
  rewrite Hfs, bind_run. cbn [emit result_of hw_of trace_of fst snd].
  rewrite Herr. cbn [Z.eqb negb].
  rewrite !bind_run. cbn [printf emit result_of hw_of trace_of fst snd].
  fold (staged cfg content h).
  destruct (load_file_facts cfg HB (S (List.length content)) content
                            (BUFFER1 cfg) 0 h (Nat.lt_succ_diag_r _))
    as ((ptr' & Hres) & _).
  rewrite Hres.
  assert (Hsz : match content with
                | [] => 0
                | _ :: _ => wrap24 (0 + Z.of_nat (List.length content))
                end = loaded_size content)
    by (unfold loaded_size; destruct content; reflexivity).
  rewrite Hsz, bind_run. cbn [emit result_of hw_of trace_of fst snd].
  reflexivity.
Qed.

End Gate.

(** ** Pre-flight failures *)

Section Failures.

Context {HW : Type} `{Hardware HW}.
Variable cfg : Board.
Variable crc32_bytes : list Z -> Z.
Variable strtoll : string -> Z * Z.
Hypothesis block_pos : 0 < BLOCKSIZE cfg.




Lemma gate_staged (argv : list string) (fs : string -> option (list Z))
      (name c : string) (content : list Z) (h : HW) :
  image_staged cfg strtoll argv fs name c content ->
  let sz := loaded_size content in
  let chk := check_image cfg crc32_bytes (wrap32 (fst (strtoll c))) sz
                         (staged cfg content h) in
  result_of (gate cfg crc32_bytes strtoll argv fs h) = result_of chk
  /\ hw_of (gate cfg crc32_bytes strtoll argv fs h) = staged cfg content h
  /\ exists t, trace_of (gate cfg crc32_bytes strtoll argv fs h)
               = t ++ trace_of chk.
Proof.
  intros ((a0 & ->) & Hfs & Herr & Hsz) sz chk. subst sz chk.
  rewrite (gate_loaded cfg crc32_bytes strtoll a0 name c fs content h
                       block_pos Hfs Herr).
  cbn [result_of hw_of trace_of fst snd].
  split; [reflexivity|]. split.
  - apply check_image_passive.
  - eexists. rewrite !app_assoc. reflexivity.
Qed.


End Failures.

(** ** What the loader stores *)

Section LoaderBound.

Context {HW : Type} `{Hardware HW}.
Variable cfg : Board.
Variable crc32_bytes : list Z -> Z.
Variable strtoll : string -> Z * Z.

(** C8, as amended.  The load loop ends for every file, and only by a
    read that returns no bytes: every earlier read returned between 1 and
    BLOCKSIZE bytes.  The bytes stored are as many as the file holds,
    whatever the capacity of the staging buffer, and [size] ends as the
    file's length modulo 2^24.  A file for which that value exceeds
    FLASHSIZE (every file longer than FLASHSIZE and shorter than 2^24
    bytes is one) is turned down after it has been loaded, by the size
    test: the gate reports it and returns 0. *)
Theorem load_stops_only_at_end_of_file (content : list Z) (h : HW) :
  0 < BLOCKSIZE cfg ->
  let r := load_file cfg (S (List.length content)) content (BUFFER1 cfg) 0 h in
  (exists ptr, result_of r = Some (ptr, wrap24 (Z.of_nat (List.length content))))
  /\ (exists gs, reads (trace_of r) = gs ++ [0]
                 /\ Forall (fun g => 0 < g <= BLOCKSIZE cfg) gs)
  /\ bytes_loaded (trace_of r) = Z.of_nat (List.length content)
  /\ (forall (a0 name c : string) (fs : string -> option (list Z)),
        fs name = Some content ->
        snd (strtoll c) = 0 ->
        FLASHSIZE cfg < wrap24 (Z.of_nat (List.length content)) ->
        let g := gate cfg crc32_bytes strtoll [a0; name; c] fs h in
        result_of g = inl (Returned 0)
        /\ In (EPrintf msg_large []) (trace_of g)
        /\ filter is_flash_op (trace_of g) = []).
Proof.
  intros HB r.
  destruct (load_file_facts cfg HB (S (List.length content)) content
                            (BUFFER1 cfg) 0 h (Nat.lt_succ_diag_r _))
    as ((ptr & Hres) & (gs & Hg & Hall & Htot) & _).
  fold r in Hres, Hg.
  split; [|split; [|split]].
  - exists ptr. rewrite Hres. destruct content; reflexivity.
  - exists gs. split; assumption.
  - unfold bytes_loaded. rewrite Hg, total_app, Htot. cbn. lia.
  - intros a0 name c fs Hfs Herr Hlen g. subst g.
    rewrite (gate_loaded cfg crc32_bytes strtoll a0 name c fs content h
                         HB Hfs Herr).
    unfold loaded_size. rewrite check_image_large by exact Hlen.
    cbn [result_of trace_of fst snd].
    split; [reflexivity|]. split.
    + apply in_or_app; right. apply in_or_app; right.
      apply in_or_app; right. cbn; tauto.
    + pose proof (gate_passive cfg crc32_bytes strtoll [a0; name; c] fs h)
        as [Hp _].
      rewrite (gate_loaded cfg crc32_bytes strtoll a0 name c fs content h
                           HB Hfs Herr) in Hp.
      unfold loaded_size in Hp.
      rewrite check_image_large in Hp by exact Hlen.
      cbn [trace_of snd] in Hp.
      apply passive_filter; [|exact Hp].
      intros e. destruct e as [| | | | | | | | | |[] ?| | | |]; cbn; congruence.
Qed.

End LoaderBound.

(** ** Erasing *)

Section EraseAll.

Context {HW : Type} `{Hardware HW}.
Variable cfg : Board.

Lemma counters_pages (n : nat) :
  forall c : Z,
    0 <= c -> c + Z.of_nat n <= 256 ->
    flat_map (fun c => [EWrite FLASH_PAGE (wrap8 c); EWrite FLASH_PGCTL 2])
             (counters n c)
    = flat_map (fun p => [EWrite FLASH_PAGE (Z.of_nat p); EWrite FLASH_PGCTL 2])
               (seq (Z.to_nat c) n).
Proof.
  induction n as [|n IH]; intros c Hc Hcn; cbn [counters seq flat_map];
    [reflexivity|].
  rewrite (wrap8_small c) by (change (2 ^ 8) with 256; lia).
  rewrite (wrap24_small (c + 1)) by lia.
  rewrite IH by lia.
  rewrite Z2Nat.id by lia.
  replace (Z.to_nat (c + 1)) with (S (Z.to_nat c)) by lia.
  reflexivity.
Qed.

(** Whatever its length and addresses, a pass selects and erases every
    page of the flash, in order, and no other page. *)
Lemma page_ops_pass (sz to from : Z) (h : HW) :
  0 <= FLASHPAGES cfg <= 256 ->
  page_ops (trace_of (erase_and_write cfg sz to from h)) =
  erase_all (Z.to_nat (FLASHPAGES cfg)).
Proof.
  intros Hpages. unfold page_ops, erase_all.
  rewrite filter_flat_map, erase_and_write_proj by reflexivity.
  cbn [is_page_op app].
  rewrite (flat_map_nil (write_plan _ _ _ _ _ _ _)) by reflexivity.
  rewrite app_nil_r.
  apply (counters_pages (Z.to_nat (FLASHPAGES cfg)) 0); lia.
Qed.

End EraseAll.

(** ** Sessions on the fault-free device *)

Section IdealSession.

Variable cfg : Board.
Variable crc32_bytes : list Z -> Z.
Variable strtoll : string -> Z * Z.
Hypothesis cfg_ok : board_ok cfg = true.

(** C9.  On the fault-free device: every pass, whatever it is to write,
    selects and erases all FLASHPAGES pages; and when the candidate pass
    of an image shorter than the flash verifies (the session's only
    comparison is the candidate's, and it matches), the session ends in
    a reset with every flash byte from the image length on reading 0xFF,
    whatever the flash held before. *)
Theorem erase_covers_whole_flash
        (fuel : nat) (crcexp sz : Z) (h : ideal) :
  (3 <= fuel)%nat ->
  0 <= sz < FLASHSIZE cfg ->
  let r := backup_and_enter (H := ideal_hw cfg) cfg crc32_bytes fuel crcexp sz h in
  (forall (sz' to from : Z) (h' : ideal),
      page_ops (trace_of (erase_and_write (H := ideal_hw cfg) cfg sz' to from h'))
      = erase_all (Z.to_nat (FLASHPAGES cfg)))
  /\ (compares (trace_of r) = [ECompare firmware crcexp crcexp] ->
      result_of r = DeviceReset
      /\ forall off, sz <= off < FLASHSIZE cfg ->
                     mem (hw_of r) (FLASHSTART cfg + off) = 255).
Proof.
  intros Hfuel Hsz r.
  destruct (board_ok_inv cfg cfg_ok) as (Hp & Hpages & _).
  split; [intros; apply page_ops_pass; exact Hpages|].
  subst r. rewrite backup_and_enter_run.
  cbn [result_of hw_of trace_of fst snd].
  rewrite main_loop_session by (try reflexivity; exact Hfuel).
  rewrite compares_app, session_compares.
  change (compares (capture_trace cfg crc32_bytes h)) with (@nil event).
  cbn [app].
  unfold session.
  set (l0 := entry_locals cfg crc32_bytes crcexp sz h).
  destruct (crc1 cfg crc32_bytes l0 (captured cfg h) =? crcexpected l0);
    [|discriminate].
  intros _. cbn [result_of hw_of fst snd].
  split; [reflexivity|].
  intros off Hoff.
  rewrite ideal_reset_sequence.
  unfold pass1. subst l0. cbn [size addressto entry_locals].
  apply ideal_pass_tail; [exact cfg_ok | lia | exact Hoff].
Qed.

(** The gate lets an empty image through when the expected checksum is
    the checksum of no bytes. *)
Lemma gate_empty (a0 name c : string) (fs : string -> option (list Z)) (h : ideal) :
  fs name = Some [] ->
  snd (strtoll c) = 0 ->
  wrap32 (fst (strtoll c)) = wrap32 (crc32_bytes []) ->
  gate (H := ideal_hw cfg) cfg crc32_bytes strtoll [a0; name; c] fs h =
  (inr (wrap32 (crc32_bytes []), 0), h,
   [EPrintf "Agon MOS firmware upgrade utility v1.3\n\r\n\r" [];
    EFopen name 1;
    EPrintf "Loading file : %s\n\r" [PStr name];
    EPrintf "File size    : %d byte(s)" [PNum 0];
    EFread (BUFFER1 cfg) 0;
    EFclose;
    EPrintf "\rFile size    : %d byte(s)\n\r" [PNum 0];
    EPrintf "Testing CRC32: 0x%08lx\n\r" [PNum (wrap32 (crc32_bytes []))];
    ECrc32 (BUFFER1 cfg) 0 (wrap32 (crc32_bytes []));
    EPrintf "CRC32 result : 0x%08lx\n\r" [PNum (wrap32 (crc32_bytes []))];
    EPrintf "\n\rOK\n\r\n\r" []]).
Proof.
  intros Hfs Herr Hcrc.
  destruct (board_ok_inv cfg cfg_ok)
    as (Hp & Hpages & Hfs' & _ & _ & _ & _ & _ & _ & _ & HB & _).
  rewrite (gate_loaded cfg crc32_bytes strtoll a0 name c fs [] h HB Hfs Herr).
  change (loaded_size []) with 0.
  assert (Hst : staged (H := ideal_hw cfg) cfg [] h = h).
  { unfold staged. cbn [List.length load_file]. rewrite firstn_nil. reflexivity. }
  rewrite Hst, check_image_pass; [| nia | rewrite Hcrc; reflexivity].
  rewrite Hcrc. cbn [List.length load_file]. rewrite firstn_nil.
  reflexivity.
Qed.

Lemma filter_getch (p : event -> bool) (l : list Z) :
  (forall c, p (EGetch c) = false) -> filter p (map EGetch l) = [].
Proof.
  intros Hp; induction l as [|c l IH]; cbn; [reflexivity|].
  rewrite Hp. exact IH.
Qed.

Lemma memcpys_getch (l : list Z) : memcpys (map EGetch l) = [].
Proof. induction l as [|c l IH]; cbn; [reflexivity | exact IH]. Qed.

Lemma memcpys_reset_sequence (h : ideal) :
  memcpys (trace_of (reset_sequence (H := ideal_hw cfg) h)) = [].
Proof.
  unfold memcpys. rewrite reset_sequence_proj by reflexivity. reflexivity.
Qed.

Lemma page_count_zero : page_count cfg 0 = 0.
Proof. unfold page_count. rewrite Zmod_0_l, Zdiv_0_l. reflexivity. Qed.

(** C10.  On the fault-free device, with an empty file, an expected
    checksum equal to the checksum of no bytes, and an operator who
    answers 'y' (after any other keys): the program prompts, erases every
    page, performs no copy but the backup's (no page is written),
    computes the verification checksum over zero bytes and finds it equal,
    and ends in a reset with every byte of the flash reading 0xFF. *)
Theorem empty_image_erases_flash
        (fuel : nat) (a0 name c : string) (fs : string -> option (list Z))
        (pre rest : list Z) (h : ideal) :
  (3 <= fuel)%nat ->
  fs name = Some [] ->
  snd (strtoll c) = 0 ->
  wrap32 (fst (strtoll c)) = wrap32 (crc32_bytes []) ->
  Forall is_byte pre -> Forall other_key pre ->
  let r := main (H := ideal_hw cfg) cfg crc32_bytes strtoll fuel
                [a0; name; c] fs (pre ++ key_y :: rest) h in
  let c0 := wrap32 (crc32_bytes []) in
  result_of r = DeviceReset
  /\ In (EPrintf msg_prompt []) (trace_of r)
  /\ page_ops (trace_of r) = erase_all (Z.to_nat (FLASHPAGES cfg))
  /\ memcpys (trace_of r) = [(BUFFER2 cfg, 0, FLASHSIZE cfg)]
  /\ (exists cb,
        filter is_check (trace_of r) =
        [ECrc32 (BUFFER1 cfg) 0 c0; ECrc32 0 (FLASHSIZE cfg) cb;
         ECrc32 (FLASHSTART cfg) 0 c0; ECompare firmware c0 c0])
  /\ (forall off, 0 <= off < FLASHSIZE cfg ->
                  mem (hw_of r) (FLASHSTART cfg + off) = 255).
Proof.
  intros Hfuel Hfs Herr Hcrc Hbytes Hother r c0.
  destruct (board_ok_inv cfg cfg_ok) as (Hp & Hpages & Hsize & _).
  set (l0 := entry_locals (H := ideal_hw cfg) cfg crc32_bytes c0 0 h).
  set (h0 := captured (H := ideal_hw cfg) cfg h).
  set (p1 := pass1 (H := ideal_hw cfg) cfg l0 h0).
  assert (Hc1 : crc1 (H := ideal_hw cfg) cfg crc32_bytes l0 h0 = c0) by reflexivity.
  assert (Hrun : r =
    (DeviceReset, hw_of p1,
     trace_of (gate (H := ideal_hw cfg) cfg crc32_bytes strtoll [a0; name; c] fs h)
     ++ (EPrintf msg_prompt [] :: map EGetch (pre ++ [key_y]))
     ++ capture_trace (H := ideal_hw cfg) cfg crc32_bytes h
     ++ trace_of p1
     ++ verify_trace cfg firmware 0 c0 c0
     ++ [EPrintf msg_ok []]
     ++ trace_of (reset_sequence (H := ideal_hw cfg) (hw_of p1)))).
  { subst r. unfold main. rewrite bind_run.
    rewrite (gate_empty a0 name c fs h Hfs Herr Hcrc).
    cbn [result_of hw_of trace_of fst snd].
    unfold confirm_and_flash, ask. rewrite !bind_run.
    rewrite (get_response_found pre key_y rest)
      by (try reflexivity; apply other_keys_skip; assumption).
    cbn [result_of hw_of trace_of fst snd printf emit].
    change (wrap8 key_y =? key_y) with true. cbv iota.
    rewrite backup_and_enter_run.
    rewrite main_loop_session by (try reflexivity; exact Hfuel).
    fold c0. fold l0. fold h0.
    unfold session. rewrite Hc1.
    change (crcexpected l0) with c0. rewrite Z.eqb_refl.
    cbn [result_of hw_of trace_of fst snd size].
    fold p1. rewrite ideal_reset_sequence.
    change (size l0) with 0.
    rewrite <- !app_assoc. reflexivity. }
  rewrite (gate_empty a0 name c fs h Hfs Herr Hcrc) in Hrun.
  cbn [trace_of snd] in Hrun. fold c0 in Hrun.
  rewrite Hrun. cbn [result_of hw_of trace_of fst snd].
  split; [reflexivity|]. split; [|split; [|split; [|split]]].
  - apply in_or_app; right. left; reflexivity.
  - unfold page_ops. rewrite !filter_app.
    cbn [filter is_page_op app].
    rewrite filter_getch by reflexivity.
    rewrite filter_reset_sequence by reflexivity.
    cbn [is_page_op app]. rewrite app_nil_r.
    apply (page_ops_pass (H := ideal_hw cfg)). exact Hpages.
  - rewrite !memcpys_app. unfold p1, pass1.
    rewrite memcpys_pass, memcpys_reset_sequence.
    change (size l0) with 0. rewrite page_count_zero.
    cbn [memcpys flat_map app Z.to_nat write_plan].
    rewrite memcpys_getch. reflexivity.
  - exists (backup_crc (H := ideal_hw cfg) cfg crc32_bytes h).
    rewrite !filter_app. unfold p1, pass1.
    rewrite checks_pass.
    cbn [filter is_check app].
    rewrite filter_getch by reflexivity.
    rewrite filter_reset_sequence by reflexivity.
    reflexivity.
  - intros off Hoff. unfold p1, pass1.
    change (size l0) with 0. change (addressto l0) with (FLASHSTART cfg).
    apply ideal_pass_tail; [exact cfg_ok | nia | lia].
Qed.

End IdealSession.

(** ** Where the backup pass writes *)

Section BackupPass.

Context {HW : Type} `{Hardware HW}.
Variable cfg : Board.
Variable crc32_bytes : list Z -> Z.

Lemma advance_wrap (n : nat) :
  forall a : Z, 0 <= a < 2 ^ 24 ->
    advance cfg n a = wrap24 (a + Z.of_nat n * PAGESIZE cfg).
Proof.
  induction n as [|n IH]; intros a Ha; cbn [advance].
  - rewrite Z.add_0_r. symmetry. apply wrap24_small. exact Ha.
  - rewrite IH by apply wrap24_range.
    rewrite wrap24_add_l. f_equal. lia.
Qed.

(** In a session entered as [main] enters it, the copies of the second
    pass are the plan for FLASHSIZE bytes from BUFFER2, to the address at
    which the first pass stopped: FLASHSTART plus the pages of the
    candidate.  For a candidate that is not empty this is not
    FLASHSTART. *)
Lemma backup_pass_resumes_after_candidate (crcexp sz : Z) (h : HW) :
  board_ok cfg = true ->
  0 < sz <= FLASHSIZE cfg ->
  let l := entry_locals cfg crc32_bytes crcexp sz h in
  let to := wrap24 (FLASHSTART cfg + page_count cfg sz * PAGESIZE cfg) in
  memcpys (trace_of (pass2 cfg l (captured cfg h))) =
    write_plan cfg (Z.to_nat (page_count cfg (FLASHSIZE cfg))) 0
               (page_count cfg (FLASHSIZE cfg))
               (last_page_bytes cfg (FLASHSIZE cfg)) to (BUFFER2 cfg)
  /\ to <> FLASHSTART cfg.
Proof.
  intros Hb Hsz l to.
  destruct (board_ok_inv cfg Hb) as (Hp & Hpages & Hfs & Hfs24 & Hst & Hst' & _).
  assert (Hsz24 : 0 <= sz < 2 ^ 24) by lia.
  pose proof (page_count_range cfg Hp sz Hsz24) as Hpc.
  pose proof (page_count_bytes cfg Hp sz Hsz24) as Hbytes.
  pose proof (last_page_bytes_range cfg Hp sz) as Hlast.
  split.
  - unfold pass2. rewrite memcpys_pass. unfold pass1.
    rewrite erase_and_write_result. cbn [fst].
    subst l. cbn [size addressto entry_locals].
    rewrite advance_wrap by lia. rewrite Z2Nat.id by lia.
    reflexivity.
  - subst to. destruct Hbytes as [Hbytes | [Hz _]]; [|lia].
    assert (Hlo : 0 < page_count cfg sz * PAGESIZE cfg) by lia.
    assert (Hhi : page_count cfg sz * PAGESIZE cfg < 2 ^ 24).
    { assert (page_count cfg sz <= FLASHPAGES cfg); [|nia].
      apply Z.nlt_ge. intros Hgt.
      assert (FLASHPAGES cfg * PAGESIZE cfg
              <= (page_count cfg sz - 1) * PAGESIZE cfg)
        by (apply Z.mul_le_mono_nonneg_r; lia).
      lia. }
    rewrite wrap24_mod. intros E.
    assert (E' : (FLASHSTART cfg + page_count cfg sz * PAGESIZE cfg) mod 2 ^ 24
                 = FLASHSTART cfg mod 2 ^ 24)
      by (rewrite E; symmetry; apply Z.mod_small; lia).
    rewrite (Z.mod_small (FLASHSTART cfg)) in E' by lia.
    destruct (Z_lt_ge_dec (FLASHSTART cfg + page_count cfg sz * PAGESIZE cfg)
                          (2 ^ 24)) as [Hlt|Hge].
    + rewrite Z.mod_small in E' by lia. lia.
    + replace (FLASHSTART cfg + page_count cfg sz * PAGESIZE cfg)
        with (FLASHSTART cfg + page_count cfg sz * PAGESIZE cfg - 2 ^ 24
              + 1 * 2 ^ 24) in E' by lia.
      rewrite Z_mod_plus_full, Z.mod_small in E' by lia. lia.
Qed.

End BackupPass.

(** C1 (the program departs from it).  On a board with four pages of four
    bytes: a candidate of nine bytes, a matching expected checksum, the
    operator's 'y', and a device that flips one bit of the first page it
    programs and is free of faults afterwards.  The candidate's
    verification fails; the backup pass then copies the backup to
    addresses 12, 16, 20 and 24 and not to the start of the flash, so the
    first three pages of the flash stay erased, the backup's verification
    fails too, and the session ends halted, although the flash held
    3, 10, 17, ... before and the backup buffer holds them still. *)
Theorem backup_pass_misses_flash_start :
  let r := main (H := glitchy_hw tiny) tiny crc32_ieee strtoll_hex 3
                (example_argv "CBF43926") (example_fs example_image) [121]
                (glitch_once (old_firmware tiny)) in
  summary (H := glitchy_hw tiny) tiny 16 r =
  (Halted,
   [(128, 0, 16); (0, 64, 4); (4, 68, 4); (8, 72, 1);
    (12, 128, 4); (16, 132, 4); (20, 136, 4); (24, 140, 4)],
   [ECompare firmware 3700370789 3421780262;
    ECompare recover 3198121863 421477791],
   [255; 255; 255; 255; 255; 255; 255; 255; 255; 255; 255; 255; 3; 10; 17; 24])
  /\ read_range (H := ideal_hw tiny) (old_firmware tiny) 0 16 =
     [3; 10; 17; 24; 31; 38; 45; 52; 59; 66; 73; 80; 87; 94; 101; 108]
  /\ read_range (H := glitchy_hw tiny) (hw_of r) (BUFFER2 tiny) 16 =
     [3; 10; 17; 24; 31; 38; 45; 52; 59; 66; 73; 80; 87; 94; 101; 108].
Proof. split; [|split]; vm_compute; reflexivity. Qed.

(** On the board of the Agon, for every device, checksum function and
    expected checksum: after a candidate of nine bytes (one page), the
    backup pass copies its 128 pages to 1024, 2048, ..., the last of them
    past the end of the flash. *)
Example backup_pass_on_agon_board
        (crc32_bytes : list Z -> Z) (crcexp : Z) (h : glitchy) :
  let l := entry_locals (H := glitchy_hw agon) agon crc32_bytes crcexp 9 h in
  memcpys (trace_of (pass2 (H := glitchy_hw agon) agon l
                           (captured (H := glitchy_hw agon) agon h)))
  = write_plan agon 128 0 128 1024 1024 (BUFFER2 agon)
  /\ 1024 <> FLASHSTART agon.
Proof.
  apply (backup_pass_resumes_after_candidate (H := glitchy_hw agon) agon
           crc32_bytes crcexp 9 h); [reflexivity | cbn; lia].
Qed.

(** ** The theorems at concrete inputs *)

(** C2 at the example session on the small board. *)
Lemma terminal_states_witness :
  state example_locals = firmware /\ (3 <= 3)%nat
  /\ let r := main_loop (H := ideal_hw tiny) tiny crc32_ieee 3
                        example_locals example_staged in
     (result_of r = DeviceReset \/ result_of r = Halted)
     /\ (result_of r = Halted <->
         exists c1 c2,
           compares (trace_of r) =
             [ECompare firmware c1 (crcexpected example_locals);
              ECompare recover c2 (crcbackup example_locals)]
           /\ c1 <> crcexpected example_locals
           /\ c2 <> crcbackup example_locals)
     /\ (result_of r = Halted ->
         filter is_reset (trace_of r) = []
         /\ forall code, result_of r <> Returned code).
Proof.
  split; [reflexivity|]. split; [apply le_n|].
  apply (terminal_states_reset_or_halt (H := ideal_hw tiny) tiny crc32_ieee 3
           example_locals example_staged); [reflexivity | apply le_n].
Defined.

(** C3 at a nine-byte image on the small board: three copies. *)
Lemma page_writes_witness :
  board_ok tiny = true /\ 0 <= 9 <= FLASHSIZE tiny
  /\ let ws := memcpys (trace_of (erase_and_write (H := ideal_hw tiny) tiny 9
                                    (FLASHSTART tiny) (BUFFER1 tiny)
                                    example_staged)) in
     let n := List.length ws in
     Z.of_nat n = (9 + PAGESIZE tiny - 1) / PAGESIZE tiny
     /\ (forall i, (i < n)%nat ->
           nth i ws (0, 0, 0) =
           (FLASHSTART tiny + Z.of_nat i * PAGESIZE tiny,
            BUFFER1 tiny + Z.of_nat i * PAGESIZE tiny,
            if Nat.eqb (S i) n
            then (if 9 mod PAGESIZE tiny =? 0 then PAGESIZE tiny
                  else 9 mod PAGESIZE tiny)
            else PAGESIZE tiny))
     /\ (forall i j, (i < j)%nat -> (j < n)%nat ->
           copy_dst (nth i ws (0, 0, 0)) < copy_dst (nth j ws (0, 0, 0))
           /\ copy_src (nth i ws (0, 0, 0)) < copy_src (nth j ws (0, 0, 0)))
     /\ total (map copy_len ws) = 9.
Proof.
  split; [reflexivity|]. split; [cbn; lia|].
  apply (page_writes_cover_image (H := ideal_hw tiny) tiny 9
           (FLASHSTART tiny) (BUFFER1 tiny) example_staged);
    try reflexivity; cbn; lia.
Defined.

(** C4 at the example run on the small board: [di()] is event 22. *)
Lemma backup_order_witness :
  let t := trace_of (main (H := ideal_hw tiny) tiny crc32_ieee strtoll_hex 3
                          (example_argv "CBF43926") (example_fs example_image)
                          [89; 120; 121] (old_firmware tiny)) in
  FLASHSTART tiny = 0
  /\ t = firstn 22 t ++ EDi :: skipn 23 t
  /\ exists a b c crcb,
       firstn 22 t =
       a ++ EMemcpy (BUFFER2 tiny) (FLASHSTART tiny) (FLASHSIZE tiny)
         :: b ++ ECrc32 (FLASHSTART tiny) (FLASHSIZE tiny) crcb :: c.
Proof.
  intros t.
  assert (Ht : t = firstn 22 t ++ EDi :: skipn 23 t) by (vm_compute; reflexivity).
  split; [reflexivity|]. split; [exact Ht|].
  apply (backup_precedes_erase_and_di (H := ideal_hw tiny) tiny crc32_ieee
           strtoll_hex 3 (example_argv "CBF43926") (example_fs example_image)
           [89; 120; 121] (old_firmware tiny) (firstn 22 t) EDi (skipn 23 t));
    [reflexivity | exact Ht | right; reflexivity].
Defined.

(** The checks of the example session on the small board. *)
Lemma verification_witness :
  (3 <= 3)%nat
  /\ let h := example_staged in
     let p1 := erase_and_write (H := ideal_hw tiny) tiny 9 (FLASHSTART tiny)
                               (BUFFER1 tiny) (captured (H := ideal_hw tiny) tiny h) in
     let c1 := wrap32 (crc32_ieee (read_range (H := ideal_hw tiny) (hw_of p1)
                                              (FLASHSTART tiny) 9)) in
     let p2 := erase_and_write (H := ideal_hw tiny) tiny (FLASHSIZE tiny)
                               (fst (result_of p1)) (BUFFER2 tiny) (hw_of p1) in
     let c2 := wrap32 (crc32_ieee (read_range (H := ideal_hw tiny) (hw_of p2)
                                              (FLASHSTART tiny) (FLASHSIZE tiny))) in
     let cb := wrap32 (crc32_ieee
                         (read_range (H := ideal_hw tiny)
                                     (captured (H := ideal_hw tiny) tiny h)
                                     0 (FLASHSIZE tiny))) in
     filter is_check
            (trace_of (backup_and_enter (H := ideal_hw tiny) tiny crc32_ieee 3
                                        3421780262 9 h)) =
       ECrc32 0 (FLASHSIZE tiny) cb
       :: ECrc32 (FLASHSTART tiny) 9 c1
       :: ECompare firmware c1 3421780262
       :: (if c1 =? 3421780262 then []
           else [ECrc32 (FLASHSTART tiny) (FLASHSIZE tiny) c2;
                 ECompare recover c2 cb])
     /\ (forall (l : locals) (h' : ideal) (l' : locals),
           result_of (iteration (H := ideal_hw tiny) tiny crc32_ieee l h') = inl l' ->
           crcbackup l' = crcbackup l).
Proof.
  split; [apply le_n|].
  apply (verification_recomputes_checksum (H := ideal_hw tiny) tiny crc32_ieee 3
           3421780262 9 example_staged). apply le_n.
Defined.


(** C7 at the keys 'Y', 'x', 'y', 'n'. *)
Lemma prompt_witness :
  Forall is_byte [89; 120; 121; 110]
  /\ let kbd := [89; 120; 121; 110] in
     let r := confirm_and_flash (H := ideal_hw tiny) tiny crc32_ieee 3 kbd
                                3421780262 9 example_staged in
     let flash := backup_and_enter (H := ideal_hw tiny) tiny crc32_ieee 3
                                   3421780262 9 example_staged in
     (Forall other_key kbd ->
        r = (AwaitKey, example_staged, EPrintf msg_prompt [] :: map EGetch kbd))
     /\ (forall pre c rest,
           kbd = pre ++ c :: rest -> Forall other_key pre ->
           (c = key_y \/ c = key_n ->
              result_of (ask (HW := ideal) (pre ++ c :: rest) example_staged)
              = Some (c, rest))
           /\ (c = key_n ->
               r = (Returned 0, example_staged,
                    EPrintf msg_prompt [] :: map EGetch (pre ++ [c])
                    ++ [EPrintf msg_abort []]))
           /\ (c = key_y ->
               r = (result_of flash, hw_of flash,
                    EPrintf msg_prompt [] :: map EGetch (pre ++ [c])
                    ++ trace_of flash))).
Proof.
  assert (Hb : Forall is_byte [89; 120; 121; 110])
    by (repeat constructor; unfold is_byte; lia).
  split; [exact Hb|].
  apply (prompt_accepts_y_or_n (H := ideal_hw tiny) tiny crc32_ieee 3
           [89; 120; 121; 110] 3421780262 9 example_staged Hb).
Defined.

(** C8 as amended, at a file of seventeen bytes on the small board,
    whose flash holds sixteen: the loader stores all seventeen in three
    reads, and the size test then turns the file down. *)
Lemma load_witness :
  let content := long_image in
  let h := old_firmware tiny in
  let r := load_file (H := ideal_hw tiny) tiny (S (List.length content))
                     content (BUFFER1 tiny) 0 h in
  let g := gate (H := ideal_hw tiny) tiny crc32_ieee strtoll_hex
                ["FLASH"%string; "firmware.bin"%string; "00000000"%string]
                (example_fs content) h in
  0 < BLOCKSIZE tiny
  /\ example_fs content "firmware.bin" = Some content
  /\ snd (strtoll_hex "00000000") = 0
  /\ FLASHSIZE tiny < wrap24 (Z.of_nat (List.length content))
  /\ (exists ptr, result_of r = Some (ptr, wrap24 (Z.of_nat (List.length content))))
  /\ (exists gs, reads (trace_of r) = gs ++ [0]
                 /\ Forall (fun g => 0 < g <= BLOCKSIZE tiny) gs)
  /\ bytes_loaded (trace_of r) = Z.of_nat (List.length content)
  /\ result_of g = inl (Returned 0)
  /\ In (EPrintf msg_large []) (trace_of g)
  /\ filter is_flash_op (trace_of g) = [].
Proof.
  intros content h r g.
  assert (Hlarge : FLASHSIZE tiny < wrap24 (Z.of_nat (List.length content)))
    by (vm_compute; reflexivity).
  destruct (load_stops_only_at_end_of_file (H := ideal_hw tiny) tiny crc32_ieee
              strtoll_hex content h eq_refl) as (Hsize & Hreads & Hbytes & Hgate).
  destruct (Hgate "FLASH"%string "firmware.bin"%string "00000000"%string
                  (example_fs content) eq_refl eq_refl Hlarge)
    as (Hres & Hmsg & Hquiet).
  split; [reflexivity|]. split; [reflexivity|]. split; [reflexivity|].
  split; [exact Hlarge|]. split; [exact Hsize|]. split; [exact Hreads|].
  split; [exact Hbytes|]. split; [exact Hres|]. split; [exact Hmsg|].
  exact Hquiet.
Defined.

(** C8 as the claim has it fails: on the board of the Agon, a file of
    FLASHSIZE + 1 bytes is loaded whole.  The loader stores 131073 bytes,
    one more than the capacity; the ninth read still returns a byte, and
    that byte lands just past the candidate buffer, at the first address
    of the backup buffer.  Only the tenth read, which returns nothing,
    ends the loop. *)
Lemma load_overruns_staging_capacity :
  FLASHSIZE agon < bytes_loaded (trace_of oversize_load)
  /\ reads (trace_of oversize_load)
     = [16384; 16384; 16384; 16384; 16384; 16384; 16384; 16384; 1; 0]
  /\ BUFFER1 agon + FLASHSIZE agon = BUFFER2 agon
  /\ mem (old_firmware agon) (BUFFER2 agon) = 0
  /\ mem (hw_of oversize_load) (BUFFER2 agon) = 170.
Proof.
  split; [|split; [|split; [|split]]]; vm_compute; reflexivity.
Qed.

(** C9 at the example session on the small board. *)
Lemma erase_witness :
  board_ok tiny = true /\ (3 <= 3)%nat /\ 0 <= 9 < FLASHSIZE tiny
  /\ let r := backup_and_enter (H := ideal_hw tiny) tiny crc32_ieee 3
                               3421780262 9 example_staged in
     (forall (sz' to from : Z) (h' : ideal),
         page_ops (trace_of (erase_and_write (H := ideal_hw tiny) tiny sz' to from h'))
         = erase_all (Z.to_nat (FLASHPAGES tiny)))
     /\ compares (trace_of r) = [ECompare firmware 3421780262 3421780262]
     /\ result_of r = DeviceReset
     /\ forall off, 9 <= off < FLASHSIZE tiny ->
                    mem (hw_of r) (FLASHSTART tiny + off) = 255.
Proof.
  split; [reflexivity|]. split; [apply le_n|]. split; [cbn; lia|].
  intros r.
  destruct (erase_covers_whole_flash tiny crc32_ieee eq_refl 3 3421780262 9
              example_staged (le_n 3)) as [Hall Hok]; [cbn; lia|].
  assert (Hc : compares (trace_of r) = [ECompare firmware 3421780262 3421780262])
    by (vm_compute; reflexivity).
  split; [exact Hall|]. split; [exact Hc|]. exact (Hok Hc).
Defined.

(** C10 at an empty file on the small board, with the keys 'x', 'y'. *)
Lemma empty_image_witness :
  board_ok tiny = true /\ (3 <= 3)%nat
  /\ example_fs [] "firmware.bin" = Some []
  /\ snd (strtoll_hex "00000000") = 0
  /\ wrap32 (fst (strtoll_hex "00000000")) = wrap32 (crc32_ieee [])
  /\ Forall is_byte [120] /\ Forall other_key [120]
  /\ let r := main (H := ideal_hw tiny) tiny crc32_ieee strtoll_hex 3
                   ["FLASH"%string; "firmware.bin"%string; "00000000"%string]
                   (example_fs []) ([120] ++ key_y :: []) (old_firmware tiny) in
     let c0 := wrap32 (crc32_ieee []) in
     result_of r = DeviceReset
     /\ In (EPrintf msg_prompt []) (trace_of r)
     /\ page_ops (trace_of r) = erase_all (Z.to_nat (FLASHPAGES tiny))
     /\ memcpys (trace_of r) = [(BUFFER2 tiny, 0, FLASHSIZE tiny)]
     /\ (exists cb,
           filter is_check (trace_of r) =
           [ECrc32 (BUFFER1 tiny) 0 c0; ECrc32 0 (FLASHSIZE tiny) cb;
            ECrc32 (FLASHSTART tiny) 0 c0; ECompare firmware c0 c0])
     /\ (forall off, 0 <= off < FLASHSIZE tiny ->
                     mem (hw_of r) (FLASHSTART tiny + off) = 255).
Proof.
  assert (Hb : Forall is_byte [120]) by (repeat constructor; unfold is_byte; lia).
  assert (Ho : Forall other_key [120]) by (repeat constructor; lia).
  split; [reflexivity|]. split; [apply le_n|].
  split; [reflexivity|]. split; [reflexivity|]. split; [reflexivity|].
  split; [exact Hb|]. split; [exact Ho|].
  apply (empty_image_erases_flash tiny crc32_ieee strtoll_hex eq_refl 3
           "FLASH"%string "firmware.bin"%string "00000000"%string
           (example_fs []) [120] [] (old_firmware tiny) (le_n 3)
           eq_refl eq_refl eq_refl Hb Ho).
Defined.

(** ** What the fault-free device holds *)

Lemma mem_wrap (h : ideal) (a : Z) : mem h (wrap24 a) = mem h a.
Proof.
  unfold mem, key.
  rewrite (wrap24_small (wrap24 a)) by apply wrap24_range. reflexivity.
Qed.

(** With nothing wrapping, a range is an interval. *)
Lemma in_range_interval (base len a : Z) :
  0 <= base -> 0 <= len -> base + len <= 2 ^ 24 -> 0 <= a < 2 ^ 24 ->
  in_range base len a = (base <=? a) && (a <? base + len).
Proof.
  intros Hb Hl Hbl Ha. unfold in_range. rewrite wrap24_mod.
  destruct (Z.leb_spec base a) as [Hle|Hlt]; cbn [andb].
  - rewrite Z.mod_small by lia.
    destruct (Z.ltb_spec (a - base) len), (Z.ltb_spec a (base + len));
      try reflexivity; lia.
  - replace (a - base) with (a - base + 2 ^ 24 + (-1) * 2 ^ 24) by lia.
    rewrite Z_mod_plus_full, Z.mod_small by lia.
    apply Z.ltb_ge. lia.
Qed.

Lemma mem_store_inside (l : list Z) : forall (h : ideal) (a b : Z),
  Z.of_nat (List.length l) <= 2 ^ 24 ->
  in_range a (Z.of_nat (List.length l)) b = true ->
  mem (store h a l) b = nth (Z.to_nat (wrap24 (b - a))) l 0.
Proof.
  unfold in_range.
  induction l as [|v l IH]; intros h a b Hn Hin; cbn [store].
  - cbn [List.length] in Hin. pose proof (wrap24_range (b - a)).
    apply Z.ltb_lt in Hin. lia.
  - cbn [List.length] in Hn, Hin. apply Z.ltb_lt in Hin.
    pose proof (wrap24_range (b - a)) as Hr.
    pose proof (wrap24_sub_zero a b) as Hz.
    pose proof (wrap24_pred a b) as Hpred.
    destruct (Z.eqb_spec (wrap24 (b - a)) 0) as [E|E].
    + rewrite mem_store_outside.
      * rewrite mem_poke.
        replace (wrap24 b =? wrap24 a) with true
          by (symmetry; apply Z.eqb_eq, Hz; exact E).
        rewrite E. reflexivity.
      * lia.
      * unfold in_range. rewrite Hpred. apply Z.ltb_ge. lia.
    + rewrite IH.
      * rewrite Hpred.
        replace (Z.to_nat (wrap24 (b - a)))
          with (S (Z.to_nat (wrap24 (b - a) - 1))) by lia.
        reflexivity.
      * lia.
      * rewrite Hpred. apply Z.ltb_lt. lia.
Qed.

Lemma fetch_nth (n : nat) : forall (h : ideal) (a : Z) (i : nat),
  (i < n)%nat -> nth i (fetch h n a) 0 = mem h (a + Z.of_nat i).
Proof.
  induction n as [|n IH]; intros h a i Hi; [lia|].
  cbn [fetch]. destruct i as [|i].
  - cbn [nth]. f_equal. lia.
  - cbn [nth]. rewrite IH by lia. f_equal. lia.
Qed.

Lemma fetch_ext (n : nat) : forall (h1 h2 : ideal) (a1 a2 : Z),
  (forall i, (i < n)%nat -> mem h1 (a1 + Z.of_nat i) = mem h2 (a2 + Z.of_nat i)) ->
  fetch h1 n a1 = fetch h2 n a2.
Proof.
  induction n as [|n IH]; intros h1 h2 a1 a2 Hext; cbn [fetch]; [reflexivity|].
  f_equal.
  - specialize (Hext 0%nat ltac:(lia)).
    replace (a1 + Z.of_nat 0) with a1 in Hext by lia.
    replace (a2 + Z.of_nat 0) with a2 in Hext by lia. exact Hext.
  - apply IH. intros i Hi. specialize (Hext (S i) ltac:(lia)).
    replace (a1 + 1 + Z.of_nat i) with (a1 + Z.of_nat (S i)) by lia.
    replace (a2 + 1 + Z.of_nat i) with (a2 + Z.of_nat (S i)) by lia.
    exact Hext.
Qed.

Lemma fetch_list (l : list Z) : forall (h : ideal) (a : Z),
  (forall i, (i < List.length l)%nat -> mem h (a + Z.of_nat i) = nth i l 0) ->
  fetch h (List.length l) a = l.
Proof.
  induction l as [|v l IH]; intros h a Hl; cbn [List.length fetch]; [reflexivity|].
  f_equal.
  - specialize (Hl 0%nat ltac:(cbn; lia)).
    replace (a + Z.of_nat 0) with a in Hl by lia. exact Hl.
  - apply IH. intros i Hi. specialize (Hl (S i) ltac:(cbn; lia)).
    replace (a + 1 + Z.of_nat i) with (a + Z.of_nat (S i)) by lia.
    exact Hl.
Qed.

(** On this device [read_range] is [fetch]. *)
Lemma read_bytes_fetch (cfg : Board) (n : nat) : forall (h : ideal) (a : Z),
  read_bytes (H := ideal_hw cfg) h n a = fetch h n a.
Proof.
  induction n as [|n IH]; intros h a; cbn [read_bytes fetch]; [reflexivity|].
  rewrite IH. cbn [peek ideal_hw]. rewrite mem_wrap. reflexivity.
Qed.

Lemma mem_copy_inside (h : ideal) (dst src len b : Z) :
  0 <= len <= 2 ^ 24 ->
  in_range dst len b = true ->
  mem (ideal_copy h dst src len) b = mem h (src + wrap24 (b - dst)).
Proof.
  intros Hlen Hin. unfold ideal_copy.
  pose proof (wrap24_range (b - dst)) as Hr.
  assert (Hd : wrap24 (b - dst) < len) by (apply Z.ltb_lt; exact Hin).
  rewrite mem_store_inside; rewrite ?fetch_length, ?Z2Nat.id by lia;
    [| lia | exact Hin].
  rewrite fetch_nth by lia. rewrite Z2Nat.id by lia. reflexivity.
Qed.

Section IdealContents.

Variable cfg : Board.
Hypothesis cfg_ok : board_ok cfg = true.

(** *** The loader *)

Lemma load_file_end (fuel : nat) (ptr size : Z) (h : ideal) :
  hw_of (load_file (H := ideal_hw cfg) cfg (S fuel) [] ptr size h) = h.
Proof. cbn [load_file]. rewrite firstn_nil. reflexivity. Qed.

(** The loader lays the file out from [ptr] on, byte after byte, and
    leaves every other address as it was. *)
Lemma ideal_load_content (fuel : nat) :
  forall (rest : list Z) (ptr size : Z) (h : ideal),
    (List.length rest < fuel)%nat ->
    0 <= ptr -> ptr + Z.of_nat (List.length rest) <= 2 ^ 24 ->
    let h' := hw_of (load_file (H := ideal_hw cfg) cfg fuel rest ptr size h) in
    (forall i, (i < List.length rest)%nat ->
               mem h' (ptr + Z.of_nat i) = nth i rest 0)
    /\ (forall b, 0 <= b < 2 ^ 24 ->
                  b < ptr \/ ptr + Z.of_nat (List.length rest) <= b ->
                  mem h' b = mem h b).
Proof.
  destruct (board_ok_inv cfg cfg_ok)
    as (_ & _ & _ & _ & _ & _ & _ & _ & _ & _ & HB & _).
  induction fuel as [|fuel IH]; intros rest ptr size h Hlen Hptr Hend; [lia|].
  destruct rest as [|x rest].
  - intros h'. subst h'. rewrite load_file_end.
    split; [intros i Hi; cbn in Hi; lia | reflexivity].
  - cbv zeta. cbn [load_file].
    set (B := Z.to_nat (BLOCKSIZE cfg)).
    assert (HBpos : (0 < B)%nat) by (subst B; lia).
    set (chunk := firstn B (x :: rest)).
    remember (skipn B (x :: rest)) as rest' eqn:Erest'.
    assert (Hsplit : x :: rest = chunk ++ rest')
      by (rewrite Erest'; symmetry; apply firstn_skipn).
    assert (Hchunk : (0 < List.length chunk <= B)%nat).
    { subst chunk. rewrite length_firstn. cbn [List.length]. lia. }
    assert (Hlens : List.length (x :: rest)
                    = (List.length chunk + List.length rest')%nat)
      by (rewrite Hsplit at 1; apply length_app).
    rewrite hw_bind. cbn [update result_of hw_of fst snd load_bytes ideal_hw].
    replace (0 <? Z.of_nat (List.length chunk)) with true
      by (symmetry; apply Z.ltb_lt; lia).
    rewrite hw_bind. cbn [printf emit result_of hw_of fst snd].
    set (h1 := ideal_load h ptr chunk).
    assert (Hin1 : forall b, 0 <= b < 2 ^ 24 ->
              in_range ptr (Z.of_nat (List.length chunk)) b
              = (ptr <=? b) && (b <? ptr + Z.of_nat (List.length chunk)))
      by (intros b Hb; apply in_range_interval; lia).
    assert (Hh1in : forall i, (i < List.length chunk)%nat ->
              mem h1 (ptr + Z.of_nat i) = nth i (x :: rest) 0).
    { intros i Hi. subst h1. unfold ideal_load.
      rewrite mem_store_inside.
      - replace (ptr + Z.of_nat i - ptr) with (Z.of_nat i) by lia.
        rewrite wrap24_small, Nat2Z.id by lia.
        rewrite Hsplit, app_nth1 by lia. reflexivity.
      - lia.
      - rewrite Hin1 by lia. apply andb_true_iff.
        split; [apply Z.leb_le | apply Z.ltb_lt]; lia. }
    assert (Hh1out : forall b, 0 <= b < 2 ^ 24 ->
              b < ptr \/ ptr + Z.of_nat (List.length chunk) <= b ->
              mem h1 b = mem h b).
    { intros b Hb Hout. subst h1. unfold ideal_load.
      apply mem_store_outside; [lia|].
      rewrite Hin1 by lia. apply andb_false_iff.
      destruct Hout; [left; apply Z.leb_gt | right; apply Z.ltb_ge]; lia. }
    clear Erest'. destruct rest' as [|y rest2].
    + (* the chunk was the whole of the file *)
      destruct fuel as [|fuel]; [cbn [List.length] in Hlen, Hlens; lia|].
      rewrite load_file_end.
      assert (Hl0 : List.length (x :: rest) = List.length chunk)
        by (rewrite Hlens; apply Nat.add_0_r).
      rewrite Hl0. split.
      * intros i Hi. apply Hh1in. exact Hi.
      * intros b Hb Hout. apply Hh1out; assumption.
    + assert (Hnext : wrap24 (ptr + Z.of_nat (List.length chunk))
                      = ptr + Z.of_nat (List.length chunk)).
      { apply wrap24_small. cbn [List.length] in Hlens, Hend. lia. }
      rewrite Hnext.
      assert (Hfuel : (List.length (y :: rest2) < fuel)%nat)
        by (cbn [List.length] in Hlen, Hlens |- *; lia).
      destruct (IH (y :: rest2) (ptr + Z.of_nat (List.length chunk))
                   (wrap24 (size + Z.of_nat (List.length chunk))) h1 Hfuel)
        as [IHin IHout]; [lia | rewrite Hlens in Hend; lia |].
      split.
      * intros i Hi.
        destruct (Nat.lt_ge_cases i (List.length chunk)) as [Hlo|Hhi].
        -- rewrite IHout by lia. apply Hh1in. exact Hlo.
        -- replace (ptr + Z.of_nat i)
             with (ptr + Z.of_nat (List.length chunk)
                   + Z.of_nat (i - List.length chunk)) by lia.
           rewrite IHin by lia.
           rewrite Hsplit, app_nth2 by lia. reflexivity.
      * intros b Hb Hout.
        rewrite IHout by (rewrite Hlens in Hout; lia).
        apply Hh1out; [exact Hb | rewrite Hlens in Hout; lia].
Qed.

(** *** The passes *)

Lemma ideal_erase_pages_outside (n : nat) :
  forall (c : Z) (h : ideal) (b : Z),
    0 <= c -> c + Z.of_nat n <= 256 ->
    (forall p, c <= p < c + Z.of_nat n ->
               in_range (FLASHSTART cfg + p * PAGESIZE cfg) (PAGESIZE cfg) b = false) ->
    mem (hw_of (erase_pages (H := ideal_hw cfg) n c h)) b = mem h b.
Proof.
  destruct (board_ok_inv cfg cfg_ok)
    as (Hp & _ & _ & _ & _ & _ & _ & _ & _ & _ & _ & Hp24).
  induction n as [|n IH]; intros c h b Hc Hcn Hout; cbn [erase_pages];
    [reflexivity|].
  rewrite !hw_bind. rewrite wait_erase_hw.
  cbn [set_sfr update hw_of result_of fst snd sfr_write ideal_hw].
  rewrite (wrap8_small c) by (change (2 ^ 8) with 256; lia).
  rewrite (wrap24_small (c + 1)) by lia.
  change (wrap8 2) with 2.
  cbn [ideal_sfr_write]. change (Z.testbit 2 1) with true. cbv iota.
  rewrite IH by (try lia; intros p Hp'; apply Hout; lia).
  unfold ideal_erase; cbn [page_sel cells rom].
  rewrite mem_fill, Z2Nat.id by (rewrite ?Z2Nat.id; lia).
  rewrite Hout by lia. reflexivity.
Qed.

(** An address outside the flash lies in none of its pages. *)
Lemma outside_flash_pages (b p : Z) :
  0 <= b < 2 ^ 24 ->
  b < FLASHSTART cfg \/ FLASHSTART cfg + FLASHSIZE cfg <= b ->
  0 <= p < FLASHPAGES cfg ->
  in_range (FLASHSTART cfg + p * PAGESIZE cfg) (PAGESIZE cfg) b = false.
Proof.
  destruct (board_ok_inv cfg cfg_ok)
    as (Hp & Hpages & Hfs & Hfs24 & Hst & Hst' & _).
  intros Hb Hout Hpg.
  assert (Hpage : (p + 1) * PAGESIZE cfg <= FLASHPAGES cfg * PAGESIZE cfg)
    by (apply Z.mul_le_mono_nonneg_r; lia).
  assert (Hp0 : 0 <= p * PAGESIZE cfg) by (apply Z.mul_nonneg_nonneg; lia).
  rewrite in_range_interval by lia.
  apply andb_false_iff.
  destruct Hout; [left; apply Z.leb_gt | right; apply Z.ltb_ge]; lia.
Qed.

(** The write loop copies its pages from the source to the destination,
    byte for byte, and stores nowhere else, when neither range wraps and
    the two lie apart. *)
Lemma ideal_write_pages_content (pm lb : Z) :
  0 <= pm < 2 ^ 24 -> 0 < lb <= PAGESIZE cfg ->
  forall (n : nat) (c to from : Z) (h : ideal),
    0 <= c -> c + Z.of_nat n <= pm ->
    0 <= to -> to + Z.of_nat n * PAGESIZE cfg <= 2 ^ 24 ->
    0 <= from -> from + Z.of_nat n * PAGESIZE cfg <= 2 ^ 24 ->
    to + Z.of_nat n * PAGESIZE cfg <= from
    \/ from + Z.of_nat n * PAGESIZE cfg <= to ->
    let h' := hw_of (write_pages (H := ideal_hw cfg) cfg n c pm lb to from h) in
    (forall j, 0 <= j < (if (c + Z.of_nat n =? pm) && negb (Nat.eqb n 0)
                         then (Z.of_nat n - 1) * PAGESIZE cfg + lb
                         else Z.of_nat n * PAGESIZE cfg) ->
               mem h' (to + j) = mem h (from + j))
    /\ (forall b, 0 <= b < 2 ^ 24 ->
                  b < to \/ to + Z.of_nat n * PAGESIZE cfg <= b ->
                  mem h' b = mem h b).
Proof.
  destruct (board_ok_inv cfg cfg_ok)
    as (Hp & _ & _ & _ & _ & _ & _ & _ & _ & _ & _ & Hp24).
  intros Hpm Hlb.
  induction n as [|n IH]; intros c to from h Hc Hcn Hto Hton Hfr Hfrn Hapart.
  - cbv zeta. cbn [write_pages ret hw_of fst snd].
    rewrite andb_false_r. split; [intros j Hj; lia | reflexivity].
  - cbv zeta. cbn [write_pages]. rewrite !hw_bind.
    cbn [printf emit hw_of result_of fst snd].
    rewrite (wrap24_small (pm - 1)) by lia.
    set (len0 := if c =? pm - 1 then lb else PAGESIZE cfg).
    assert (Hlen0 : 0 < len0 <= PAGESIZE cfg)
      by (subst len0; destruct (c =? pm - 1); lia).
    assert (Hstep : Z.of_nat (S n) * PAGESIZE cfg
                    = PAGESIZE cfg + Z.of_nat n * PAGESIZE cfg) by lia.
    assert (Hnn : 0 <= Z.of_nat n * PAGESIZE cfg)
      by (apply Z.mul_nonneg_nonneg; lia).
    set (h1 := ideal_copy h to from len0).
    assert (Hh1 : hw_of ((if c =? pm - 1
                          then fastmemcpy (H := ideal_hw cfg) to from lb
                          else fastmemcpy (H := ideal_hw cfg) to from (PAGESIZE cfg)) h)
                  = h1)
      by (subst h1 len0; destruct (c =? pm - 1); reflexivity).
    rewrite Hh1.
    assert (Hin : forall b, 0 <= b < 2 ^ 24 ->
              in_range to len0 b = (to <=? b) && (b <? to + len0))
      by (intros b Hb; apply in_range_interval; lia).
    assert (Hh1in : forall j, 0 <= j < len0 -> mem h1 (to + j) = mem h (from + j)).
    { intros j Hj. subst h1. rewrite mem_copy_inside.
      - replace (to + j - to) with j by lia.
        rewrite wrap24_small by lia. reflexivity.
      - lia.
      - rewrite Hin by lia. apply andb_true_iff.
        split; [apply Z.leb_le | apply Z.ltb_lt]; lia. }
    assert (Hh1out : forall b, 0 <= b < 2 ^ 24 ->
              b < to \/ to + len0 <= b -> mem h1 b = mem h b).
    { intros b Hb Hout. subst h1. apply mem_copy_outside; [lia|].
      rewrite Hin by lia. apply andb_false_iff.
      destruct Hout; [left; apply Z.leb_gt | right; apply Z.ltb_ge]; lia. }
    destruct n as [|n].
    + (* this was the last turn *)
      cbn [write_pages ret hw_of fst snd].
      replace (Z.of_nat 1) with 1 in * by reflexivity.
      replace (Nat.eqb 1 0) with false by reflexivity. cbn [negb].
      rewrite andb_true_r.
      split.
      * intros j Hj. apply Hh1in. subst len0.
        destruct (Z.eqb_spec (c + 1) pm), (Z.eqb_spec c (pm - 1)); lia.
      * intros b Hb Hout. apply Hh1out; [exact Hb | lia].
    + rewrite (wrap24_small (c + 1)) by lia.
      rewrite (wrap24_small (to + PAGESIZE cfg)) by lia.
      rewrite (wrap24_small (from + PAGESIZE cfg)) by lia.
      assert (Hc' : c <> pm - 1) by lia.
      assert (Hl0 : len0 = PAGESIZE cfg)
        by (subst len0; destruct (Z.eqb_spec c (pm - 1)); [contradiction | reflexivity]).
      destruct (IH (c + 1) (to + PAGESIZE cfg) (from + PAGESIZE cfg) h1)
        as [IHin IHout]; try lia.
      replace (Nat.eqb (S (S n)) 0) with false by reflexivity.
      replace (Nat.eqb (S n) 0) with false in IHin by reflexivity.
      cbn [negb] in IHin |- *. rewrite andb_true_r in IHin |- *.
      replace (c + 1 + Z.of_nat (S n) =? pm) with (c + Z.of_nat (S (S n)) =? pm)
        in IHin by (f_equal; lia).
      split.
      * intros j Hj.
        assert (Hjn : j < Z.of_nat (S (S n)) * PAGESIZE cfg)
          by (destruct (c + Z.of_nat (S (S n)) =? pm); lia).
        destruct (Z.lt_ge_cases j (PAGESIZE cfg)) as [Hlo|Hhi].
        -- rewrite IHout by lia. apply Hh1in. lia.
        -- replace (to + j) with (to + PAGESIZE cfg + (j - PAGESIZE cfg)) by lia.
           rewrite IHin
             by (destruct (c + Z.of_nat (S (S n)) =? pm); lia).
           replace (from + PAGESIZE cfg + (j - PAGESIZE cfg)) with (from + j) by lia.
           apply Hh1out; lia.
      * intros b Hb Hout.
        rewrite IHout by lia. apply Hh1out; [exact Hb | lia].
Qed.

Lemma page_count_fits (sz : Z) :
  0 <= sz <= FLASHSIZE cfg ->
  0 <= page_count cfg sz
  /\ page_count cfg sz * PAGESIZE cfg <= FLASHSIZE cfg.
Proof.
  destruct (board_ok_inv cfg cfg_ok) as (Hp & Hpages & Hfs & Hfs24 & _).
  intros Hsz.
  assert (Hsz24 : 0 <= sz < 2 ^ 24) by lia.
  pose proof (page_count_range cfg Hp sz Hsz24) as Hpc.
  pose proof (page_count_bytes cfg Hp sz Hsz24) as Hbytes.
  pose proof (last_page_bytes_range cfg Hp sz) as Hlast.
  split; [lia|].
  destruct Hbytes as [Hbytes | [_ Hz]]; [|rewrite Hz; lia].
  assert (page_count cfg sz <= FLASHPAGES cfg); [|rewrite Hfs; nia].
  apply Z.nlt_ge. intros Hgt.
  assert (FLASHPAGES cfg * PAGESIZE cfg <= (page_count cfg sz - 1) * PAGESIZE cfg)
    by (apply Z.mul_le_mono_nonneg_r; lia).
  lia.
Qed.

Lemma ideal_pass_hw (sz to from : Z) (h : ideal) :
  hw_of (erase_and_write (H := ideal_hw cfg) cfg sz to from h) =
  hw_of (write_pages (H := ideal_hw cfg) cfg (Z.to_nat (page_count cfg sz)) 0
           (page_count cfg sz) (last_page_bytes cfg sz) to from
           (hw_of (erase_pages (H := ideal_hw cfg)
                     (Z.to_nat (FLASHPAGES cfg)) 0 h))).
Proof.
  unfold erase_and_write, unprotect. rewrite !hw_bind. reflexivity.
Qed.

Lemma apart_inv (a b : Z) :
  apart cfg a b = true ->
  a + FLASHSIZE cfg <= b \/ b + FLASHSIZE cfg <= a.
Proof.
  unfold apart. intros Hab. apply orb_true_iff in Hab.
  destruct Hab as [Hab|Hab]; apply Z.leb_le in Hab; auto.
Qed.

(** The first [sz] bytes of the flash after a pass, and what lies
    outside the flash. *)
Lemma ideal_pass_prefix (sz from : Z) (h : ideal) :
  0 <= sz <= FLASHSIZE cfg ->
  0 <= from -> from + FLASHSIZE cfg <= 2 ^ 24 ->
  apart cfg (FLASHSTART cfg) from = true ->
  let h1 := hw_of (erase_and_write (H := ideal_hw cfg) cfg sz
                                   (FLASHSTART cfg) from h) in
  (forall j, 0 <= j < sz -> mem h1 (FLASHSTART cfg + j) = mem h (from + j))
  /\ (forall b, 0 <= b < 2 ^ 24 ->
                b < FLASHSTART cfg \/ FLASHSTART cfg + FLASHSIZE cfg <= b ->
                mem h1 b = mem h b).
Proof.
  destruct (board_ok_inv cfg cfg_ok)
    as (Hp & Hpages & Hfs & Hfs24 & Hst & Hst' & _).
  intros Hsz Hfr Hfr' Hap h1.
  apply apart_inv in Hap.
  assert (Hsz24 : 0 <= sz < 2 ^ 24) by lia.
  pose proof (page_count_range cfg Hp sz Hsz24) as Hpc.
  pose proof (page_count_bytes cfg Hp sz Hsz24) as Hbytes.
  pose proof (last_page_bytes_range cfg Hp sz) as Hlast.
  destruct (page_count_fits sz Hsz) as [_ Hfit].
  set (he := hw_of (erase_pages (H := ideal_hw cfg)
                      (Z.to_nat (FLASHPAGES cfg)) 0 h)).
  assert (Hn : Z.of_nat (Z.to_nat (page_count cfg sz)) = page_count cfg sz)
    by (apply Z2Nat.id; lia).
  assert (Herase : forall b, 0 <= b < 2 ^ 24 ->
            b < FLASHSTART cfg \/ FLASHSTART cfg + FLASHSIZE cfg <= b ->
            mem he b = mem h b).
  { intros b Hb Hout. subst he.
    apply ideal_erase_pages_outside; [lia | rewrite Z2Nat.id; lia |].
    intros p Hp'. apply outside_flash_pages; try assumption.
    rewrite Z2Nat.id in Hp' by lia. lia. }
  destruct (ideal_write_pages_content (page_count cfg sz) (last_page_bytes cfg sz)
              Hpc Hlast (Z.to_nat (page_count cfg sz)) 0
              (FLASHSTART cfg) from he) as [Hin Hout];
    try (rewrite ?Hn; lia).
  rewrite Hn in Hin, Hout.
  assert (Hlen : (if (0 + page_count cfg sz =? page_count cfg sz)
                       && negb (Nat.eqb (Z.to_nat (page_count cfg sz)) 0)
                  then (page_count cfg sz - 1) * PAGESIZE cfg
                       + last_page_bytes cfg sz
                  else page_count cfg sz * PAGESIZE cfg) = sz).
  { replace (0 + page_count cfg sz =? page_count cfg sz) with true
      by (symmetry; apply Z.eqb_eq; lia).
    destruct (Nat.eqb_spec (Z.to_nat (page_count cfg sz)) 0) as [E|E];
      cbn [negb andb]; destruct Hbytes as [Hb | [Hz Hz']]; lia. }
  rewrite Hlen in Hin.
  assert (Hh1 : h1 = hw_of (write_pages (H := ideal_hw cfg) cfg
                              (Z.to_nat (page_count cfg sz)) 0
                              (page_count cfg sz) (last_page_bytes cfg sz)
                              (FLASHSTART cfg) from he))
    by (subst h1 he; apply ideal_pass_hw).
  split.
  - intros j Hj. rewrite Hh1, Hin by lia. apply Herase; lia.
  - intros b Hb Hb'. rewrite Hh1, Hout by lia. apply Herase; assumption.
Qed.

(** X4.  On the fault-free device, a pass of [sz] bytes from a source
    range that lies apart from the flash leaves the flash holding the
    source bytes in its first [sz] bytes and 0xFF in the rest, and leaves
    every address outside the flash as it was. *)
Theorem pass_programs_image (sz from : Z) (h : ideal) :
  0 <= sz <= FLASHSIZE cfg ->
  0 <= from -> from + FLASHSIZE cfg <= 2 ^ 24 ->
  apart cfg (FLASHSTART cfg) from = true ->
  let h1 := hw_of (erase_and_write (H := ideal_hw cfg) cfg sz
                                   (FLASHSTART cfg) from h) in
  read_range (H := ideal_hw cfg) h1 (FLASHSTART cfg) sz
  = read_range (H := ideal_hw cfg) h from sz
  /\ (forall off, sz <= off < FLASHSIZE cfg ->
                  mem h1 (FLASHSTART cfg + off) = 255)
  /\ (forall b, 0 <= b < 2 ^ 24 ->
                b < FLASHSTART cfg \/ FLASHSTART cfg + FLASHSIZE cfg <= b ->
                mem h1 b = mem h b).
Proof.
  intros Hsz Hfr Hfr' Hap h1.
  destruct (ideal_pass_prefix sz from h Hsz Hfr Hfr' Hap) as [Hin Hout].
  split; [|split; [|exact Hout]].
  - unfold read_range. rewrite !read_bytes_fetch.
    apply fetch_ext. intros i Hi. apply Hin. lia.
  - intros off Hoff. subst h1.
    apply ideal_pass_tail; [exact cfg_ok | exact Hsz | exact Hoff].
Qed.

(** *** Backup capture *)

Lemma buffers_apart_inv :
  buffers_apart cfg = true ->
  (FLASHSTART cfg + FLASHSIZE cfg <= BUFFER1 cfg
   \/ BUFFER1 cfg + FLASHSIZE cfg <= FLASHSTART cfg)
  /\ (FLASHSTART cfg + FLASHSIZE cfg <= BUFFER2 cfg
      \/ BUFFER2 cfg + FLASHSIZE cfg <= FLASHSTART cfg)
  /\ (BUFFER1 cfg + FLASHSIZE cfg <= BUFFER2 cfg
      \/ BUFFER2 cfg + FLASHSIZE cfg <= BUFFER1 cfg).
Proof.
  unfold buffers_apart. intros Hb.
  apply andb_true_iff in Hb. destruct Hb as [Hb H3].
  apply andb_true_iff in Hb. destruct Hb as [H1 H2].
  repeat split; apply apart_inv; assumption.
Qed.

(** The backup buffer after the backup copy, and what lies outside it. *)
Lemma ideal_capture_mem (h : ideal) :
  let h0 := captured (H := ideal_hw cfg) cfg h in
  (forall i, 0 <= i < FLASHSIZE cfg -> mem h0 (BUFFER2 cfg + i) = mem h i)
  /\ (forall b, 0 <= b < 2 ^ 24 ->
                b < BUFFER2 cfg \/ BUFFER2 cfg + FLASHSIZE cfg <= b ->
                mem h0 b = mem h b).
Proof.
  destruct (board_ok_inv cfg cfg_ok)
    as (Hp & Hpages & Hfs & Hfs24 & Hst & Hst' & Hb1 & Hb1' & Hb2 & Hb2' & _).
  intros h0.
  assert (Hsz : 0 <= FLASHSIZE cfg) by nia.
  assert (Hin : forall b, 0 <= b < 2 ^ 24 ->
            in_range (BUFFER2 cfg) (FLASHSIZE cfg) b
            = (BUFFER2 cfg <=? b) && (b <? BUFFER2 cfg + FLASHSIZE cfg))
    by (intros b Hb; apply in_range_interval; lia).
  split.
  - intros i Hi. subst h0. unfold captured. cbn [copy_bytes ideal_hw].
    rewrite mem_copy_inside.
    + replace (BUFFER2 cfg + i - BUFFER2 cfg) with i by lia.
      rewrite wrap24_small by lia. reflexivity.
    + lia.
    + rewrite Hin by lia. apply andb_true_iff.
      split; [apply Z.leb_le | apply Z.ltb_lt]; lia.
  - intros b Hb Hb'. subst h0. unfold captured. cbn [copy_bytes ideal_hw].
    apply mem_copy_outside; [lia|].
    rewrite Hin by lia. apply andb_false_iff.
    destruct Hb'; [left; apply Z.leb_gt | right; apply Z.ltb_ge]; lia.
Qed.

(** X3.  On the fault-free device, with the flash at address 0 and the
    buffers apart: after the backup copy the backup buffer holds the
    FLASHSIZE bytes of the flash, the checksum taken is the checksum of
    those bytes, and no address outside the backup buffer has changed. *)
Theorem backup_holds_flash_contents (crc32_bytes : list Z -> Z) (h : ideal) :
  buffers_apart cfg = true ->
  FLASHSTART cfg = 0 ->
  let h0 := captured (H := ideal_hw cfg) cfg h in
  read_range (H := ideal_hw cfg) h0 (BUFFER2 cfg) (FLASHSIZE cfg)
  = read_range (H := ideal_hw cfg) h (FLASHSTART cfg) (FLASHSIZE cfg)
  /\ backup_crc (H := ideal_hw cfg) cfg crc32_bytes h
     = wrap32 (crc32_bytes (read_range (H := ideal_hw cfg) h (FLASHSTART cfg)
                                       (FLASHSIZE cfg)))
  /\ (forall b, 0 <= b < 2 ^ 24 ->
                b < BUFFER2 cfg \/ BUFFER2 cfg + FLASHSIZE cfg <= b ->
                mem h0 b = mem h b).
Proof.
  destruct (board_ok_inv cfg cfg_ok)
    as (Hp & Hpages & Hfs & Hfs24 & Hst & Hst' & Hb1 & Hb1' & Hb2 & Hb2' & _).
  intros Hap Hzero h0.
  destruct (buffers_apart_inv Hap) as (_ & Hap2 & _).
  destruct (ideal_capture_mem h) as [Hin Hout]. fold h0 in Hin, Hout.
  split; [|split; [|exact Hout]].
  - unfold read_range. rewrite !read_bytes_fetch.
    apply fetch_ext. intros i Hi.
    rewrite Hin by lia. rewrite Hzero. reflexivity.
  - unfold backup_crc. f_equal. f_equal.
    fold h0. rewrite Hzero.
    unfold read_range. rewrite !read_bytes_fetch.
    apply fetch_ext. intros i Hi. apply Hout; lia.
Qed.

(** *** The gate *)

(** X1.  On the fault-free device the loader leaves the file, byte for
    byte, from the start of the candidate buffer on (whatever its length,
    as long as it ends inside the address space), and changes no address
    outside the bytes it stored. *)
Theorem loader_stages_file (content : list Z) (h : ideal) :
  BUFFER1 cfg + Z.of_nat (List.length content) <= 2 ^ 24 ->
  let h' := staged (H := ideal_hw cfg) cfg content h in
  read_range (H := ideal_hw cfg) h' (BUFFER1 cfg) (Z.of_nat (List.length content))
  = content
  /\ (forall b, 0 <= b < 2 ^ 24 ->
                b < BUFFER1 cfg
                \/ BUFFER1 cfg + Z.of_nat (List.length content) <= b ->
                mem h' b = mem h b).
Proof.
  destruct (board_ok_inv cfg cfg_ok)
    as (Hp & Hpages & Hfs & Hfs24 & Hst & Hst' & Hb1 & Hb1' & _).
  intros Hlen h'.
  destruct (ideal_load_content (S (List.length content)) content
              (BUFFER1 cfg) 0 h (Nat.lt_succ_diag_r _) Hb1 Hlen)
    as [Hin Hout].
  split; [|exact Hout].
  unfold read_range. rewrite read_bytes_fetch, Nat2Z.id.
  apply fetch_list. exact Hin.
Qed.

End IdealContents.

(** ** A whole update on the fault-free device *)

Section IdealUpdate.

Variable cfg : Board.
Variable crc32_bytes : list Z -> Z.
Variable strtoll : string -> Z * Z.
Hypothesis cfg_ok : board_ok cfg = true.

(** The checksum the gate computes is the checksum of the file. *)
Lemma ideal_staged_crc (content : list Z) (h : ideal) :
  Z.of_nat (List.length content) <= FLASHSIZE cfg ->
  staged_crc_of (H := ideal_hw cfg) cfg crc32_bytes
                (Z.of_nat (List.length content))
                (staged (H := ideal_hw cfg) cfg content h)
  = wrap32 (crc32_bytes content).
Proof.
  destruct (board_ok_inv cfg cfg_ok)
    as (Hp & Hpages & Hfs & Hfs24 & Hst & Hst' & Hb1 & Hb1' & _).
  intros Hlen. unfold staged_crc_of. f_equal. f_equal.
  destruct (ideal_load_content cfg cfg_ok (S (List.length content)) content
              (BUFFER1 cfg) 0 h (Nat.lt_succ_diag_r _) Hb1 ltac:(lia))
    as [Hin _].
  unfold read_range. rewrite read_bytes_fetch, Nat2Z.id.
  apply fetch_list. exact Hin.
Qed.

(** X2.  On the fault-free device, with three arguments, a file that
    opens, a checksum text that parses and a file of at most FLASHSIZE
    bytes, the gate lets the image through exactly when the parsed
    checksum equals the checksum of the file's bytes (both as 32-bit
    values); it then hands on that checksum and the file's length. *)
Theorem gate_tests_file_checksum
        (a0 name c : string) (fs : string -> option (list Z))
        (content : list Z) (h : ideal) :
  fs name = Some content ->
  snd (strtoll c) = 0 ->
  Z.of_nat (List.length content) <= FLASHSIZE cfg ->
  result_of (gate (H := ideal_hw cfg) cfg crc32_bytes strtoll [a0; name; c] fs h)
  = if wrap32 (fst (strtoll c)) =? wrap32 (crc32_bytes content)
    then inr (wrap32 (fst (strtoll c)), Z.of_nat (List.length content))
    else inl (Returned 0).
Proof.
  destruct (board_ok_inv cfg cfg_ok)
    as (Hp & Hpages & Hfs & Hfs24 & _ & _ & _ & _ & _ & _ & HB & _).
  intros Hfile Herr Hlen.
  rewrite (gate_loaded (H := ideal_hw cfg) cfg crc32_bytes strtoll a0 name c fs
                       content h HB Hfile Herr).
  cbn [result_of fst]. unfold loaded_size. rewrite wrap24_small by lia.
  pose proof (ideal_staged_crc content h Hlen) as Hcrc.
  destruct (Z.eqb_spec (wrap32 (fst (strtoll c))) (wrap32 (crc32_bytes content)))
    as [E|E].
  - rewrite check_image_pass; [reflexivity | exact Hlen | congruence].
  - rewrite check_image_mismatch; [reflexivity | exact Hlen | congruence].
Qed.

Lemma passive_memcpys (t : list event) : passive t -> memcpys t = [].
Proof.
  induction 1 as [|e t He _ IH]; [reflexivity|].
  cbn [memcpys flat_map]. fold (memcpys t). rewrite IH.
  destruct e; cbn in He |- *; congruence.
Qed.

Lemma passive_compares (t : list event) : passive t -> compares t = [].
Proof.
  intros Ht. apply passive_filter; [|exact Ht].
  intros e. destruct e; cbn; congruence.
Qed.

(** X5.  On the fault-free device, with the buffers apart: a file of at
    most FLASHSIZE bytes whose checksum is the expected one, and an
    operator who answers 'y' (after any other keys).  The run ends in a
    reset; its only comparison is the candidate's, and it matches; the
    flash then holds the file's bytes followed by 0xFF up to its end; and
    the copies made are the backup's and one per page of the image,
    ceil(length / PAGESIZE) of them. *)
Theorem fault_free_update_succeeds
        (fuel : nat) (a0 name c : string) (fs : string -> option (list Z))
        (content pre rest : list Z) (h : ideal) :
  buffers_apart cfg = true ->
  (3 <= fuel)%nat ->
  fs name = Some content ->
  snd (strtoll c) = 0 ->
  wrap32 (fst (strtoll c)) = wrap32 (crc32_bytes content) ->
  Z.of_nat (List.length content) <= FLASHSIZE cfg ->
  Forall is_byte pre -> Forall other_key pre ->
  let r := main (H := ideal_hw cfg) cfg crc32_bytes strtoll fuel
                [a0; name; c] fs (pre ++ key_y :: rest) h in
  let len := Z.of_nat (List.length content) in
  let c0 := wrap32 (crc32_bytes content) in
  result_of r = DeviceReset
  /\ compares (trace_of r) = [ECompare firmware c0 c0]
  /\ read_range (H := ideal_hw cfg) (hw_of r) (FLASHSTART cfg) len = content
  /\ (forall off, len <= off < FLASHSIZE cfg ->
                  mem (hw_of r) (FLASHSTART cfg + off) = 255)
  /\ Z.of_nat (List.length (memcpys (trace_of r)))
     = 1 + (len + PAGESIZE cfg - 1) / PAGESIZE cfg.
Proof.
  destruct (board_ok_inv cfg cfg_ok)
    as (Hp & Hpages & Hfs & Hfs24 & Hst & Hst' & Hb1 & Hb1' & Hb2 & Hb2' & HB & _).
  intros Hap Hfuel Hfile Herr Hcrc Hlen Hbytes Hother r len c0.
  destruct (buffers_apart_inv cfg Hap) as (Hap1 & Hap2 & Hap3).
  assert (Hlen0 : 0 <= len) by (subst len; lia).
  set (hs := staged (H := ideal_hw cfg) cfg content h).
  set (l0 := entry_locals (H := ideal_hw cfg) cfg crc32_bytes c0 len hs).
  set (h0 := captured (H := ideal_hw cfg) cfg hs).
  set (p1 := pass1 (H := ideal_hw cfg) cfg l0 h0).
  (* what the three steps leave in memory *)
  destruct (ideal_load_content cfg cfg_ok (S (List.length content)) content
              (BUFFER1 cfg) 0 h (Nat.lt_succ_diag_r _) Hb1 ltac:(lia))
    as [Hload _]. fold hs in Hload.
  destruct (ideal_capture_mem cfg cfg_ok hs) as [_ Hcap]. fold h0 in Hcap.
  assert (Hapart1 : apart cfg (FLASHSTART cfg) (BUFFER1 cfg) = true).
  { unfold buffers_apart in Hap. apply andb_true_iff in Hap.
    destruct Hap as [Hap _]. apply andb_true_iff in Hap. tauto. }
  destruct (ideal_pass_prefix cfg cfg_ok len (BUFFER1 cfg) h0
              ltac:(lia) Hb1 Hb1' Hapart1) as [Hpass _].
  assert (Hflash : read_range (H := ideal_hw cfg) (hw_of p1) (FLASHSTART cfg) len
                   = content).
  { unfold read_range. rewrite read_bytes_fetch. subst len. rewrite Nat2Z.id.
    apply fetch_list. intros i Hi.
    unfold p1, pass1. cbn [size addressto l0 entry_locals].
    rewrite Hpass by lia. rewrite Hcap by lia. apply Hload. exact Hi. }
  assert (Hc1 : crc1 (H := ideal_hw cfg) cfg crc32_bytes l0 h0 = c0).
  { unfold crc1, flash_crc. fold p1. change (size l0) with len.
    rewrite Hflash. reflexivity. }
  (* the gate *)
  assert (Himg : image_staged cfg strtoll [a0; name; c] fs name c content).
  { split; [exists a0; reflexivity|]. repeat split; try assumption.
    unfold loaded_size. rewrite wrap24_small by lia. exact Hlen. }
  destruct (gate_staged (H := ideal_hw cfg) cfg crc32_bytes strtoll HB
              [a0; name; c] fs name c content h Himg) as (Hg & Hgh & _).
  unfold loaded_size in Hg. rewrite wrap24_small in Hg by lia.
  rewrite check_image_pass in Hg;
    [| exact Hlen | rewrite ideal_staged_crc by exact Hlen; exact Hcrc].
  cbn [result_of fst] in Hg. rewrite Hcrc in Hg. fold c0 len in Hg.
  destruct (gate_passive (H := ideal_hw cfg) cfg crc32_bytes strtoll
                         [a0; name; c] fs h) as [Hgp _].
  set (tg := trace_of (gate (H := ideal_hw cfg) cfg crc32_bytes strtoll
                            [a0; name; c] fs h)) in *.
  assert (Hrun : r =
    (DeviceReset, hw_of p1,
     tg ++ (EPrintf msg_prompt [] :: map EGetch (pre ++ [key_y]))
     ++ capture_trace (H := ideal_hw cfg) cfg crc32_bytes hs
     ++ trace_of p1
     ++ verify_trace cfg firmware len c0 c0
     ++ [EPrintf msg_ok []]
     ++ trace_of (reset_sequence (H := ideal_hw cfg) (hw_of p1)))).
  { subst r. unfold main. rewrite bind_run, Hg, Hgh. fold tg hs.
    cbn [result_of hw_of trace_of fst snd].
    unfold confirm_and_flash, ask. rewrite !bind_run.
    rewrite (get_response_found pre key_y rest)
      by (try reflexivity; apply other_keys_skip; assumption).
    cbn [result_of hw_of trace_of fst snd printf emit].
    change (wrap8 key_y =? key_y) with true. cbv iota.
    rewrite backup_and_enter_run.
    rewrite main_loop_session by (try reflexivity; exact Hfuel).
    fold l0. fold h0.
    unfold session. rewrite Hc1.
    change (crcexpected l0) with c0. rewrite Z.eqb_refl.
    cbn [result_of hw_of trace_of fst snd].
    fold p1. rewrite ideal_reset_sequence.
    change (size l0) with len.
    rewrite <- !app_assoc. reflexivity. }
  rewrite Hrun. cbn [result_of hw_of trace_of fst snd].
  split; [reflexivity|]. split; [|split; [exact Hflash|split]].
  - pose proof (passive_compares tg Hgp) as Htg.
    pose proof (compares_pass (H := ideal_hw cfg) cfg (size l0) (addressto l0)
                              (BUFFER1 cfg) h0) as Hp1.
    fold (pass1 (H := ideal_hw cfg) cfg l0 h0) in Hp1. fold p1 in Hp1.
    unfold compares in *. rewrite !filter_app, Htg, Hp1.
    cbn [filter is_compare app verify_trace capture_trace].
    rewrite filter_getch by reflexivity.
    rewrite filter_reset_sequence by reflexivity.
    reflexivity.
  - intros off Hoff. unfold p1, pass1.
    change (size l0) with len. change (addressto l0) with (FLASHSTART cfg).
    apply ideal_pass_tail; [exact cfg_ok | lia | exact Hoff].
  - rewrite !memcpys_app, (passive_memcpys tg Hgp).
    unfold p1, pass1. rewrite memcpys_pass, memcpys_reset_sequence.
    change (size l0) with len.
    cbn [memcpys flat_map app capture_trace verify_trace].
    rewrite memcpys_getch.
    cbn [app List.length]. rewrite length_app, write_plan_length.
    cbn [List.length]. rewrite Nat.add_0_r.
    rewrite <- (page_count_ceil cfg Hp len) by lia.
    pose proof (page_count_range cfg Hp len ltac:(lia)). lia.
Qed.

End IdealUpdate.

(** ** The order of a pass and the reset sequence *)

Section PassOrder.

Context {HW : Type} `{Hardware HW}.
Variable cfg : Board.

Lemma flat_map_singleton {A B} (g : A -> B) (l : list A) :
  flat_map (fun x => [g x]) l = map g l.
Proof. induction l as [|x l IH]; cbn; [reflexivity | rewrite IH; reflexivity]. Qed.

(** X6.  The flash operations of a pass, on any device and for any
    length and addresses, in order: key unlock, FLASH_PROT := 0, key
    unlock, FLASH_FDIV := 0x5F; then, for each page 0 .. FLASHPAGES-1,
    the page is selected and its erase is started; then the page copies
    of the write loop; then the key lock.  Every erase precedes every
    copy, and nothing follows the lock. *)
Theorem pass_orders_flash_operations (sz to from : Z) (h : HW) :
  board_ok cfg = true ->
  filter is_flash_op (trace_of (erase_and_write cfg sz to from h)) =
  [EKeyUnlock; EWrite FLASH_PROT 0; EKeyUnlock; EWrite FLASH_FDIV 95]
  ++ erase_all (Z.to_nat (FLASHPAGES cfg))
  ++ map copy_event
         (write_plan cfg (Z.to_nat (page_count cfg sz)) 0 (page_count cfg sz)
                     (last_page_bytes cfg sz) to from)
  ++ [EKeyLock].
Proof.
  intros Hok.
  destruct (board_ok_inv cfg Hok) as (_ & Hpages & _).
  rewrite filter_flat_map, erase_and_write_proj by reflexivity.
  cbn [is_flash_op app].
  rewrite (counters_pages (Z.to_nat (FLASHPAGES cfg)) 0) by lia.
  change (Z.to_nat 0) with 0%nat. fold (erase_all (Z.to_nat (FLASHPAGES cfg))).
  rewrite (flat_map_singleton copy_event). reflexivity.
Qed.

Lemma wait_uart_trace (n : nat) (h : HW) :
  trace_of (wait_uart n h) = repeat (ERead UART0_LSR 0) n ++ [ERead UART0_LSR 64].
Proof.
  revert h; induction n as [|n IH]; intros h; cbn [wait_uart repeat app].
  - reflexivity.
  - rewrite trace_bind, IH. reflexivity.
Qed.

Lemma countdown_trace (n : nat) (h : HW) :
  trace_of (countdown n h) = countdown_events n.
Proof.
  revert h; induction n as [|n IH]; intros h; cbn [countdown countdown_events].
  - reflexivity.
  - rewrite !trace_bind, IH. reflexivity.
Qed.

Lemma reset_sequence_events (h : HW) :
  exists k : nat,
    trace_of (reset_sequence h)
    = EPrintf "\r\n" [] :: countdown_events 5
      ++ repeat (ERead UART0_LSR 0) k
      ++ [ERead UART0_LSR 64; EWrite UART0_THR 12; EDelay 500; EReset].
Proof.
  exists (uart_polls (hw_of (countdown 5 (hw_of (printf "\r\n" [] h))))).
  unfold reset_sequence, putch.
  rewrite !trace_bind, countdown_trace, wait_uart_trace.
  cbn [printf emit update delayms set_sfr ret trace_of snd app].
  rewrite <- !app_assoc. reflexivity.
Qed.

End PassOrder.

(** ** How a run of [main] can end *)

Section Outcomes.

Context {HW : Type} `{Hardware HW}.
Variable cfg : Board.
Variable crc32_bytes : list Z -> Z.
Variable strtoll : string -> Z * Z.
Hypothesis block_pos : 0 < BLOCKSIZE cfg.

Lemma check_image_cases (crcexp sz : Z) (h : HW) :
  result_of (check_image cfg crc32_bytes crcexp sz h) = inl (Returned 0)
  \/ result_of (check_image cfg crc32_bytes crcexp sz h) = inr (crcexp, sz).
Proof.
  unfold check_image, bind, printf, emit, crc32, ret.
  destruct (FLASHSIZE cfg <? sz); [left; reflexivity|].
  destruct (negb _); [left | right]; reflexivity.
Qed.

(** The gate returns 0 or lets the image through; the hardware is then
    as it was, or as the loader left it with the file named by the first
    argument. *)
Lemma gate_cases (argv : list string) (fs : string -> option (list Z)) (h : HW) :
  let g := gate cfg crc32_bytes strtoll argv fs h in
  (result_of g = inl (Returned 0)
   /\ (hw_of g = h
       \/ exists a0 name c content,
            argv = [a0; name; c] /\ fs name = Some content
            /\ hw_of g = staged cfg content h))
  \/ (exists a0 name c content sz,
        argv = [a0; name; c] /\ fs name = Some content
        /\ result_of g = inr (wrap32 (fst (strtoll c)), sz)
        /\ hw_of g = staged cfg content h).
Proof.
  cbv zeta. unfold gate. rewrite bind_run.
  cbn [printf emit result_of hw_of trace_of fst snd].
  destruct argv as [|a0 [|name [|c [|x argv]]]];
    try (left; split; [reflexivity | left; reflexivity]).
  destruct (fs name) as [content|] eqn:Efs;
    [|left; split; [reflexivity | left; reflexivity]].
  rewrite bind_run. cbn [emit result_of hw_of trace_of fst snd].
  destruct (negb _); [left; split; [reflexivity | left; reflexivity]|].
  rewrite !bind_run. cbn [printf emit result_of hw_of trace_of fst snd].
  fold (staged cfg content h).
  destruct (load_file_facts cfg block_pos (S (List.length content)) content
              (BUFFER1 cfg) 0 h (Nat.lt_succ_diag_r _)) as ((ptr & Hres) & _).
  rewrite Hres. rewrite bind_run. cbn [emit result_of hw_of trace_of fst snd].
  destruct (check_image_passive cfg crc32_bytes (wrap32 (fst (strtoll c)))
              (match content with
               | [] => 0
               | _ => wrap24 (0 + Z.of_nat (List.length content))
               end) (staged cfg content h)) as [_ Hh].
  destruct (check_image_cases (wrap32 (fst (strtoll c)))
              (match content with
               | [] => 0
               | _ => wrap24 (0 + Z.of_nat (List.length content))
               end) (staged cfg content h)) as [Hc|Hc].
  - left. split; [exact Hc|]. right.
    exists a0, name, c, content. repeat split; assumption.
  - right. eexists a0, name, c, content, _. repeat split; eassumption.
Qed.

(** A run of [main] stays in front of the backup, or goes through it:
    in the first case it has returned 0 or waits for a key, and its trace
    is passive; in the second, a passive prefix is followed by the backup
    capture and the programming loop. *)
Lemma main_cases (fuel : nat) (argv : list string)
      (fs : string -> option (list Z)) (kbd : list Z) (h : HW) :
  let r := main cfg crc32_bytes strtoll fuel argv fs kbd h in
  (passive (trace_of r)
   /\ (result_of r = Returned 0 \/ result_of r = AwaitKey)
   /\ (hw_of r = h
       \/ exists a0 name c content,
            argv = [a0; name; c] /\ fs name = Some content
            /\ hw_of r = staged cfg content h))
  \/ (exists pre crcexp sz h',
        passive pre
        /\ r = (result_of (backup_and_enter cfg crc32_bytes fuel crcexp sz h'),
                hw_of (backup_and_enter cfg crc32_bytes fuel crcexp sz h'),
                pre ++ trace_of (backup_and_enter cfg crc32_bytes fuel
                                                  crcexp sz h'))).
Proof.
  cbv zeta. unfold main. rewrite bind_run.
  destruct (gate_passive cfg crc32_bytes strtoll argv fs h) as [Hg _].
  destruct (gate_cases argv fs h)
    as [[Hr Hh] | (a0 & name & c & content & sz & Ha & Hfs & Hr & Hh)];
    rewrite Hr; cbn [ret result_of hw_of trace_of fst snd].
  - left. rewrite app_nil_r. split; [exact Hg|]. split; [left; reflexivity|].
    exact Hh.
  - set (g := gate cfg crc32_bytes strtoll argv fs h) in *.
    unfold confirm_and_flash, ask. rewrite !bind_run.
    cbn [printf emit result_of hw_of trace_of fst snd].
    destruct (first_answer kbd) as [Hno | (p & k & rest & -> & Hp & Hk)].
    + rewrite get_response_exhausted by (try reflexivity; exact Hno).
      cbn [result_of hw_of trace_of fst snd ret].
      left. rewrite !app_nil_r. split; [|split].
      * apply passive_app; [exact Hg|]. constructor; [reflexivity|].
        apply passive_getch.
      * right; reflexivity.
      * right. exists a0, name, c, content. repeat split; assumption.
    + rewrite get_response_found by (try reflexivity; assumption).
      cbn [result_of hw_of trace_of fst snd].
      destruct (wrap8 k =? key_y).
      * right.
        exists (trace_of g ++ EPrintf msg_prompt [] :: map EGetch (p ++ [k])),
               (wrap32 (fst (strtoll c))), sz, (hw_of g).
        split.
        -- apply passive_app; [exact Hg|]. constructor; [reflexivity|].
           apply passive_getch.
        -- rewrite <- app_assoc. reflexivity.
      * rewrite bind_run. cbn [printf emit result_of hw_of trace_of fst snd ret].
        left. rewrite !app_nil_r. split; [|split].
        -- apply passive_app; [exact Hg|]. constructor; [reflexivity|].
           apply passive_app; [apply passive_getch | repeat constructor].
        -- left; reflexivity.
        -- right. exists a0, name, c, content. repeat split; assumption.
Qed.

Lemma passive_no_reset (t : list event) : passive t -> filter is_reset t = [].
Proof.
  intros Ht. apply passive_filter; [|exact Ht].
  intros e. destruct e; cbn; congruence.
Qed.

Lemma passive_no_di_ops (t : list event) : passive t -> filter is_di t = [].
Proof.
  intros Ht. apply passive_filter; [|exact Ht].
  intros e. destruct e; cbn; congruence.
Qed.

(** The three courses of a session: how it ends, its one [di()], and
    its reset, which is the last event when there is one. *)
Lemma session_ends (fuel : nat) (crcexp sz : Z) (h : HW) :
  (3 <= fuel)%nat ->
  let b := backup_and_enter cfg crc32_bytes fuel crcexp sz h in
  (result_of b = DeviceReset \/ result_of b = Halted)
  /\ filter is_di (trace_of b) = [EDi]
  /\ (result_of b = DeviceReset ->
      exists t, trace_of b = t ++ [EReset] /\ filter is_reset t = [])
  /\ (result_of b = Halted -> filter is_reset (trace_of b) = []).
Proof.
  intros Hfuel b. subst b. rewrite backup_and_enter_run.
  cbn [result_of hw_of trace_of fst snd].
  rewrite main_loop_session by (try reflexivity; exact Hfuel).
  set (l := entry_locals cfg crc32_bytes crcexp sz h).
  set (h0 := captured cfg h).
  unfold session.
  destruct (crc1 cfg crc32_bytes l h0 =? crcexpected l);
    [|destruct (crc2 cfg crc32_bytes l h0 =? crcbackup l)];
    cbn [result_of hw_of trace_of fst snd].
  - destruct (reset_sequence_events (hw_of (pass1 cfg l h0))) as [k Hk].
    split; [left; reflexivity|]. split; [|split; [|discriminate]].
    + rewrite !filter_app. unfold pass1.
      rewrite filter_pass, filter_reset_sequence by reflexivity. reflexivity.
    + intros _. rewrite Hk.
      eexists. split.
      * rewrite !app_comm_cons, !app_assoc.
        change [ERead UART0_LSR 64; EWrite UART0_THR 12; EDelay 500; EReset]
          with ([ERead UART0_LSR 64; EWrite UART0_THR 12; EDelay 500]
                ++ [EReset]).
        rewrite !app_assoc. reflexivity.
      * rewrite !filter_app. unfold pass1.
        rewrite filter_pass by reflexivity.
        cbn [filter is_reset app capture_trace verify_trace countdown_events].
        rewrite ?filter_app.
        assert (Hrep : filter is_reset (repeat (ERead UART0_LSR 0) k) = []).
        { clear. induction k; cbn; auto. }
        rewrite Hrep. reflexivity.
  - destruct (reset_sequence_events (hw_of (pass2 cfg l h0))) as [k Hk].
    split; [left; reflexivity|]. split; [|split; [|discriminate]].
    + rewrite !filter_app. unfold pass1, pass2.
      rewrite !filter_pass, filter_reset_sequence by reflexivity. reflexivity.
    + intros _. rewrite Hk.
      eexists. split.
      * rewrite !app_comm_cons, !app_assoc.
        change [ERead UART0_LSR 64; EWrite UART0_THR 12; EDelay 500; EReset]
          with ([ERead UART0_LSR 64; EWrite UART0_THR 12; EDelay 500]
                ++ [EReset]).
        rewrite !app_assoc. reflexivity.
      * rewrite !filter_app. unfold pass1, pass2.
        rewrite !filter_pass by reflexivity.
        cbn [filter is_reset app capture_trace verify_trace countdown_events].
        rewrite ?filter_app.
        assert (Hrep : filter is_reset (repeat (ERead UART0_LSR 0) k) = []).
        { clear. induction k; cbn; auto. }
        rewrite Hrep. reflexivity.
  - split; [right; reflexivity|]. split; [|split; [discriminate|]].
    + rewrite !filter_app. unfold pass1, pass2.
      rewrite !filter_pass by reflexivity. reflexivity.
    + intros _. rewrite !filter_app. unfold pass1, pass2.
      rewrite !filter_pass by reflexivity. reflexivity.
Qed.

(** X9.  How a run of [main] ends, on any device and for any arguments,
    files and keys.  It returns 0, waits for a key that does not come,
    resets the machine, or halts; there is no other end.  A run that
    returns or waits has emitted only passive events: it has not called
    [di()], has not touched a flash register and has copied nothing.  A
    run that resets or halts has called [di()] exactly once, so [main]
    never returns once interrupts are off.  A reset is the last event of
    its run; a run that ends otherwise holds no reset. *)
Theorem main_returns_only_before_flashing
        (fuel : nat) (argv : list string) (fs : string -> option (list Z))
        (kbd : list Z) (h : HW) :
  (3 <= fuel)%nat ->
  let r := main cfg crc32_bytes strtoll fuel argv fs kbd h in
  (result_of r = Returned 0 \/ result_of r = AwaitKey
   \/ result_of r = DeviceReset \/ result_of r = Halted)
  /\ (result_of r = Returned 0 \/ result_of r = AwaitKey ->
      passive (trace_of r))
  /\ (result_of r = DeviceReset \/ result_of r = Halted ->
      filter is_di (trace_of r) = [EDi])
  /\ (result_of r = DeviceReset ->
      exists t, trace_of r = t ++ [EReset] /\ filter is_reset t = [])
  /\ (result_of r <> DeviceReset -> filter is_reset (trace_of r) = []).
Proof.
  intros Hfuel r.
  destruct (main_cases fuel argv fs kbd h)
    as [(Hp & Hr & _) | (pre & crcexp & sz & h' & Hpre & Hrun)]; fold r in Hp, Hr || fold r in Hrun.
  - split; [tauto|]. split; [intros _; exact Hp|].
    split; [intros [E|E]; destruct Hr as [Hr|Hr]; congruence|].
    split; [intros E; destruct Hr as [Hr|Hr]; congruence|].
    intros _. apply passive_no_reset. exact Hp.
  - destruct (session_ends fuel crcexp sz h' Hfuel) as (Hres & Hdi & Hreset & Hhalt).
    rewrite Hrun. cbn [result_of hw_of trace_of fst snd].
    split; [tauto|].
    split; [intros [E|E]; destruct Hres as [Hr|Hr]; congruence|].
    split; [intros _; rewrite filter_app, (passive_no_di_ops pre Hpre); exact Hdi|].
    split.
    + intros E. destruct (Hreset E) as (t & Ht & Hnone).
      exists (pre ++ t). rewrite Ht, app_assoc. split; [reflexivity|].
      rewrite filter_app, (passive_no_reset pre Hpre). exact Hnone.
    + intros E. rewrite filter_app, (passive_no_reset pre Hpre).
      destruct Hres as [Hr|Hr]; [congruence|]. apply Hhalt. exact Hr.
Qed.

End Outcomes.

(** ** After [di()] *)

Lemma split_unique {A} (p : A -> bool) (a : list A) :
  filter p a = [] ->
  forall (b q : list A) (e e' : A) (t2 : list A),
    filter p b = [] ->
    p e' = true ->
    a ++ e :: b = q ++ e' :: t2 ->
    q = a /\ t2 = b.
Proof.
  induction a as [|x a IH]; intros Ha b q e e' t2 Hb He' Heq.
  - destruct q as [|y q]; cbn [app] in Heq; injection Heq as Hxy Heq.
    + split; [reflexivity | symmetry; exact Heq].
    + subst b. rewrite filter_app in Hb. cbn [filter] in Hb.
      rewrite He' in Hb. destruct (filter p q); discriminate.
  - cbn [filter] in Ha. destruct (p x) eqn:Hx; [discriminate|].
    destruct q as [|y q]; cbn [app] in Heq; injection Heq as Hxy Heq.
    + subst x. congruence.
    + subst y. destruct (IH Ha b q e e' t2 Hb He' Heq) as [-> ->].
      split; reflexivity.
Qed.

Section AfterDi.

Context {HW : Type} `{Hardware HW}.
Variable cfg : Board.
Variable crc32_bytes : list Z -> Z.
Variable strtoll : string -> Z * Z.

Lemma session_filter_none (p : event -> bool) (l : locals) (h : HW) :
  (forall r v, p (ERead r v) = false) ->
  (forall s a, p (EPrintf s a) = false) ->
  p EKeyUnlock = false -> p EKeyLock = false ->
  (forall r v, p (EWrite r v) = false) ->
  (forall d s n, p (EMemcpy d s n) = false) ->
  (forall ms, p (EDelay ms) = false) ->
  (forall a n c, p (ECrc32 a n c) = false) ->
  (forall s a b, p (ECompare s a b) = false) ->
  p EReset = false ->
  filter p (trace_of (session cfg crc32_bytes l h)) = [].
Proof.
  intros Hr Hp Hu Hl Hw Hm Hd Hc Hcmp Hreset.
  unfold session, pass1, pass2.
  destruct (_ =? crcexpected l); [|destruct (_ =? crcbackup l)];
    cbn [trace_of snd]; rewrite !filter_app, !filter_pass by assumption;
    rewrite ?filter_reset_sequence by (intros; auto);
    cbn [filter app verify_trace]; rewrite ?Hp, ?Hc, ?Hcmp, ?Hreset;
    reflexivity.
Qed.

(** X10.  In every run of [main], on any device: what follows the call
    of [di()] holds no call into MOS (no file access, no key read) and
    no second [di()]; and of the flash operations only the backup copy
    comes before it, so the flash is unlocked, erased and programmed
    with interrupts off. *)
Theorem no_mos_call_after_di
        (fuel : nat) (argv : list string) (fs : string -> option (list Z))
        (kbd : list Z) (h : HW) (t1 t2 : list event) :
  (3 <= fuel)%nat ->
  trace_of (main cfg crc32_bytes strtoll fuel argv fs kbd h) = t1 ++ EDi :: t2 ->
  filter is_mos_call t2 = []
  /\ filter is_di t2 = []
  /\ filter is_flash_op t1 = [EMemcpy (BUFFER2 cfg) 0 (FLASHSIZE cfg)].
Proof.
  intros Hfuel Heq.
  destruct (main_shape cfg crc32_bytes strtoll fuel argv fs kbd h)
    as (pre & post & Htr & Hpre & Hpost).
  rewrite Htr in Heq.
  destruct (split_after_passive pre Hpre post t1 EDi t2 Heq eq_refl)
    as (q & -> & Hq).
  destruct Hpost as [-> | (crcexp & sz & h' & ->)];
    [destruct q; discriminate|].
  rewrite backup_and_enter_run in Hq. cbn [trace_of snd] in Hq.
  rewrite main_loop_session in Hq by (try reflexivity; exact Hfuel).
  set (l := entry_locals cfg crc32_bytes crcexp sz h') in *.
  set (s := session cfg crc32_bytes l (captured cfg h')) in *.
  assert (Hs : filter is_di (trace_of s) = [])
    by (apply session_filter_none; reflexivity).
  change (capture_trace cfg crc32_bytes h' ++ trace_of s)
    with ([EPrintf "\r\nBacking up existing firmware... " [];
           EMemcpy (BUFFER2 cfg) 0 (FLASHSIZE cfg);
           ECrc32 0 (FLASHSIZE cfg) (backup_crc cfg crc32_bytes h')]
          ++ EDi :: trace_of s) in Hq.
  destruct (split_unique is_di
              [EPrintf "\r\nBacking up existing firmware... " [];
               EMemcpy (BUFFER2 cfg) 0 (FLASHSIZE cfg);
               ECrc32 0 (FLASHSIZE cfg) (backup_crc cfg crc32_bytes h')]
              eq_refl _ q EDi EDi t2 Hs eq_refl Hq)
    as [-> ->].
  split; [apply session_filter_none; reflexivity|].
  split; [exact Hs|].
  rewrite filter_app.
  rewrite (passive_filter is_flash_op pre) by
      (try exact Hpre; intros e; destruct e; cbn; congruence).
  reflexivity.
Qed.

(** X11.  On any device, for an image that is not empty: when the
    candidate's check fails, the copies of the session are the backup
    copy, the pages of the candidate from FLASHSTART on, and then the
    pages of the whole backup, written from the address at which the
    candidate pass stopped (FLASHSTART plus the candidate's pages), which
    is not FLASHSTART: [addressto] is not set again for the second
    pass. *)
Theorem recovery_copies_start_after_candidate
        (fuel : nat) (crcexp sz : Z) (h : HW) :
  board_ok cfg = true ->
  0 < sz <= FLASHSIZE cfg ->
  (3 <= fuel)%nat ->
  (crc1 cfg crc32_bytes (entry_locals cfg crc32_bytes crcexp sz h)
        (captured cfg h) =? crcexp) = false ->
  let to := wrap24 (FLASHSTART cfg + page_count cfg sz * PAGESIZE cfg) in
  memcpys (trace_of (backup_and_enter cfg crc32_bytes fuel crcexp sz h))
  = (BUFFER2 cfg, 0, FLASHSIZE cfg)
    :: write_plan cfg (Z.to_nat (page_count cfg sz)) 0 (page_count cfg sz)
                  (last_page_bytes cfg sz) (FLASHSTART cfg) (BUFFER1 cfg)
    ++ write_plan cfg (Z.to_nat (page_count cfg (FLASHSIZE cfg))) 0
                  (page_count cfg (FLASHSIZE cfg))
                  (last_page_bytes cfg (FLASHSIZE cfg)) to (BUFFER2 cfg)
  /\ to <> FLASHSTART cfg.
Proof.
  intros Hok Hsz Hfuel Hc1 to.
  destruct (backup_pass_resumes_after_candidate cfg crc32_bytes crcexp sz h
              Hok Hsz) as [Hp2 Hto].
  split; [|exact Hto].
  rewrite backup_and_enter_run. cbn [trace_of snd].
  rewrite main_loop_session by (try reflexivity; exact Hfuel).
  set (l := entry_locals cfg crc32_bytes crcexp sz h) in *.
  unfold session. change (crcexpected l) with crcexp. rewrite Hc1.
  assert (Hrs : forall h', memcpys (trace_of (reset_sequence h')) = [])
    by (intros h'; unfold memcpys; rewrite reset_sequence_proj by reflexivity;
        reflexivity).
  destruct (crc2 cfg crc32_bytes l (captured cfg h) =? crcbackup l);
    cbn [trace_of snd]; rewrite !memcpys_app, Hp2, ?Hrs;
    unfold pass1; rewrite memcpys_pass;
    cbn [memcpys flat_map app capture_trace verify_trace];
    rewrite ?app_nil_r; reflexivity.
Qed.

End AfterDi.

(** ** A run that stops in front of the backup, on the fault-free device *)

Section IdealAbort.

Variable cfg : Board.
Variable crc32_bytes : list Z -> Z.
Variable strtoll : string -> Z * Z.
Hypothesis cfg_ok : board_ok cfg = true.

(** X12.  On the fault-free device, when the file named by the first
    argument, loaded at BUFFER1, ends inside the address space: a run of
    [main] that returns, or that waits for a key, has changed no byte
    below BUFFER1.  With the flash below the candidate buffer, the old
    firmware is intact. *)
Theorem aborted_run_keeps_memory_below_buffer
        (fuel : nat) (argv : list string) (fs : string -> option (list Z))
        (kbd : list Z) (h : ideal) :
  (3 <= fuel)%nat ->
  (forall content, fs (nth 1 argv EmptyString) = Some content ->
                   BUFFER1 cfg + Z.of_nat (List.length content) <= 2 ^ 24) ->
  let r := main (H := ideal_hw cfg) cfg crc32_bytes strtoll fuel argv fs kbd h in
  result_of r = Returned 0 \/ result_of r = AwaitKey ->
  forall b, 0 <= b < BUFFER1 cfg -> mem (hw_of r) b = mem h b.
Proof.
  destruct (board_ok_inv cfg cfg_ok)
    as (Hp & Hpages & Hfs & Hfs24 & Hst & Hst' & Hb1 & Hb1' & Hb2 & Hb2' & HB & _).
  intros Hfuel Hfit r Hres b Hb.
  destruct (main_cases (H := ideal_hw cfg) cfg crc32_bytes strtoll HB
                       fuel argv fs kbd h)
    as [(_ & _ & [Hh | (a0 & name & c & content & -> & Hfile & Hh)])
       | (pre & crcexp & sz & h' & _ & Hrun)]; fold r in Hh || fold r in Hrun.
  - rewrite Hh. reflexivity.
  - rewrite Hh.
    destruct (ideal_load_content cfg cfg_ok (S (List.length content)) content
                (BUFFER1 cfg) 0 h (Nat.lt_succ_diag_r _) Hb1
                (Hfit content Hfile)) as [_ Hout].
    apply Hout; [lia | left; lia].
  - rewrite Hrun in Hres. cbn [result_of fst] in Hres.
    destruct (session_ends (H := ideal_hw cfg) cfg crc32_bytes fuel crcexp sz h'
                           Hfuel) as ([E|E] & _);
      destruct Hres as [R|R]; congruence.
Qed.

End IdealAbort.

(** ** The further theorems at concrete inputs *)

(** X1 at the example image on the small board. *)
Lemma loader_witness :
  board_ok tiny = true
  /\ BUFFER1 tiny + Z.of_nat (List.length example_image) <= 2 ^ 24
  /\ let h' := staged (H := ideal_hw tiny) tiny example_image (old_firmware tiny) in
     read_range (H := ideal_hw tiny) h' (BUFFER1 tiny)
                (Z.of_nat (List.length example_image))
     = example_image
     /\ (forall b, 0 <= b < 2 ^ 24 ->
                   b < BUFFER1 tiny
                   \/ BUFFER1 tiny + Z.of_nat (List.length example_image) <= b ->
                   mem h' b = mem (old_firmware tiny) b).
Proof.
  split; [reflexivity|]. split; [vm_compute; discriminate|].
  apply (loader_stages_file tiny eq_refl example_image (old_firmware tiny)).
  vm_compute; discriminate.
Defined.

(** X2 at the example run on the small board. *)
Lemma gate_witness :
  board_ok tiny = true
  /\ example_fs example_image "firmware.bin" = Some example_image
  /\ snd (strtoll_hex "CBF43926") = 0
  /\ Z.of_nat (List.length example_image) <= FLASHSIZE tiny
  /\ result_of (gate (H := ideal_hw tiny) tiny crc32_ieee strtoll_hex
                     ["FLASH"%string; "firmware.bin"%string; "CBF43926"%string]
                     (example_fs example_image) (old_firmware tiny))
     = if wrap32 (fst (strtoll_hex "CBF43926")) =? wrap32 (crc32_ieee example_image)
       then inr (wrap32 (fst (strtoll_hex "CBF43926")),
                 Z.of_nat (List.length example_image))
       else inl (Returned 0).
Proof.
  split; [reflexivity|]. split; [reflexivity|]. split; [reflexivity|].
  split; [vm_compute; discriminate|].
  apply (gate_tests_file_checksum tiny crc32_ieee strtoll_hex eq_refl
           "FLASH" "firmware.bin" "CBF43926" (example_fs example_image)
           example_image (old_firmware tiny));
    [reflexivity | reflexivity | vm_compute; discriminate].
Defined.

(** X3 at the small board. *)
Lemma backup_contents_witness :
  board_ok tiny = true /\ buffers_apart tiny = true /\ FLASHSTART tiny = 0
  /\ let h0 := captured (H := ideal_hw tiny) tiny example_staged in
     read_range (H := ideal_hw tiny) h0 (BUFFER2 tiny) (FLASHSIZE tiny)
     = read_range (H := ideal_hw tiny) example_staged (FLASHSTART tiny)
                  (FLASHSIZE tiny)
     /\ backup_crc (H := ideal_hw tiny) tiny crc32_ieee example_staged
        = wrap32 (crc32_ieee (read_range (H := ideal_hw tiny) example_staged
                                         (FLASHSTART tiny) (FLASHSIZE tiny)))
     /\ (forall b, 0 <= b < 2 ^ 24 ->
                   b < BUFFER2 tiny \/ BUFFER2 tiny + FLASHSIZE tiny <= b ->
                   mem h0 b = mem example_staged b).
Proof.
  split; [reflexivity|]. split; [reflexivity|]. split; [reflexivity|].
  apply (backup_holds_flash_contents tiny eq_refl crc32_ieee example_staged);
    reflexivity.
Defined.

(** X4 at a pass of nine bytes from the candidate buffer of the small
    board. *)
Lemma pass_contents_witness :
  board_ok tiny = true /\ 0 <= 9 <= FLASHSIZE tiny
  /\ 0 <= BUFFER1 tiny /\ BUFFER1 tiny + FLASHSIZE tiny <= 2 ^ 24
  /\ apart tiny (FLASHSTART tiny) (BUFFER1 tiny) = true
  /\ let h1 := hw_of (erase_and_write (H := ideal_hw tiny) tiny 9
                                      (FLASHSTART tiny) (BUFFER1 tiny)
                                      example_staged) in
     read_range (H := ideal_hw tiny) h1 (FLASHSTART tiny) 9
     = read_range (H := ideal_hw tiny) example_staged (BUFFER1 tiny) 9
     /\ (forall off, 9 <= off < FLASHSIZE tiny ->
                     mem h1 (FLASHSTART tiny + off) = 255)
     /\ (forall b, 0 <= b < 2 ^ 24 ->
                   b < FLASHSTART tiny \/ FLASHSTART tiny + FLASHSIZE tiny <= b ->
                   mem h1 b = mem example_staged b).
Proof.
  split; [reflexivity|]. split; [cbn; lia|]. split; [cbn; lia|].
  split; [cbn; lia|]. split; [reflexivity|].
  apply (pass_programs_image tiny eq_refl 9 (BUFFER1 tiny) example_staged);
    try reflexivity; cbn; lia.
Defined.

(** X5 at the example run on the small board, with the keys 'Y', 'x',
    'y', 'n'. *)
Lemma fault_free_update_witness :
  board_ok tiny = true /\ buffers_apart tiny = true /\ (3 <= 3)%nat
  /\ example_fs example_image "firmware.bin" = Some example_image
  /\ snd (strtoll_hex "CBF43926") = 0
  /\ wrap32 (fst (strtoll_hex "CBF43926")) = wrap32 (crc32_ieee example_image)
  /\ Z.of_nat (List.length example_image) <= FLASHSIZE tiny
  /\ Forall is_byte [89; 120] /\ Forall other_key [89; 120]
  /\ let r := main (H := ideal_hw tiny) tiny crc32_ieee strtoll_hex 3
                   ["FLASH"%string; "firmware.bin"%string; "CBF43926"%string]
                   (example_fs example_image) ([89; 120] ++ key_y :: [110])
                   (old_firmware tiny) in
     let len := Z.of_nat (List.length example_image) in
     let c0 := wrap32 (crc32_ieee example_image) in
     result_of r = DeviceReset
     /\ compares (trace_of r) = [ECompare firmware c0 c0]
     /\ read_range (H := ideal_hw tiny) (hw_of r) (FLASHSTART tiny) len
        = example_image
     /\ (forall off, len <= off < FLASHSIZE tiny ->
                     mem (hw_of r) (FLASHSTART tiny + off) = 255)
     /\ Z.of_nat (List.length (memcpys (trace_of r)))
        = 1 + (len + PAGESIZE tiny - 1) / PAGESIZE tiny.
Proof.
  assert (Hb : Forall is_byte [89; 120])
    by (repeat constructor; unfold is_byte; lia).
  assert (Ho : Forall other_key [89; 120])
    by (repeat constructor; unfold other_key; lia).
  assert (Hc : wrap32 (fst (strtoll_hex "CBF43926"))
               = wrap32 (crc32_ieee example_image)) by (vm_compute; reflexivity).
  assert (Hl : Z.of_nat (List.length example_image) <= FLASHSIZE tiny)
    by (vm_compute; discriminate).
  split; [reflexivity|]. split; [reflexivity|]. split; [apply le_n|].
  split; [reflexivity|]. split; [reflexivity|].
  split; [exact Hc|]. split; [exact Hl|].
  split; [exact Hb|]. split; [exact Ho|].
  apply (fault_free_update_succeeds tiny crc32_ieee strtoll_hex eq_refl 3
           "FLASH" "firmware.bin" "CBF43926" (example_fs example_image)
           example_image [89; 120] [110] (old_firmware tiny)
           eq_refl (le_n 3) eq_refl eq_refl Hc Hl Hb Ho).
Defined.

(** X6 at a pass of nine bytes on the small board. *)
Lemma pass_order_witness :
  board_ok tiny = true
  /\ filter is_flash_op
            (trace_of (erase_and_write (H := ideal_hw tiny) tiny 9
                                       (FLASHSTART tiny) (BUFFER1 tiny)
                                       example_staged))
     = [EKeyUnlock; EWrite FLASH_PROT 0; EKeyUnlock; EWrite FLASH_FDIV 95]
       ++ erase_all (Z.to_nat (FLASHPAGES tiny))
       ++ map copy_event
              (write_plan tiny (Z.to_nat (page_count tiny 9)) 0
                          (page_count tiny 9) (last_page_bytes tiny 9)
                          (FLASHSTART tiny) (BUFFER1 tiny))
       ++ [EKeyLock].
Proof.
  split; [reflexivity|].
  apply (pass_orders_flash_operations (H := ideal_hw tiny) tiny 9
           (FLASHSTART tiny) (BUFFER1 tiny) example_staged).
  reflexivity.
Defined.

(** X9 at a run on the small board in which the operator answers 'n'. *)
Lemma main_outcome_witness :
  0 < BLOCKSIZE tiny /\ (3 <= 3)%nat
  /\ let r := main (H := ideal_hw tiny) tiny crc32_ieee strtoll_hex 3
                   (example_argv "CBF43926") (example_fs example_image)
                   [120; 110] (old_firmware tiny) in
     (result_of r = Returned 0 \/ result_of r = AwaitKey
      \/ result_of r = DeviceReset \/ result_of r = Halted)
     /\ (result_of r = Returned 0 \/ result_of r = AwaitKey ->
         passive (trace_of r))
     /\ (result_of r = DeviceReset \/ result_of r = Halted ->
         filter is_di (trace_of r) = [EDi])
     /\ (result_of r = DeviceReset ->
         exists t, trace_of r = t ++ [EReset] /\ filter is_reset t = [])
     /\ (result_of r <> DeviceReset -> filter is_reset (trace_of r) = []).
Proof.
  split; [reflexivity|]. split; [apply le_n|].
  apply (main_returns_only_before_flashing (H := ideal_hw tiny) tiny crc32_ieee
           strtoll_hex eq_refl 3 (example_argv "CBF43926")
           (example_fs example_image) [120; 110] (old_firmware tiny)).
  apply le_n.
Defined.

(** X10 at the example run on the small board: [di()] is event 22. *)
Lemma after_di_witness :
  let t := trace_of (main (H := ideal_hw tiny) tiny crc32_ieee strtoll_hex 3
                          (example_argv "CBF43926") (example_fs example_image)
                          [89; 120; 121] (old_firmware tiny)) in
  (3 <= 3)%nat
  /\ t = firstn 22 t ++ EDi :: skipn 23 t
  /\ filter is_mos_call (skipn 23 t) = []
  /\ filter is_di (skipn 23 t) = []
  /\ filter is_flash_op (firstn 22 t) = [EMemcpy (BUFFER2 tiny) 0 (FLASHSIZE tiny)].
Proof.
  intros t.
  assert (Ht : t = firstn 22 t ++ EDi :: skipn 23 t) by (vm_compute; reflexivity).
  split; [apply le_n|]. split; [exact Ht|].
  apply (no_mos_call_after_di (H := ideal_hw tiny) tiny crc32_ieee strtoll_hex 3
           (example_argv "CBF43926") (example_fs example_image)
           [89; 120; 121] (old_firmware tiny) (firstn 22 t) (skipn 23 t));
    [apply le_n | exact Ht].
Defined.

(** X11 at the example session on the small board, on the device with
    one programming fault: the backup pass starts at address 12. *)
Lemma recovery_copies_witness :
  board_ok tiny = true /\ 0 < 9 <= FLASHSIZE tiny /\ (3 <= 3)%nat
  /\ (crc1 (H := glitchy_hw tiny) tiny crc32_ieee
           (entry_locals (H := glitchy_hw tiny) tiny crc32_ieee 3421780262 9
                         (glitch_once example_staged))
           (captured (H := glitchy_hw tiny) tiny (glitch_once example_staged))
      =? 3421780262) = false
  /\ let to := wrap24 (FLASHSTART tiny + page_count tiny 9 * PAGESIZE tiny) in
     memcpys (trace_of (backup_and_enter (H := glitchy_hw tiny) tiny crc32_ieee
                                         3 3421780262 9
                                         (glitch_once example_staged)))
     = (BUFFER2 tiny, 0, FLASHSIZE tiny)
       :: write_plan tiny (Z.to_nat (page_count tiny 9)) 0 (page_count tiny 9)
                     (last_page_bytes tiny 9) (FLASHSTART tiny) (BUFFER1 tiny)
       ++ write_plan tiny (Z.to_nat (page_count tiny (FLASHSIZE tiny))) 0
                     (page_count tiny (FLASHSIZE tiny))
                     (last_page_bytes tiny (FLASHSIZE tiny)) to (BUFFER2 tiny)
     /\ to <> FLASHSTART tiny.
Proof.
  split; [reflexivity|]. split; [cbn; lia|]. split; [apply le_n|].
  split; [vm_compute; reflexivity|].
  apply (recovery_copies_start_after_candidate (H := glitchy_hw tiny) tiny
           crc32_ieee 3 3421780262 9 (glitch_once example_staged));
    [reflexivity | cbn; lia | apply le_n | vm_compute; reflexivity].
Defined.

(** X12 at a run on the small board in which the operator answers 'n':
    the sixteen bytes of the flash are as before. *)
Lemma aborted_run_witness :
  board_ok tiny = true /\ (3 <= 3)%nat
  /\ (forall content,
         example_fs example_image (nth 1 (example_argv "CBF43926") EmptyString)
         = Some content ->
         BUFFER1 tiny + Z.of_nat (List.length content) <= 2 ^ 24)
  /\ let r := main (H := ideal_hw tiny) tiny crc32_ieee strtoll_hex 3
                   (example_argv "CBF43926") (example_fs example_image)
                   [120; 110] (old_firmware tiny) in
     (result_of r = Returned 0 \/ result_of r = AwaitKey)
     /\ forall b, 0 <= b < BUFFER1 tiny ->
                  mem (hw_of r) b = mem (old_firmware tiny) b.
Proof.
  assert (Hfit : forall content,
             example_fs example_image
                        (nth 1 (example_argv "CBF43926") EmptyString)
             = Some content ->
             BUFFER1 tiny + Z.of_nat (List.length content) <= 2 ^ 24).
  { intros content Hc. vm_compute in Hc. injection Hc as <-.
    vm_compute. discriminate. }
  split; [reflexivity|]. split; [apply le_n|]. split; [exact Hfit|].
  intros r.
  assert (Hr : result_of r = Returned 0 \/ result_of r = AwaitKey)
    by (left; vm_compute; reflexivity).
  split; [exact Hr|].
  apply (aborted_run_keeps_memory_below_buffer tiny crc32_ieee strtoll_hex
           eq_refl 3 (example_argv "CBF43926") (example_fs example_image)
           [120; 110] (old_firmware tiny) (le_n 3) Hfit Hr).
Defined.

(** ** A file longer than the address space

    [size] is a 24-bit variable: after a file of 2^24 + k bytes it holds
    k, and the size test at line 86 sees k. *)






Section WrappedSize.

Variable cfg : Board.
Variable crc32_bytes : list Z -> Z.
Variable strtoll : string -> Z * Z.
Hypothesis cfg_ok : board_ok cfg = true.





End WrappedSize.


(** C5 (the program departs from it).  The run of C1: the small board, a
    candidate of nine bytes, a matching expected checksum, the operator's
    'y', and a device that flips one bit of the first page it programs.
    The candidate's check fails, and the backup pass copies the sixteen
    bytes of the backup to the addresses 12 .. 27.  The bytes just
    written are the backup (their checksum is the one taken at capture),
    but the check that follows is computed over the addresses 0 .. 15,
    of which the backup pass wrote only the last four: it differs from
    the checksum taken at capture, and the run ends halted. *)
Theorem backup_check_reads_what_was_not_written :
  let r := main (H := glitchy_hw tiny) tiny crc32_ieee strtoll_hex 3
                (example_argv "CBF43926") (example_fs example_image) [121]
                (glitch_once (old_firmware tiny)) in
  filter is_check (trace_of r) =
    [ECrc32 64 9 3421780262; ECrc32 0 16 421477791;
     ECrc32 0 9 3700370789; ECompare firmware 3700370789 3421780262;
     ECrc32 0 16 3198121863; ECompare recover 3198121863 421477791]
  /\ skipn 4 (memcpys (trace_of r)) =
     [(12, 128, 4); (16, 132, 4); (20, 136, 4); (24, 140, 4)]
  /\ wrap32 (crc32_ieee (read_range (H := glitchy_hw tiny) (hw_of r) 12 16))
     = 421477791
  /\ read_range (H := glitchy_hw tiny) (hw_of r) 0 16 =
     [255; 255; 255; 255; 255; 255; 255; 255; 255; 255; 255; 255; 3; 10; 17; 24]
  /\ result_of r = Halted.
Proof. split; [|split; [|split; [|split]]]; vm_compute; reflexivity. Qed.
